(** * Keybinding labels and the Claude Code stream adapter

    A shallow embedding of
    - [src/utils/keybindings.ts] (label resolution and key formatting),
    - [src/utils/vscode-config.ts] (discovery of the user's keybindings.json),
    - [api/providers/claude-code.ts] (provider detection, model selection and
      the translation of the CLI's message stream into chunks),
    followed by the properties the specification states about them.

    Conventions of the embedding.
    - A JavaScript string is a [string]; the development covers ASCII text:
      [toLowerCase], [toUpperCase] and [trim] act on the ASCII letters and
      the ASCII white space, and leave every other character alone.
    - A JavaScript value that the code treats as [any] (parsed JSON) is a
      [json]; [undefined] is [None] of [option json].
    - A [throw] (or a rejected promise) is the [Throw] case of [result].
    - Object literals used as look-up tables are association lists in
      declaration order; the [in] operator and property reads follow the
      prototype chain up to [Object.prototype], as the language does.
    - Token counters are [Z] (JavaScript numbers holding integers), costs
      and modification times are [Q]. *)

From Stdlib Require Import String Ascii List Bool Arith ZArith QArith Lia.
From Stdlib Require Import Permutation Sorted.
Import ListNotations.
Open Scope string_scope.
Set Warnings "-register-all".

(* ================================================================== *)
(** * JavaScript strings *)
(* ================================================================== *)

Module JsString.

Definition is_upper (c : ascii) : bool :=
  let n := nat_of_ascii c in (65 <=? n)%nat && (n <=? 90)%nat.

Definition is_lower (c : ascii) : bool :=
  let n := nat_of_ascii c in (97 <=? n)%nat && (n <=? 122)%nat.

Definition is_digit (c : ascii) : bool :=
  let n := nat_of_ascii c in (48 <=? n)%nat && (n <=? 57)%nat.

(** White space removed by [String.prototype.trim], ASCII part:
    TAB, LF, VT, FF, CR and SPACE. *)
Definition is_space (c : ascii) : bool :=
  let n := nat_of_ascii c in ((9 <=? n)%nat && (n <=? 13)%nat) || (n =? 32)%nat.

Definition lower_char (c : ascii) : ascii :=
  if is_upper c then ascii_of_nat (nat_of_ascii c + 32) else c.

Definition upper_char (c : ascii) : ascii :=
  if is_lower c then ascii_of_nat (nat_of_ascii c - 32) else c.

Fixpoint map_chars (f : ascii -> ascii) (s : string) : string :=
  match s with
  | EmptyString => EmptyString
  | String c t => String (f c) (map_chars f t)
  end.

(** Case conversion of the ASCII letters: on ASCII text, what
    [toLowerCase] and [toUpperCase] do. Statements about labels are made
    for ASCII keys. *)
Definition toLowerCase : string -> string := map_chars lower_char.
Definition toUpperCase : string -> string := map_chars upper_char.

(** [s.split(sep)] for a one-character separator: never empty, and empty
    pieces are kept. *)
Fixpoint split (sep : ascii) (s : string) : list string :=
  match s with
  | EmptyString => [EmptyString]
  | String c t =>
      if Ascii.eqb c sep then EmptyString :: split sep t
      else match split sep t with
           | [] => [String c EmptyString]
           | h :: r => String c h :: r
           end
  end.

Definition nonempty (s : string) : bool :=
  match s with EmptyString => false | _ => true end.

(** [s.charAt(0)]: the first character as a string, or the empty string. *)
Definition charAt0 (s : string) : string :=
  match s with EmptyString => EmptyString | String c _ => String c EmptyString end.

(** [s.slice(1)]. *)
Definition slice1 (s : string) : string :=
  match s with EmptyString => EmptyString | String _ t => t end.

Fixpoint trimStart (s : string) : string :=
  match s with
  | EmptyString => EmptyString
  | String c t => if is_space c then trimStart t else s
  end.

(** [trimEnd] drops a character when it is white space and everything
    after it has been dropped. *)
Fixpoint trimEnd (s : string) : string :=
  match s with
  | EmptyString => EmptyString
  | String c t =>
      match trimEnd t with
      | EmptyString => if is_space c then EmptyString else String c EmptyString
      | t' => String c t'
      end
  end.

(** [s.trim()] on ASCII text. *)
Definition trim (s : string) : string := trimEnd (trimStart s).

Definition startsWith (p s : string) : bool := String.prefix p s.

(** [hay.includes(needle)]: the needle occurs at some position. *)
Fixpoint includes (needle hay : string) : bool :=
  String.prefix needle hay ||
  match hay with
  | EmptyString => false
  | String _ t => includes needle t
  end.

(** [s.indexOf(c)] for a one-character string: the position of the first
    occurrence, or -1. *)
Fixpoint indexOf (c : ascii) (s : string) : Z :=
  match s with
  | EmptyString => (-1)%Z
  | String d t =>
      if Ascii.eqb d c then 0%Z
      else let i := indexOf c t in if (i <? 0)%Z then (-1)%Z else (i + 1)%Z
  end.

Fixpoint drop (n : nat) (s : string) : string :=
  match n, s with
  | O, _ => s
  | S n', String _ t => drop n' t
  | S _, EmptyString => EmptyString
  end.

(** [s.slice(start)]: a negative start counts from the end. *)
Definition slice (start : Z) (s : string) : string :=
  let len := Z.of_nat (String.length s) in
  let from := if (start <? 0)%Z then Z.max (len + start) 0 else Z.min start len in
  drop (Z.to_nat from) s.

End JsString.

(* ================================================================== *)
(** * Object literals used as tables *)
(* ================================================================== *)

Module JsObject.

(** The properties every ordinary object inherits from [Object.prototype]. *)
Definition object_prototype_keys : list string :=
  [ "constructor"; "hasOwnProperty"; "isPrototypeOf"; "propertyIsEnumerable";
    "toLocaleString"; "toString"; "valueOf"; "__proto__";
    "__defineGetter__"; "__defineSetter__"; "__lookupGetter__"; "__lookupSetter__" ].

Definition inherited (k : string) : bool :=
  existsb (String.eqb k) object_prototype_keys.

Section Table.
Variable V : Type.

Fixpoint own (t : list (string * V)) (k : string) : option V :=
  match t with
  | [] => None
  | (k', v) :: r => if String.eqb k k' then Some v else own r k
  end.

Definition has_own (t : list (string * V)) (k : string) : bool :=
  match own t k with Some _ => true | None => false end.

(** [k in t]: an own property, or one found on the prototype. *)
Definition js_in (k : string) (t : list (string * V)) : bool :=
  has_own t k || inherited k.

(** [Object.keys(t)] for keys that are not array indices. *)
Definition keys (t : list (string * V)) : list string := map fst t.
End Table.

Arguments own {V} t k.
Arguments has_own {V} t k.
Arguments js_in {V} k t.
Arguments keys {V} t.

End JsObject.

(* ================================================================== *)
(** * keybindings.ts: formatting *)
(* ================================================================== *)

Module Keybindings.
Import JsString JsObject.

(** What a read of a string table yields: one of its strings, a member of
    [Object.prototype] reached through the prototype chain, or
    [undefined]. *)
Inductive TableValue : Type :=
| VString (s : string)
| VInherited (name : string)
| VUndefined.

Definition table_get (t : list (string * string)) (k : string) : TableValue :=
  match own t k with
  | Some v => VString v
  | None => if inherited k then VInherited k else VUndefined
  end.

(** The conversion [Array.prototype.join] applies to an element:
    [undefined] prints as nothing, the prototype object as
    [[object Object]], a built-in function by its source text. *)
Definition toString (v : TableValue) : string :=
  match v with
  | VString s => s
  | VUndefined => ""
  | VInherited name =>
      if String.eqb name "__proto__" then "[object Object]"
      else "function " ++ (if String.eqb name "constructor" then "Object" else name)
           ++ "() { [native code] }"
  end.

Definition join (sep : string) (l : list string) : string := String.concat sep l.

Definition macModifiers : list (string * string) :=
  [ ("cmd", "Cmd"); ("meta", "Cmd"); ("ctrl", "Ctrl");
    ("alt", "Option"); ("option", "Option"); ("shift", "Shift") ].

Definition winLinuxModifiers : list (string * string) :=
  [ ("cmd", "Ctrl"); ("meta", "Win"); ("ctrl", "Ctrl");
    ("alt", "Alt"); ("shift", "Shift") ].

Definition specialKeys : list (string * string) :=
  [ ("left", "Left"); ("right", "Right"); ("up", "Up"); ("down", "Down");
    ("home", "Home"); ("end", "End"); ("pageup", "PageUp");
    ("pagedown", "PageDown"); ("insert", "Insert"); ("delete", "Delete");
    ("backspace", "Backspace"); ("tab", "Tab"); ("enter", "Enter");
    ("escape", "Escape"); ("space", "Space") ].

(** The test [/^f\d{1,2}$/]. *)
Definition is_function_key (s : string) : bool :=
  match s with
  | String f (String d1 EmptyString) =>
      Ascii.eqb f "f"%char && is_digit d1
  | String f (String d1 (String d2 EmptyString)) =>
      Ascii.eqb f "f"%char && is_digit d1 && is_digit d2
  | _ => false
  end.

Definition normalizeKeyToken (token platform : string) : TableValue :=
  let normalized := toLowerCase token in
  let isMac := String.eqb platform "darwin" in
  let modifierMap := if isMac then macModifiers else winLinuxModifiers in
  if js_in normalized modifierMap then table_get modifierMap normalized
  else if js_in normalized specialKeys then table_get specialKeys normalized
  else if is_function_key normalized then VString (toUpperCase normalized)
  else if (String.length normalized =? 1)%nat then VString (toUpperCase normalized)
  else VString (toUpperCase (charAt0 normalized) ++ slice1 normalized).

Definition formatChord (platform chord : string) : string :=
  let parts := split "+"%char chord in
  join "+" (map (fun part => toString (normalizeKeyToken part platform)) parts).

Definition prettyPrintKey (rawKey platform : string) : string :=
  let chords := filter nonempty (split " "%char rawKey) in
  let formattedChords := map (formatChord platform) chords in
  if (1 <? List.length formattedChords)%nat then join ", " formattedChords
  else match formattedChords with
       | [] => ""
       | c :: _ => if nonempty c then c else ""
       end.

Definition getPlatformKeybinding (platform baseKeybinding : string) : string :=
  prettyPrintKey baseKeybinding platform.

Definition getPlatformModifier (platform : string) : string :=
  if String.eqb platform "darwin" then "Cmd" else "Ctrl".

End Keybindings.

(* ================================================================== *)
(** * Values, exceptions and the environment *)
(* ================================================================== *)

(** A value produced by [JSON.parse] or [JSON5.parse]. An object lists its
    own properties, each key once. Only the truth value of a number is
    ever inspected, so the two non-finite numbers JSON5 accepts are not
    told apart from the finite ones ([NaN] behaves as [0], an infinity as
    any nonzero number). *)
Inductive json : Type :=
| JNull
| JBool (b : bool)
| JNumber (q : Q)
| JString (s : string)
| JArray (items : list json)
| JObject (fields : list (string * json)).

Inductive exn : Type :=
| TypeError (what : string)
| Error (message : string).

Inductive result (A : Type) : Type :=
| Ok (a : A)
| Throw (e : exn).
Arguments Ok {A} a.
Arguments Throw {A} e.

Definition rbind {A B} (r : result A) (k : A -> result B) : result B :=
  match r with Ok a => k a | Throw e => Throw e end.

Module Js.
Import JsString JsObject.

(** [undefined] is [None]. *)
Definition value := option json.

Definition truthy (v : value) : bool :=
  match v with
  | None | Some JNull => false
  | Some (JBool b) => b
  | Some (JNumber q) => negb (Qeq_bool q 0)
  | Some (JString s) => nonempty s
  | Some (JArray _) | Some (JObject _) => true
  end.

Definition nullish (v : value) : bool :=
  match v with None | Some JNull => true | _ => false end.

(** [v.k] on a value that is neither [null] nor [undefined], for a name [k]
    that no built-in prototype defines (every name the code reads is of
    that kind): own fields of an object, [undefined] otherwise. *)
Definition field (v : json) (k : string) : value :=
  match v with
  | JObject fs => own fs k
  | _ => None
  end.

(** [v.k]: reading a property of [null] or [undefined] throws. *)
Definition get (v : value) (k : string) : result value :=
  match v with
  | None => Throw (TypeError ("Cannot read properties of undefined (reading '" ++ k ++ "')"))
  | Some JNull => Throw (TypeError ("Cannot read properties of null (reading '" ++ k ++ "')"))
  | Some x => Ok (field x k)
  end.

(** [v?.k]. *)
Definition opt_get (v : value) (k : string) : value :=
  match v with
  | None | Some JNull => None
  | Some x => field x k
  end.

(** [v === s] for a string [s]. *)
Definition strict_eq_string (v : value) (s : string) : bool :=
  match v with Some (JString t) => String.eqb t s | _ => false end.

(** [v.trim()] on a value that is neither [null] nor [undefined]: only a
    string has the method. *)
Definition call_trim (v : json) : result string :=
  match v with
  | JString s => Ok (trim s)
  | _ => Throw (TypeError "trim is not a function")
  end.

(** [Array.prototype.find] with a predicate that may throw. *)
Fixpoint find {A} (p : A -> result bool) (l : list A) : result (option A) :=
  match l with
  | [] => Ok None
  | x :: r =>
      match p x with
      | Throw e => Throw e
      | Ok true => Ok (Some x)
      | Ok false => find p r
      end
  end.

End Js.

(* ================================================================== *)
(** * keybindings.ts: resolution against given rule sets *)
(* ================================================================== *)

Module Resolve.
Import JsString Js Keybindings.

(** The predicate of [findFirstBindingForCommand]:
    [entry.command === commandId && entry.key && entry.key.trim()]. *)
Definition userRuleMatches (commandId : string) (entry : json) : result bool :=
  rbind (get (Some entry) "command") (fun command =>
  if strict_eq_string command commandId then
    rbind (get (Some entry) "key") (fun key =>
    match key with
    | Some k =>
        if truthy key then rbind (call_trim k) (fun t => Ok (nonempty t))
        else Ok false
    | None => Ok false
    end)
  else Ok false).

Definition findFirstBindingForCommand (entries : list json) (commandId : string)
  : result (option json) :=
  find (userRuleMatches commandId) entries.

(** The predicate of the default look-up: [k.command === commandId]. *)
Definition defaultRuleMatches (commandId : string) (k : json) : result bool :=
  rbind (get (Some k) "command") (fun command =>
  Ok (strict_eq_string command commandId)).

(** Calling [.find] on the value [getDefaultKeybindings] returned. *)
Definition findDefault (contributed : json) (commandId : string) : result (option json) :=
  match contributed with
  | JArray entries => find (defaultRuleMatches commandId) entries
  | _ => Throw (TypeError "contributedKeybindings.find is not a function")
  end.

(** [(userBinding?.key ?? defaultBinding?.key)?.trim()] followed by
    [if (!rawKey) return undefined; return prettyPrintKey(rawKey, platform)]. *)
Definition labelOf (userBinding defaultBinding : option json) (platform : string)
  : result (option string) :=
  let userKey := opt_get userBinding "key" in
  let key := if nullish userKey then opt_get defaultBinding "key" else userKey in
  match key with
  | None | Some JNull => Ok None
  | Some k =>
      rbind (call_trim k) (fun rawKey =>
      if nonempty rawKey then Ok (Some (prettyPrintKey rawKey platform))
      else Ok None)
  end.

(** The body of the [try] block of [getCurrentKeybindingLabel], after the
    user rules have been read. *)
Definition resolveWith (userKeybindings : list json) (contributed : json)
    (commandId platform : string) : result (option string) :=
  rbind (findFirstBindingForCommand userKeybindings commandId) (fun userBinding =>
  rbind (findDefault contributed commandId) (fun defaultBinding =>
  labelOf userBinding defaultBinding platform)).

End Resolve.

(* ================================================================== *)
(** * The host: editor, process and file system *)
(* ================================================================== *)

(** Every awaited call to the outside is answered by the world as it is at
    that moment: the clock counts the calls made so far, and the answer
    may depend on it (a file seen by one [stat] may be gone at the next). *)

Inductive UIKind : Type := Desktop | Web.

Record Dirent : Type := { name : string; isDirectory : bool }.
Record Stats : Type := { isFile : bool; mtimeMs : Q }.

Record World : Type := {
  remoteName : option string;                       (* vscode.env.remoteName *)
  uiKind : UIKind;                                  (* vscode.env.uiKind *)
  appName : option string;                          (* vscode.env.appName *)
  platform : string;                                (* process.platform *)
  env : string -> option string;                    (* process.env *)
  homedir : string;                                 (* os.homedir() *)
  path_join : list string -> string;                (* path.join *)
  readdir : nat -> string -> result (list Dirent);  (* fs.readdir, withFileTypes *)
  stat : nat -> string -> result Stats;             (* fs.stat *)
  readFile : nat -> string -> result string;        (* workspace.fs.readFile, as UTF-8 *)
  JSON5_parse : string -> result json               (* JSON5.parse *)
}.

(** Computations that await the world: clock in, outcome and clock out. *)
Definition IO (A : Type) : Type := nat -> result A * nat.

Definition ret {A} (a : A) : IO A := fun n => (Ok a, n).

Definition bind {A B} (m : IO A) (k : A -> IO B) : IO B :=
  fun n => match m n with
           | (Ok a, n') => k a n'
           | (Throw e, n') => (Throw e, n')
           end.

Definition lift {A} (r : result A) : IO A := fun n => (r, n).

(** [try { body } catch (e) { handler }]. *)
Definition try_catch {A} (body : IO A) (handler : exn -> IO A) : IO A :=
  fun n => match body n with
           | (Ok a, n') => (Ok a, n')
           | (Throw e, n') => handler e n'
           end.

(** One awaited call: the world answers at the current tick. *)
Definition await {A} (call : nat -> result A) : IO A :=
  fun n => (call n, S n).

Declare Scope io_scope.
Delimit Scope io_scope with io.
Notation "x <- m ;; k" := (bind m (fun x => k))
  (at level 61, m at next level, right associativity) : io_scope.

Definition env_truthy (v : option string) : bool :=
  match v with Some s => JsString.nonempty s | None => false end.

(* ================================================================== *)
(** * vscode-config.ts *)
(* ================================================================== *)

Module VscodeConfig.
Import JsString Js.
Local Open Scope io_scope.

Section WithWorld.
Variable w : World.

Definition canReadLocalKeybindings : bool :=
  negb (env_truthy (remoteName w)) &&
  match uiKind w with Desktop => true | Web => false end.

Definition productDirName : string :=
  let name := match appName w with Some s => s | None => "" end in
  let n := toLowerCase name in
  if includes "insiders" n then "Code - Insiders"
  else if includes "visual studio code" n then "Code"
  else if includes "vscodium" n then "VSCodium"
  else if includes "cursor" n then "Cursor"
  else if includes "windsurf" n then "Windsurf"
  else if includes "oss" n then "Code - OSS"
  else "Code".

(** [a || b] on an environment variable and a fall-back path. *)
Definition env_or (v : option string) (fallback : string) : string :=
  match v with
  | Some s => if nonempty s then s else fallback
  | None => fallback
  end.

Definition getUserDataBaseDir : string :=
  let portable := env w "VSCODE_PORTABLE" in
  if env_truthy portable then path_join w [env_or portable ""; "user-data"]
  else
    let home := homedir w in
    let product := productDirName in
    if String.eqb (platform w) "win32" then
      let appdata := env_or (env w "APPDATA") (path_join w [home; "AppData"; "Roaming"]) in
      path_join w [appdata; product]
    else if String.eqb (platform w) "darwin" then
      path_join w [home; "Library"; "Application Support"; product]
    else
      let xdg := env_or (env w "XDG_CONFIG_HOME") (path_join w [home; ".config"]) in
      path_join w [xdg; product].

(** The first loop over the candidates: a [stat] that fails is ignored. *)
Fixpoint filterExisting (candidates : list string) : IO (list string) :=
  match candidates with
  | [] => ret []
  | p :: rest =>
      keep <- try_catch (st <- await (fun n => stat w n p) ;; ret (isFile st))
                        (fun _ => ret false) ;;
      existing <- filterExisting rest ;;
      ret (if keep then p :: existing else existing)
  end.

(** [existing.map(async (p) => ({ path: p, stat: await fs.stat(p) }))]:
    every call is issued, in list order, before any answer is awaited. *)
Fixpoint statEach (paths : list string) (n : nat) : list (result (string * Stats)) * nat :=
  match paths with
  | [] => ([], n)
  | p :: rest =>
      let r := match stat w n p with
               | Ok st => Ok (p, st)
               | Throw e => Throw e
               end in
      let '(rs, n') := statEach rest (S n) in
      (r :: rs, n')
  end.

(** [Promise.all]: all the values, or the first rejection. *)
Fixpoint allOf {A} (rs : list (result A)) : result (list A) :=
  match rs with
  | [] => Ok []
  | Ok a :: rest => rbind (allOf rest) (fun l => Ok (a :: l))
  | Throw e :: _ => Throw e
  end.

Definition statAll (paths : list string) : IO (list (string * Stats)) :=
  fun n => let '(rs, n') := statEach paths n in (allOf rs, n').

(** [stats.sort((a, b) => b.stat.mtimeMs - a.stat.mtimeMs)]: a stable sort,
    most recently modified first. *)
Fixpoint insertByMtime (x : string * Stats) (l : list (string * Stats)) : list (string * Stats) :=
  match l with
  | [] => [x]
  | y :: r =>
      if Qle_bool (mtimeMs (snd y)) (mtimeMs (snd x)) then x :: y :: r
      else y :: insertByMtime x r
  end.

Definition sortByMtime (l : list (string * Stats)) : list (string * Stats) :=
  fold_right insertByMtime [] l.

Definition enumerateProfileKeybindings (userDir : string) : IO (list string) :=
  let first := path_join w [userDir; "keybindings.json"] in
  let profilesDir := path_join w [userDir; "profiles"] in
  candidates <-
    try_catch
      (entries <- await (fun n => readdir w n profilesDir) ;;
       ret (first :: map (fun e => path_join w [profilesDir; name e; "keybindings.json"])
                         (filter isDirectory entries)))
      (fun _ => ret [first]) ;;
  existing <- filterExisting candidates ;;
  if (1 <? List.length existing)%nat then
    stats <- statAll existing ;;
    ret (map fst (sortByMtime stats))
  else ret existing.

Definition isCodeServer : bool :=
  negb (env_truthy (remoteName w)) &&
  (match env w "CODE_SERVER" with Some s => String.eqb s "true" | None => false end
   || env_truthy (env w "VSCODE_PROXY_URI")).

Definition getKeybindingsCandidates : IO (list string) :=
  if isCodeServer then
    let base := path_join w
      [env_or (env w "XDG_DATA_HOME") (path_join w [homedir w; ".local"; "share"]);
       "code-server"] in
    enumerateProfileKeybindings (path_join w [base; "User"])
  else
    enumerateProfileKeybindings (path_join w [getUserDataBaseDir; "User"]).

(** [null] stands for every failure to read or to parse. *)
Definition readJSON5File (filePath : string) : IO json :=
  try_catch
    (text <- await (fun n => readFile w n filePath) ;; lift (JSON5_parse w text))
    (fun _ => ret JNull).

(** The loop of [readUserKeybindings]: the first candidate that parses to
    an array. *)
Fixpoint firstRuleSet (candidates : list string) : IO (list json) :=
  match candidates with
  | [] => ret []
  | filePath :: rest =>
      rules <- readJSON5File filePath ;;
      match rules with
      | JArray items => ret items
      | _ => firstRuleSet rest
      end
  end.

Definition readUserKeybindings : IO (list json) :=
  if negb canReadLocalKeybindings then ret []
  else candidates <- getKeybindingsCandidates ;; firstRuleSet candidates.

Definition getUserKeybindingsDirForDiagnostics : option string :=
  if negb canReadLocalKeybindings then None
  else Some (path_join w [getUserDataBaseDir; "User"]).

End WithWorld.

(** [context.extension.packageJSON]. *)
Record ExtensionContext : Type := { packageJSON : value }.

(** [packageJSON?.contributes?.keybindings || []]. *)
Definition getDefaultKeybindings (context : ExtensionContext) : json :=
  let v := opt_get (opt_get (packageJSON context) "contributes") "keybindings" in
  match v with
  | Some j => if truthy v then j else JArray []
  | None => JArray []
  end.

End VscodeConfig.

(* ================================================================== *)
(** * keybindings.ts: the exported resolvers *)
(* ================================================================== *)

Module Labels.
Import JsString Js Keybindings Resolve VscodeConfig.
Local Open Scope io_scope.

(** A [console.warn] call: the message and the error logged with it. *)
Inductive Diagnostic : Type :=
| Warn (message : string) (error : exn).

(** The [try] block of [getCurrentKeybindingLabel]. *)
Definition resolveLabel (w : World) (commandId : string) (context : ExtensionContext)
  : IO (option string) :=
  userKeybindings <- readUserKeybindings w ;;
  lift (resolveWith userKeybindings (getDefaultKeybindings context) commandId (platform w)).

(** The resolved label ([None] is [undefined]), what was logged, and the
    clock after the call. The function has no way to throw: its whole body
    is one [try] whose [catch] returns [undefined]. *)
Definition getCurrentKeybindingLabel (w : World) (commandId : string)
    (context : ExtensionContext) (n : nat) : option string * list Diagnostic * nat :=
  match resolveLabel w commandId context n with
  | (Ok label, n') => (label, [], n')
  | (Throw e, n') =>
      (None, [Warn ("Failed to get keybinding for command " ++ commandId ++ ":") e], n')
  end.

(** The object built by [getKeybindingLabels]: its own properties, in
    insertion order (command ids are not array indices). *)
Definition LabelRecord : Type := list (string * option string).

Fixpoint overwrite (r : LabelRecord) (k : string) (v : option string) : LabelRecord :=
  match r with
  | [] => []
  | (k', v') :: rest =>
      if String.eqb k k' then (k', v) :: rest else (k', v') :: overwrite rest k v
  end.

(** [result[k] = v] on an object created by [{}], for a [v] that is a string
    or [undefined]. The key ["__proto__"] reaches the accessor inherited
    from [Object.prototype], whose setter ignores such a value: nothing is
    stored. Every other key becomes (or updates) an own property. *)
Definition assign (r : LabelRecord) (k : string) (v : option string) : LabelRecord :=
  if String.eqb k "__proto__" then r
  else if JsObject.has_own r k then overwrite r k v
  else (r ++ [(k, v)])%list.

Fixpoint labelsLoop (w : World) (commandIds : list string) (context : ExtensionContext)
    (result : LabelRecord) (n : nat) : LabelRecord * list Diagnostic * nat :=
  match commandIds with
  | [] => (result, [], n)
  | commandId :: rest =>
      let '(label, log, n') := getCurrentKeybindingLabel w commandId context n in
      let '(result', log', n'') := labelsLoop w rest context (assign result commandId label) n' in
      (result', (log ++ log')%list, n'')
  end.

Definition getKeybindingLabels (w : World) (commandIds : list string)
    (context : ExtensionContext) (n : nat) : LabelRecord * list Diagnostic * nat :=
  labelsLoop w commandIds context [] n.

End Labels.

(* ================================================================== *)
(** * claude-code.ts: configuration, provider detection, model selection *)
(* ================================================================== *)

Module ClaudeCode.
Import JsString JsObject Js.

(** The fields of [ModelInfo] the handler and its tests read; every one is
    optional, so [{}] is [emptyInfo]. *)
Record ModelInfo : Type := {
  maxTokens : option Z;
  contextWindow : option Z;
  supportsImages : option bool;
  supportsPromptCache : option bool;
  inputPrice : option Q;
  outputPrice : option Q;
  cacheWritesPrice : option Q;
  cacheReadsPrice : option Q
}.

Definition emptyInfo : ModelInfo :=
  {| maxTokens := None; contextWindow := None; supportsImages := None;
     supportsPromptCache := None; inputPrice := None; outputPrice := None;
     cacheWritesPrice := None; cacheReadsPrice := None |}.

Definition setMaxTokens (i : ModelInfo) (m : Z) : ModelInfo :=
  {| maxTokens := Some m; contextWindow := contextWindow i;
     supportsImages := supportsImages i; supportsPromptCache := supportsPromptCache i;
     inputPrice := inputPrice i; outputPrice := outputPrice i;
     cacheWritesPrice := cacheWritesPrice i; cacheReadsPrice := cacheReadsPrice i |}.

Definition ModelTable : Type := list (string * ModelInfo).

(** The constants imported from [@roo-code/types]: the model tables and the
    default model id. They are data of another package and stay
    parameters. *)
Record ModelTables : Type := {
  claudeCodeModels : ModelTable;
  claudeCodeDefaultModelId : string;
  internationalZAiModels : ModelTable;
  qwenCodeModels : ModelTable;
  deepSeekModels : ModelTable
}.

Record ApiHandlerOptions : Type := {
  apiModelId : option string;
  claudeCodePath : option string;
  claudeCodeMaxOutputTokens : option Z
}.

(** The two cache fields of a handler; [cachedConfig] starts as [null]. *)
Record Handler : Type := {
  options : ApiHandlerOptions;
  cachedConfig : json;
  cachedModelInfo : option (value * ModelInfo)
}.

Definition newHandler (o : ApiHandlerOptions) : Handler :=
  {| options := o; cachedConfig := JNull; cachedModelInfo := None |}.

(** What the handler reaches outside itself. *)
Record Host : Type := {
  os_homedir : string;
  process_cwd : string;
  join : list string -> string;                      (* path.join *)
  fs_readFile : nat -> string -> result string;      (* fs.readFile(path, "utf8") *)
  JSON_parse : string -> result json;
  toPropertyKey : json -> string;                    (* a non-string value used as a key *)
  t : string -> string;                              (* i18n *)
  process_env : string -> option string              (* process.env *)
}.

Section WithTables.
Variable T : ModelTables.
Variable host : Host.

(** [{ ...table[k] }]: a copy of the entry; spreading [undefined], or a
    member inherited from [Object.prototype], gives [{}]. *)
Definition spread (table : ModelTable) (k : string) : ModelInfo :=
  match own table k with Some i => i | None => emptyInfo end.

Definition withMaxTokens (o : ApiHandlerOptions) (i : ModelInfo) : ModelInfo :=
  match claudeCodeMaxOutputTokens o with
  | Some m => setMaxTokens i m
  | None => i
  end.

Definition defaultModel (o : ApiHandlerOptions) : value * ModelInfo :=
  (Some (JString (claudeCodeDefaultModelId T)),
   withMaxTokens o (spread (claudeCodeModels T) (claudeCodeDefaultModelId T))).

Definition getModel (h : Handler) : value * ModelInfo :=
  match cachedModelInfo h with
  | Some m => m
  | None => defaultModel (options h)
  end.

Definition possibleConfigPaths : list string :=
  let homeDir := os_homedir host in
  let currentDir := process_cwd host in
  [ join host [homeDir; ".claude"; "settings.json"];
    join host [homeDir; ".claude"; "settings.local.json"];
    join host [currentDir; ".claude"; "settings.json"];
    join host [currentDir; ".claude"; "settings.local.json"];
    join host [homeDir; ".claude.json"] ].

Definition setCachedConfig (h : Handler) (config : json) : Handler :=
  {| options := options h; cachedConfig := config; cachedModelInfo := cachedModelInfo h |}.

Definition setCachedModelInfo (h : Handler) (m : value * ModelInfo) : Handler :=
  {| options := options h; cachedConfig := cachedConfig h; cachedModelInfo := Some m |}.

(** The loop over the candidate paths: the first file that reads and parses
    is cached and returned; [null] when none does. *)
Fixpoint firstConfig (paths : list string) (h : Handler) (n : nat) : json * Handler * nat :=
  match paths with
  | [] => (JNull, h, n)
  | configPath :: rest =>
      match rbind (fs_readFile host n configPath) (JSON_parse host) with
      | Ok config => (config, setCachedConfig h config, S n)
      | Throw _ => firstConfig rest h (S n)
      end
  end.

Definition readClaudeCodeConfig (h : Handler) (n : nat) : json * Handler * nat :=
  if truthy (Some (cachedConfig h)) then (cachedConfig h, h, n)
  else firstConfig possibleConfigPaths h n.

(** [v.includes(s)] for a truthy [v]: a string tests for a substring, an
    array for an element, nothing else has the method. *)
Definition call_includes (v : json) (s : string) : result bool :=
  match v with
  | JString u => Ok (includes s u)
  | JArray items => Ok (existsb (fun x => strict_eq_string (Some x) s) items)
  | _ => Throw (TypeError "includes is not a function")
  end.

(** [a || b] on two tests that may throw. *)
Definition orElse (a : result bool) (b : result bool) : result bool :=
  rbind a (fun x => if x then Ok true else b).

(** [const { "glm-4.5-flash": _, ...filteredModels } = internationalZAiModels]. *)
Definition filteredModels : ModelTable :=
  filter (fun e => negb (String.eqb (fst e) "glm-4.5-flash")) (internationalZAiModels T).

Definition ProviderInfo : Type := (string * ModelTable)%type.

(** [detectProviderFromConfig] once the configuration has been read. *)
Definition detectProviderIn (config : json) : result (option ProviderInfo) :=
  if negb (truthy (Some config)) then Ok None
  else if negb (truthy (field config "env")) then Ok None
  else
    let baseUrl := opt_get (field config "env") "ANTHROPIC_BASE_URL" in
    match baseUrl with
    | None => Ok None
    | Some url =>
        if negb (truthy baseUrl) then Ok None
        else
          rbind (call_includes url "z.ai") (fun zai =>
          if zai then Ok (Some ("zai", filteredModels))
          else
            rbind (orElse (call_includes url "dashscope.aliyuncs.com")
                          (call_includes url "aliyuncs.com")) (fun qwen =>
            if qwen then Ok (Some ("qwen-code", qwenCodeModels T))
            else
              rbind (orElse (call_includes url "deepseek.com")
                            (call_includes url "api.deepseek.com")) (fun deepseek =>
              if deepseek then Ok (Some ("deepseek", deepSeekModels T))
              else Ok None)))
    end.

Definition detectProviderFromConfig (h : Handler) (n : nat)
  : result (option ProviderInfo) * Handler * nat :=
  let '(config, h', n') := readClaudeCodeConfig h n in
  (detectProviderIn config, h', n').


(** [Object.keys(models)[0]]. *)
Definition firstKey (models : ModelTable) : value :=
  match keys models with
  | [] => None
  | k :: _ => Some (JString k)
  end.

(** The string a value stands for when it is used as a property key. *)
Definition propertyKey (v : value) : string :=
  match v with
  | None => "undefined"
  | Some (JString s) => s
  | Some j => toPropertyKey host j
  end.

Definition apiModelIdOr (o : ApiHandlerOptions) (fallback : value) : value :=
  match apiModelId o with
  | Some s => if nonempty s then Some (JString s) else fallback
  | None => fallback
  end.

(** The branch of [initializeModelDetection] for a detected provider. *)
Definition selectProviderModel (o : ApiHandlerOptions) (config : json) (models : ModelTable)
  : value * ModelInfo :=
  let configured := opt_get (opt_get (Some config) "env") "ANTHROPIC_MODEL" in
  let configModelId := if truthy configured then configured else firstKey models in
  let finalModelId := apiModelIdOr o configModelId in
  let validModelId :=
    if js_in (propertyKey finalModelId) models then finalModelId else firstKey models in
  (validModelId, withMaxTokens o (spread models (propertyKey validModelId))).

(** The branch for the standard Claude models. *)
Definition selectClaudeModel (o : ApiHandlerOptions) : value * ModelInfo :=
  let modelId :=
    match apiModelId o with
    | Some s => if nonempty s then s else claudeCodeDefaultModelId T
    | None => claudeCodeDefaultModelId T
    end in
  if js_in modelId (claudeCodeModels T) then
    (Some (JString modelId), withMaxTokens o (spread (claudeCodeModels T) modelId))
  else defaultModel o.

(** [initializeModelDetection]: started by the constructor and completed
    later; any error inside selects the default model. *)
Definition initializeModelDetection (h : Handler) (n : nat) : Handler * nat :=
  let '(detected, h1, n1) := detectProviderFromConfig h n in
  match detected with
  | Ok (Some (_, models)) =>
      let '(config, h2, n2) := readClaudeCodeConfig h1 n1 in
      (setCachedModelInfo h2 (selectProviderModel (options h2) config models), n2)
  | Ok None => (setCachedModelInfo h1 (selectClaudeModel (options h1)), n1)
  | Throw _ => (setCachedModelInfo h1 (defaultModel (options h1)), n1)
  end.

(* ------------------------------------------------------------------ *)
(** ** createMessage: the translation of the CLI's stream *)

Inductive ContentBlock : Type :=
| TextBlock (text : string)
| ThinkingBlock (thinking : option string)
| RedactedThinkingBlock
| ToolUseBlock (rendering : string)        (* JSON.stringify of the block *)
| OtherBlock.                              (* any other block type; it has no text *)

Record MessageUsage : Type := {
  input_tokens : Z;
  output_tokens : Z;
  cache_read_input_tokens : option Z;
  cache_creation_input_tokens : option Z
}.

Record AssistantMessage : Type := {
  stop_reason : option string;             (* None is null *)
  content : list ContentBlock;
  usage : MessageUsage
}.

(** What [runClaudeCode] yields before it completes. [ResultMessage]
    carries whether the chunk has a [result] property; [OtherMessage] is
    every shape the loop lets pass. *)
Inductive ClaudeCodeMessage : Type :=
| RawText (chunk : string)
| SystemInit (apiKeySource : string)
| Assistant (message : AssistantMessage)
| ResultMessage (result : option string) (total_cost_usd : Q)
| OtherMessage.

(** The usage object of one call. [totalCost] is absent until a result
    chunk sets it. *)
Record ApiStreamUsageChunk : Type := {
  inputTokens : Z;
  outputTokens : Z;
  cacheReadTokens : Z;
  cacheWriteTokens : Z;
  totalCost : option Q
}.

Inductive ApiStreamChunk : Type :=
| TextChunk (text : string)
| ReasoningChunk (text : string)
| UsageChunk (u : ApiStreamUsageChunk).

(** The locals of the loop. *)
Record LoopState : Type := {
  usageSoFar : ApiStreamUsageChunk;
  isPaidUsage : bool
}.

Definition initialUsage : ApiStreamUsageChunk :=
  {| inputTokens := 0; outputTokens := 0; cacheReadTokens := 0;
     cacheWriteTokens := 0; totalCost := None |}.

Definition initialState : LoopState :=
  {| usageSoFar := initialUsage; isPaidUsage := true |}.

(** [x || 0] on an optional counter. *)
Definition orZero (x : option Z) : Z :=
  match x with Some z => z | None => 0%Z end.

(** The four additions made for an assistant message. Counts are
    integers and are added exactly, as the code's numbers are while the
    sums stay within 2^53. *)
Definition addUsage (u : ApiStreamUsageChunk) (m : MessageUsage) : ApiStreamUsageChunk :=
  {| inputTokens := inputTokens u + input_tokens m;
     outputTokens := outputTokens u + output_tokens m;
     cacheReadTokens := cacheReadTokens u + orZero (cache_read_input_tokens m);
     cacheWriteTokens := cacheWriteTokens u + orZero (cache_creation_input_tokens m);
     totalCost := totalCost u |}.

Definition setTotalCost (u : ApiStreamUsageChunk) (c : Q) : ApiStreamUsageChunk :=
  {| inputTokens := inputTokens u; outputTokens := outputTokens u;
     cacheReadTokens := cacheReadTokens u; cacheWriteTokens := cacheWriteTokens u;
     totalCost := Some c |}.

Definition newline : string := String (ascii_of_nat 10) EmptyString.

Definition hintKey : string := "common:errors.claudeCode.apiKeyModelPlanMismatch".

(** [attemptParse]: the parsed value, or [null]. *)
Definition attemptParse (str : string) : json :=
  match JSON_parse host str with Ok j => j | Throw _ => JNull end.

(** [error.error.message.includes("Invalid model name")] for a truthy
    [error]. *)
Definition mentionsInvalidModel (error : json) : result bool :=
  rbind (get (field error "error") "message") (fun message =>
  match message with
  | Some m =>
      if nullish message then Throw (TypeError "Cannot read properties of null (reading 'includes')")
      else call_includes m "Invalid model name"
  | None => Throw (TypeError "Cannot read properties of undefined (reading 'includes')")
  end).

(** The error check made on an assistant message whose [stop_reason] is
    not [null]: [None] when the message passes, the exception otherwise. *)
Definition apiError (message : AssistantMessage) : option exn :=
  match stop_reason message with
  | None => None
  | Some _ =>
      match content message with
      | [] => Some (TypeError "Cannot use 'in' operator to search for 'text' in undefined")
      | TextBlock text :: _ =>
          if startsWith "API Error" text then
            let errorMessageStart := indexOf "{"%char text in
            let errorMessage := slice errorMessageStart text in
            let error := attemptParse errorMessage in
            if negb (truthy (Some error)) then Some (Error text)
            else match mentionsInvalidModel error with
                 | Throw e => Some e
                 | Ok true => Some (Error (text ++ newline ++ newline ++ t host hintKey))
                 | Ok false => Some (Error errorMessage)
                 end
          else None
      | _ :: _ => None
      end
  end.

(** The [switch] over one content block: what is yielded, what is logged. *)
Definition translateBlock (block : ContentBlock) : list ApiStreamChunk * list string :=
  match block with
  | TextBlock text => ([TextChunk text], [])
  | ThinkingBlock thinking =>
      ([ReasoningChunk (match thinking with
                        | Some s => if nonempty s then s else ""
                        | None => ""
                        end)], [])
  | RedactedThinkingBlock => ([ReasoningChunk "[Redacted thinking block]"], [])
  | ToolUseBlock rendering =>
      ([], ["tool_use is not supported yet. Received: " ++ rendering])
  | OtherBlock => ([], [])
  end.

Fixpoint translateBlocks (blocks : list ContentBlock) : list ApiStreamChunk * list string :=
  match blocks with
  | [] => ([], [])
  | b :: rest =>
      let '(ys, ls) := translateBlock b in
      let '(ys', ls') := translateBlocks rest in
      ((ys ++ ys')%list, (ls ++ ls')%list)
  end.

(** One turn of the [for await] loop: the chunks yielded, the lines sent
    to [console.error] and the new locals, or the exception thrown. A
    yielded usage chunk is recorded as the usage object reads at that
    moment. *)
Definition step (st : LoopState) (chunk : ClaudeCodeMessage)
  : result (list ApiStreamChunk * list string * LoopState) :=
  match chunk with
  | RawText text => Ok ([TextChunk text], [], st)
  | SystemInit apiKeySource =>
      Ok ([], [], {| usageSoFar := usageSoFar st;
                     isPaidUsage := negb (String.eqb apiKeySource "none") |})
  | Assistant message =>
      match apiError message with
      | Some e => Throw e
      | None =>
          let '(ys, ls) := translateBlocks (content message) in
          Ok (ys, ls, {| usageSoFar := addUsage (usageSoFar st) (usage message);
                         isPaidUsage := isPaidUsage st |})
      end
  | ResultMessage (Some _) total_cost_usd =>
      let u := setTotalCost (usageSoFar st)
                 (if isPaidUsage st then total_cost_usd else 0%Q) in
      Ok ([UsageChunk u], [], {| usageSoFar := u; isPaidUsage := isPaidUsage st |})
  | ResultMessage None _ => Ok ([], [], st)
  | OtherMessage => Ok ([], [], st)
  end.

(** How the generator ends: it returns, or the pull that met the error
    rejects. *)
Inductive Completion : Type :=
| Done
| Rejected (e : exn).

Record Run : Type := {
  yielded : list ApiStreamChunk;
  logged : list string;
  final : LoopState;
  completion : Completion
}.

Fixpoint loop (st : LoopState) (claudeProcess : list ClaudeCodeMessage) : Run :=
  match claudeProcess with
  | [] => {| yielded := []; logged := []; final := st; completion := Done |}
  | chunk :: rest =>
      match step st chunk with
      | Throw e => {| yielded := []; logged := []; final := st; completion := Rejected e |}
      | Ok (ys, ls, st') =>
          let r := loop st' rest in
          {| yielded := (ys ++ yielded r)%list; logged := (ls ++ logged r)%list;
             final := final r; completion := completion r |}
      end
  end.

(** The arguments handed to [runClaudeCode]; [M] is the type of a chat
    message ([Anthropic.Messages.MessageParam]). *)
Record RunOptions (M : Type) : Type := {
  systemPrompt : string;
  messages : list M;
  path : option string;
  modelId : value;
  maxOutputTokens : option Z;
  envVars : json
}.

(** What the handler imports from the rest of the extension. *)
Record Integrations (M : Type) : Type := {
  filterMessagesForClaudeCode : list M -> list M;
  getClaudeCodeModelId : value -> bool -> value;
  runClaudeCode : RunOptions M -> list ClaudeCodeMessage
}.

(** [baseUrl && (baseUrl.includes("z.ai") || ...)] as a truth value. *)
Definition isAlternativeProvider (baseUrl : value) : result bool :=
  match baseUrl with
  | None => Ok false
  | Some url =>
      if truthy baseUrl then
        orElse (call_includes url "z.ai")
       (orElse (call_includes url "dashscope.aliyuncs.com")
       (orElse (call_includes url "aliyuncs.com")
       (orElse (call_includes url "deepseek.com")
               (call_includes url "api.deepseek.com"))))
      else Ok false
  end.

Definition orDefaultId (id : value) : value :=
  if js_in (propertyKey id) (claudeCodeModels T) then id
  else Some (JString (claudeCodeDefaultModelId T)).

(** The first statements of [createMessage], up to
    [const claudeProcess = runClaudeCode({ ... })]: the stream the loop
    will consume, or the exception of the test on a base URL that is
    neither a string nor an array. *)
Definition claudeProcess {M : Type} (I : Integrations M) (h : Handler) (n : nat)
    (prompt : string) (chat : list M) : result (list ClaudeCodeMessage) * Handler * nat :=
  let filteredMessages := filterMessagesForClaudeCode M I chat in
  let useVertex :=
    match process_env host "CLAUDE_CODE_USE_VERTEX" with
    | Some v => String.eqb v "1"
    | None => false
    end in
  let model := getModel h in
  let '(config, h', n') := readClaudeCodeConfig h n in
  let env := opt_get (Some config) "env" in
  let vars := match env with
              | Some e => if truthy env then e else JObject []
              | None => JObject []
              end in
  let baseUrl := opt_get env "ANTHROPIC_BASE_URL" in
  (rbind (isAlternativeProvider baseUrl) (fun alternative =>
     let modelIdForClaudeCode :=
       if alternative then
         let configured := field vars "ANTHROPIC_MODEL" in
         if truthy configured then configured else fst model
       else
         getClaudeCodeModelId M I (orDefaultId (orDefaultId (fst model))) useVertex in
     Ok (runClaudeCode M I
           {| systemPrompt := prompt; messages := filteredMessages;
              path := claudeCodePath (options h); modelId := modelIdForClaudeCode;
              maxOutputTokens := claudeCodeMaxOutputTokens (options h);
              envVars := vars |})),
   h', n').

(** The rest of [createMessage]: the [for await] loop over the stream
    [claudeProcess], started with the fresh usage object and
    [isPaidUsage = true]. *)
Definition createMessage (claudeProcess : list ClaudeCodeMessage) : Run :=
  loop initialState claudeProcess.



(** What a consumer holds after draining the generator into an array, as
    the tests do: every usage chunk is the one usage object, so it reads
    as that object was left. *)
Definition collected (r : Run) : list ApiStreamChunk :=
  map (fun c => match c with
                | UsageChunk _ => UsageChunk (usageSoFar (final r))
                | other => other
                end) (yielded r).

Definition isUsageChunk (c : ApiStreamChunk) : bool :=
  match c with UsageChunk _ => true | _ => false end.

End WithTables.
End ClaudeCode.

(* ================================================================== *)
(** * Vocabulary of the statements *)
(* ================================================================== *)

Module Spec.
Import JsString JsObject Js ClaudeCode.

(** A rule as [KeybindingEntry] types it: an object whose [key] and
    [command], when present, are strings. *)
Definition stringOrAbsent (v : value) : bool :=
  match v with None | Some (JString _) => true | _ => false end.

Definition isEntry (j : json) : bool :=
  match j with
  | JObject fs => stringOrAbsent (own fs "key") && stringOrAbsent (own fs "command")
  | _ => false
  end.

Definition entryCommand (j : json) : option string :=
  match field j "command" with Some (JString s) => Some s | _ => None end.

Definition entryKey (j : json) : option string :=
  match field j "key" with Some (JString s) => Some s | _ => None end.

(** A user rule overrides a command when its command is that id and its key
    is not empty once trimmed. *)
Definition overrides (commandId : string) (j : json) : bool :=
  match entryCommand j, entryKey j with
  | Some c, Some k => String.eqb c commandId && nonempty (trim k)
  | _, _ => false
  end.

(** A default entry declares a command when its command is that id. *)
Definition declares (commandId : string) (j : json) : bool :=
  match entryCommand j with
  | Some c => String.eqb c commandId
  | None => false
  end.

(** The label made of an entry's key, if the key is not empty once
    trimmed. *)
Definition labelOfKey (platform : string) (j : json) : option string :=
  match entryKey j with
  | Some k => if nonempty (trim k) then Some (Keybindings.prettyPrintKey (trim k) platform)
              else None
  | None => None
  end.

(** A world whose [stat] answers do not change over time. *)
Definition stableStat (w : World) : Prop :=
  forall n m p, stat w n p = stat w m p.

(** Sums over the assistant messages of a stream. *)
Fixpoint sumOver (f : MessageUsage -> Z) (s : list ClaudeCodeMessage) : Z :=
  match s with
  | [] => 0%Z
  | Assistant m :: rest => (f (usage m) + sumOver f rest)%Z
  | _ :: rest => sumOver f rest
  end.

(** The usage object as a result chunk leaves it, after the messages
    [before]: the counters summed, and the cost the paid flag allows. *)
Definition usageAtResult (before : list ClaudeCodeMessage) (apiKeySource : string)
    (cost : Q) : ApiStreamUsageChunk :=
  {| inputTokens := sumOver input_tokens before;
     outputTokens := sumOver output_tokens before;
     cacheReadTokens := sumOver (fun m => orZero (cache_read_input_tokens m)) before;
     cacheWriteTokens := sumOver (fun m => orZero (cache_creation_input_tokens m)) before;
     totalCost := Some (if String.eqb apiKeySource "none" then 0%Q else cost) |}.

Definition isSystemInit (c : ClaudeCodeMessage) : bool :=
  match c with SystemInit _ => true | _ => false end.

Definition isTerminalResult (c : ClaudeCodeMessage) : bool :=
  match c with ResultMessage (Some _) _ => true | _ => false end.

(** Text made of ASCII characters only. *)
Fixpoint isAscii (s : string) : bool :=
  match s with
  | EmptyString => true
  | String c t => (nat_of_ascii c <? 128)%nat && isAscii t
  end.

(** A string made of space characters only (the empty string included). *)
Fixpoint onlySpaces (s : string) : bool :=
  match s with
  | EmptyString => true
  | String c t => Ascii.eqb c " "%char && onlySpaces t
  end.

(** A host whose file system answers the same at every moment. *)
Definition quiet (w : World) : Prop :=
  forall n m p,
    readdir w n p = readdir w m p /\ stat w n p = stat w m p /\
    readFile w n p = readFile w m p.

(** The modification time [stat] reports for a path (0 when it fails). *)
Definition mtimeOf (w : World) (p : string) : Q :=
  match stat w 0%nat p with
  | Ok st => mtimeMs st
  | Throw _ => 0%Q
  end.

(** The order the comparator of [stats.sort] asks for: most recently
    modified first. *)
Definition newerFirst (a b : string * Stats) : Prop :=
  (mtimeMs (snd b) <= mtimeMs (snd a))%Q.

(** The same order on paths, by the time [stat] reports for each. *)
Definition newerPathFirst (w : World) (p q : string) : Prop :=
  (mtimeOf w q <= mtimeOf w p)%Q.

(** A path that some [stat] call reported as a regular file. *)
Definition seenAsFile (w : World) (p : string) : Prop :=
  exists m st, stat w m p = Ok st /\ isFile st = true.

(** A computation whose outcome does not depend on when it starts. *)
Definition clockFree {A} (c : IO A) : Prop :=
  forall n m, fst (c n) = fst (c m).

Definition isToolUse (b : ContentBlock) : bool :=
  match b with ToolUseBlock _ => true | _ => false end.

(** A block that the adapter translates into a chunk. *)
Definition isTranslated (b : ContentBlock) : bool :=
  match b with
  | TextBlock _ | ThinkingBlock _ | RedactedThinkingBlock => true
  | ToolUseBlock _ | OtherBlock => false
  end.

(** One attempt to load a settings file: read at tick [n], then parse. *)
Definition loadAt (host : Host) (n : nat) (configPath : string) : result json :=
  rbind (fs_readFile host n configPath) (JSON_parse host).

Definition succeeded {A} (r : result A) : bool :=
  match r with Ok _ => true | Throw _ => false end.

Definition detected {A} (r : result (option A)) : result bool :=
  rbind r (fun o => Ok match o with Some _ => true | None => false end).

(** [process.env.CLAUDE_CODE_USE_VERTEX === "1"]. *)
Definition vertexRequested (host : Host) : bool :=
  match process_env host "CLAUDE_CODE_USE_VERTEX" with
  | Some v => String.eqb v "1"
  | None => false
  end.

(** What the manifest holds at [contributes.keybindings]. *)
Definition manifestKeybindings (context : VscodeConfig.ExtensionContext) : value :=
  opt_get (opt_get (VscodeConfig.packageJSON context) "contributes") "keybindings".

(** The extension declares the default entries [defaults]: its manifest
    holds that array, or holds nothing there (a falsy value or none) and
    [defaults] is empty. *)
Definition declaresDefaults (context : VscodeConfig.ExtensionContext)
    (defaults : list json) : Prop :=
  manifestKeybindings context = Some (JArray defaults) \/
  (truthy (manifestKeybindings context) = false /\ defaults = []).

(** Counts that JavaScript numbers add without rounding: integers whose
    absolute values sum to at most 2^53, so that every partial sum is an
    integer a double holds exactly. *)
Definition withinSafeIntegers (f : MessageUsage -> Z) (s : list ClaudeCodeMessage) : Prop :=
  (sumOver (fun m => Z.abs (f m)) s <= 2 ^ 53)%Z.

Definition countersAreExact (s : list ClaudeCodeMessage) : Prop :=
  withinSafeIntegers input_tokens s /\
  withinSafeIntegers output_tokens s /\
  withinSafeIntegers (fun m => orZero (cache_read_input_tokens m)) s /\
  withinSafeIntegers (fun m => orZero (cache_creation_input_tokens m)) s.

(** The [User] directory in which [readUserKeybindings] looks for
    keybindings files: the one of code-server, or the one of the product
    on this platform. *)
Definition searchedUserDir (w : World) : string :=
  if VscodeConfig.isCodeServer w then
    path_join w
      [path_join w
         [VscodeConfig.env_or (env w "XDG_DATA_HOME")
            (path_join w [homedir w; ".local"; "share"]);
          "code-server"];
       "User"]
  else path_join w [VscodeConfig.getUserDataBaseDir w; "User"].

(** [p] is a keybindings file of the user directory [userDir]: its
    top-level [keybindings.json], or the [keybindings.json] of a profile
    that [readdir] listed as a directory under [profiles]. *)
Definition keybindingsFileOf (w : World) (userDir p : string) : Prop :=
  p = path_join w [userDir; "keybindings.json"] \/
  exists m entries e,
    readdir w m (path_join w [userDir; "profiles"]) = Ok entries /\
    In e entries /\ isDirectory e = true /\
    p = path_join w [path_join w [userDir; "profiles"]; name e; "keybindings.json"].

(** The content blocks of the assistant messages of a stream, in order. *)
Fixpoint blocksOf (s : list ClaudeCodeMessage) : list ContentBlock :=
  match s with
  | [] => []
  | Assistant m :: rest => (content m ++ blocksOf rest)%list
  | _ :: rest => blocksOf rest
  end.

(** The renderings of the [tool_use] blocks among [blocks], in order. *)
Fixpoint toolUses (blocks : list ContentBlock) : list string :=
  match blocks with
  | [] => []
  | ToolUseBlock rendering :: rest => rendering :: toolUses rest
  | _ :: rest => toolUses rest
  end.

Definition isRawText (c : ClaudeCodeMessage) : bool :=
  match c with RawText _ => true | _ => false end.


(** The usage object after the messages [before] and a result chunk that
    is charged [cost]. *)
Definition usageWithCost (before : list ClaudeCodeMessage) (cost : Q) : ApiStreamUsageChunk :=
  {| inputTokens := sumOver input_tokens before;
     outputTokens := sumOver output_tokens before;
     cacheReadTokens := sumOver (fun m => orZero (cache_read_input_tokens m)) before;
     cacheWriteTokens := sumOver (fun m => orZero (cache_creation_input_tokens m)) before;
     totalCost := Some cost |}.

End Spec.

(* ================================================================== *)
(** * Concrete inputs *)
(* ================================================================== *)

Module Samples.
Import Js VscodeConfig ClaudeCode.

Definition quote : string := String (ascii_of_nat 34) EmptyString.

Definition commandX : string := "kilo-code.ghost.promptCodeSuggestion".

Definition rule (key command : string) : json :=
  JObject [("key", JString key); ("command", JString command)].

(** The extension context of the keybinding tests. *)
Definition context : ExtensionContext :=
  {| packageJSON := Some (JObject [("contributes", JObject [("keybindings",
       JArray [ rule "cmd+i" commandX;
                rule "ctrl+shift+g" "kilo-code.ghost.generateSuggestions" ])])]) |}.

(** A desktop Linux host with one profile directory, on which every
    keybindings file exists and parses to [rules]. *)
Definition desktop (rules : json) : World :=
  {| remoteName := None; uiKind := Desktop; appName := Some "Visual Studio Code";
     platform := "linux"; env := fun _ => None; homedir := "/home/user";
     path_join := String.concat "/";
     readdir := fun _ _ => Ok [{| name := "profile1"; isDirectory := true |}];
     stat := fun _ _ => Ok {| isFile := true; mtimeMs := 1000 # 1 |};
     readFile := fun _ _ => Ok "[]";
     JSON5_parse := fun _ => Ok rules |}.

(** The same host, except that the files found by the first pass of
    [stat] calls (ticks 1 and 2, after the [readdir] of tick 0) are gone
    when the second pass asks for their modification times. *)
Definition vanishing : World :=
  {| remoteName := None; uiKind := Desktop; appName := Some "Visual Studio Code";
     platform := "linux"; env := fun _ => None; homedir := "/home/user";
     path_join := String.concat "/";
     readdir := fun _ _ => Ok [{| name := "profile1"; isDirectory := true |}];
     stat := fun n _ => if (n <? 3)%nat then Ok {| isFile := true; mtimeMs := 1000 # 1 |}
                        else Throw (Error "ENOENT: no such file or directory");
     readFile := fun _ _ => Ok "[]";
     JSON5_parse := fun _ => Ok (JArray []) |}.

(** A desktop Linux host with two profiles: the top-level file was
    modified at 1000, the file of profile [p1] at 3000, that of profile
    [p2] at 2000; only the file of [p2] parses to an array, [rules]. *)
Definition userDir : string := "/home/user/.config/Code/User".
Definition mainFile : string := "/home/user/.config/Code/User/keybindings.json".
Definition p1File : string := "/home/user/.config/Code/User/profiles/p1/keybindings.json".
Definition p2File : string := "/home/user/.config/Code/User/profiles/p2/keybindings.json".

Definition profiles (rules : list json) : World :=
  {| remoteName := None; uiKind := Desktop; appName := Some "Visual Studio Code";
     platform := "linux"; env := fun _ => None; homedir := "/home/user";
     path_join := String.concat "/";
     readdir := fun _ _ => Ok [ {| name := "p1"; isDirectory := true |};
                                {| name := "notes.txt"; isDirectory := false |};
                                {| name := "p2"; isDirectory := true |} ];
     stat := fun _ p =>
       if String.eqb p mainFile then Ok {| isFile := true; mtimeMs := 1000 # 1 |}
       else if String.eqb p p1File then Ok {| isFile := true; mtimeMs := 3000 # 1 |}
       else if String.eqb p p2File then Ok {| isFile := true; mtimeMs := 2000 # 1 |}
       else Throw (Error "ENOENT: no such file or directory");
     readFile := fun _ p => Ok p;
     JSON5_parse := fun text =>
       if String.eqb text p2File then Ok (JArray rules)
       else if String.eqb text mainFile then Ok (JObject [])
       else Throw (Error "JSON5: invalid character") |}.


(** Model tables with the entries the handler's tests name, each with the
    fields those tests check. *)
Definition sonnet4 : ModelInfo :=
  {| maxTokens := Some 64000%Z; contextWindow := None;
     supportsImages := None; supportsPromptCache := None;
     inputPrice := Some (3 # 1); outputPrice := None;
     cacheWritesPrice := None; cacheReadsPrice := None |}.

Definition sonnet35 : ModelInfo :=
  {| maxTokens := None; contextWindow := None;
     supportsImages := Some false; supportsPromptCache := Some true;
     inputPrice := None; outputPrice := None;
     cacheWritesPrice := None; cacheReadsPrice := None |}.

Definition glm45 : ModelInfo :=
  {| maxTokens := None; contextWindow := None;
     supportsImages := None; supportsPromptCache := None;
     inputPrice := Some (6 # 10); outputPrice := Some (22 # 10);
     cacheWritesPrice := None; cacheReadsPrice := None |}.

Definition tables : ModelTables :=
  {| claudeCodeModels := [ ("claude-sonnet-4-20250514", sonnet4);
                           ("claude-3-5-sonnet-20241022", sonnet35) ];
     claudeCodeDefaultModelId := "claude-sonnet-4-20250514";
     internationalZAiModels := [ ("glm-4.5", glm45); ("glm-4.5-flash", emptyInfo) ];
     qwenCodeModels := [ ("qwen3-coder-plus", emptyInfo) ];
     deepSeekModels := [ ("deepseek-chat", emptyInfo) ] |}.

(** The error payload of the handler's API-error test. *)
Definition invalidModelPayload : string :=
  "{" ++ quote ++ "error" ++ quote ++ ":{" ++ quote ++ "message" ++ quote ++ ":"
      ++ quote ++ "Invalid model name" ++ quote ++ "}}".

Definition invalidModelError : json :=
  JObject [("error", JObject [("message", JString "Invalid model name")])].

(** A host whose settings file, wherever it is read, holds [settings];
    its [JSON.parse] knows that file and the error payload above. *)
Definition hostWith (settings : json) : Host :=
  {| os_homedir := "/home/user"; process_cwd := "/work";
     join := String.concat "/";
     fs_readFile := fun _ _ => Ok "settings";
     JSON_parse := fun s =>
       if String.eqb s "settings" then Ok settings
       else if String.eqb s invalidModelPayload then Ok invalidModelError
       else Throw (Error "SyntaxError");
     toPropertyKey := fun _ => "[object Object]";
     t := fun _ => "Check that the model matches your plan.";
     process_env := fun _ => None |}.

(** The settings of the test without an [env] section. *)
Definition noEnvSettings : json := JObject [("someOtherSetting", JString "value")].

Definition settingsWithBaseUrl (url : string) : json :=
  JObject [("env", JObject [("ANTHROPIC_BASE_URL", JString url)])].

Definition textMessage (text : string) (stop : option string) (u : MessageUsage)
  : AssistantMessage :=
  {| stop_reason := stop; content := [TextBlock text]; usage := u |}.

Definition usage4 (i o r c : Z) : MessageUsage :=
  {| input_tokens := i; output_tokens := o;
     cache_read_input_tokens := Some r; cache_creation_input_tokens := Some c |}.

Definition usage2 (i o : Z) : MessageUsage :=
  {| input_tokens := i; output_tokens := o;
     cache_read_input_tokens := None; cache_creation_input_tokens := None |}.

(** The stream of the test in which the result chunk is missing. *)
Definition streamWithoutResult : list ClaudeCodeMessage :=
  [ SystemInit "/login managed key";
    Assistant (textMessage "Hello there!" None (usage4 10 20 5 3)) ].

Definition apiErrorText : string := "API Error: 400 " ++ invalidModelPayload.

(** A host on which only the project's [.claude/settings.json] exists;
    it holds [settings]. *)
Definition projectHost (settings : json) : Host :=
  {| os_homedir := "/home/user"; process_cwd := "/work";
     join := String.concat "/";
     fs_readFile := fun _ p =>
       if String.eqb p "/work/.claude/settings.json" then Ok "settings"
       else Throw (Error "ENOENT: no such file or directory");
     JSON_parse := fun s =>
       if String.eqb s "settings" then Ok settings else Throw (Error "SyntaxError");
     toPropertyKey := fun _ => "[object Object]";
     t := fun key => key;
     process_env := fun _ => None |}.

(** Options that ask for a model and an output limit. *)
Definition optionsFor (model : string) (limit : option Z) : ApiHandlerOptions :=
  {| apiModelId := Some model; claudeCodePath := Some "claude";
     claudeCodeMaxOutputTokens := limit |}.

Definition zaiSettings : json := settingsWithBaseUrl "https://api.z.ai/api/anthropic".

(** A CLI that sends nothing, with the identity for the two helpers. *)
Definition cli : Integrations string :=
  {| filterMessagesForClaudeCode := fun chat => chat;
     getClaudeCodeModelId := fun id _ => id;
     runClaudeCode := fun _ => [] |}.




End Samples.

(* ================================================================== *)
(** * Properties: key formatting *)
(* ================================================================== *)

Module FormatFacts.
Import JsString JsObject Keybindings.

(** Whatever the number of chords, the label is the chords joined by a
    comma and a space: the two special cases of the code (no chord, one
    chord) agree with the join. *)
Lemma prettyPrintKey_join (rawKey platform : string) :
  prettyPrintKey rawKey platform =
  join ", " (map (formatChord platform) (filter nonempty (split " "%char rawKey))).
Proof.
  unfold prettyPrintKey.
  destruct (map (formatChord platform) (filter nonempty (split " "%char rawKey)))
    as [|c [|c' rest]]; try reflexivity.
  cbn [List.length Nat.ltb Nat.leb join String.concat].
  destruct c; reflexivity.
Qed.

(** The platform matters only through the test against ["darwin"]. *)
Lemma normalizeKeyToken_platform (token p q : string) :
  String.eqb p "darwin" = String.eqb q "darwin" ->
  normalizeKeyToken token p = normalizeKeyToken token q.
Proof. unfold normalizeKeyToken. intros ->. reflexivity. Qed.

Lemma prettyPrintKey_platform (rawKey p q : string) :
  String.eqb p "darwin" = String.eqb q "darwin" ->
  prettyPrintKey rawKey p = prettyPrintKey rawKey q.
Proof.
  intros H. rewrite !prettyPrintKey_join. f_equal.
  apply map_ext. intros chord. unfold formatChord. f_equal.
  apply map_ext. intros part. f_equal. now apply normalizeKeyToken_platform.
Qed.

(** A label computed on macOS and on Linux is the label on every
    platform. *)
Lemma prettyPrintKey_every_platform (rawKey label : string) :
  prettyPrintKey rawKey "darwin" = label ->
  prettyPrintKey rawKey "linux" = label ->
  forall p, prettyPrintKey rawKey p = label.
Proof.
  intros Hmac Hother p.
  destruct (String.eqb p "darwin") eqn:E.
  - rewrite (prettyPrintKey_platform rawKey p "darwin") by (rewrite E; reflexivity).
    exact Hmac.
  - rewrite (prettyPrintKey_platform rawKey p "linux") by (rewrite E; reflexivity).
    exact Hother.
Qed.

(** C4. The formatting examples of the specification:
    ["cmd+i"] is ["Cmd+I"] on darwin and ["Ctrl+I"] on win32;
    ["ctrl+shift+g"] is ["Ctrl+Shift+G"] and ["ctrl+k ctrl+s"] is
    ["Ctrl+K, Ctrl+S"] on every platform; and in general the tokens of a
    chord are joined with ["+"] and the chords with [", "]. *)
Theorem C4_format_examples :
  prettyPrintKey "cmd+i" "darwin" = "Cmd+I" /\
  prettyPrintKey "cmd+i" "win32" = "Ctrl+I" /\
  (forall p, prettyPrintKey "ctrl+shift+g" p = "Ctrl+Shift+G") /\
  (forall p, prettyPrintKey "ctrl+k ctrl+s" p = "Ctrl+K, Ctrl+S") /\
  (forall rawKey p,
     prettyPrintKey rawKey p =
     String.concat ", "
       (map (fun chord =>
               String.concat "+"
                 (map (fun token => toString (normalizeKeyToken token p))
                      (split "+"%char chord)))
            (filter nonempty (split " "%char rawKey)))).
Proof.
  split; [reflexivity|].
  split; [reflexivity|].
  split; [apply prettyPrintKey_every_platform; reflexivity|].
  split; [apply prettyPrintKey_every_platform; reflexivity|].
  intros rawKey p. apply prettyPrintKey_join.
Qed.

Lemma lower_char_idem (c : ascii) : lower_char (lower_char c) = lower_char c.
Proof. destruct c as [[] [] [] [] [] [] [] []]; reflexivity. Qed.

Lemma toLowerCase_idem (s : string) : toLowerCase (toLowerCase s) = toLowerCase s.
Proof.
  unfold toLowerCase. induction s as [|c s IH]; cbn; [reflexivity|].
  now rewrite lower_char_idem, IH.
Qed.

(** Of the members of [Object.prototype], a lower-cased token can only be
    ["constructor"] or ["__proto__"]: the other names have a capital. *)
Lemma inherited_lowercase (token : string) :
  inherited (toLowerCase token) = true ->
  toLowerCase token = "constructor" \/ toLowerCase token = "__proto__".
Proof.
  intros H. pose proof (toLowerCase_idem token) as Hidem.
  unfold inherited, object_prototype_keys in H. cbn [existsb] in H.
  repeat (apply orb_true_iff in H; destruct H as [H|H]);
    try discriminate H;
    apply String.eqb_eq in H;
    try (left; exact H); try (right; exact H);
    rewrite H in Hidem; discriminate Hidem.
Qed.

Lemma table_get_own (t : list (string * string)) (k : string) :
  has_own t k = true -> exists s, table_get t k = VString s.
Proof.
  unfold has_own, table_get. destruct (own t k) as [v|]; [|discriminate].
  intros _. now exists v.
Qed.

(** Away from the inherited names the normalised token is a string. *)
Lemma normalizeKeyToken_string (token platform : string) :
  inherited (toLowerCase token) = false ->
  exists s, normalizeKeyToken token platform = VString s.
Proof.
  intros Hinh. unfold normalizeKeyToken, js_in. rewrite Hinh, !orb_false_r.
  set (m := if String.eqb platform "darwin" then macModifiers else winLinuxModifiers).
  destruct (has_own m (toLowerCase token)) eqn:Hm; [now apply table_get_own|].
  destruct (has_own specialKeys (toLowerCase token)) eqn:Hs; [now apply table_get_own|].
  destruct (is_function_key (toLowerCase token)); [eexists; reflexivity|].
  destruct (String.length (toLowerCase token) =? 1)%nat; eexists; reflexivity.
Qed.

(** C10. [normalizeKeyToken] is declared to return a string and never
    throws, but for the token ["constructor"] the test
    [normalized in modifierMap] succeeds through the prototype chain and
    the value returned is the inherited member, not a string; the label
    [prettyPrintKey] builds from it carries that member's printed form.
    The same happens for ["__proto__"]. *)
Theorem C10_inherited_token_is_not_a_string :
  (forall p, normalizeKeyToken "constructor" p = VInherited "constructor") /\
  (forall p, normalizeKeyToken "__proto__" p = VInherited "__proto__") /\
  normalizeKeyToken "Constructor" "darwin" = VInherited "constructor" /\
  (forall p s, normalizeKeyToken "constructor" p = VString s -> False) /\
  prettyPrintKey "ctrl+constructor" "linux" = "Ctrl+function Object() { [native code] }" /\
  prettyPrintKey "ctrl+__proto__" "linux" = "Ctrl+[object Object]".
Proof.
  assert (Hc : forall p, normalizeKeyToken "constructor" p = VInherited "constructor").
  { intros p. unfold normalizeKeyToken. destruct (String.eqb p "darwin"); reflexivity. }
  assert (Hp : forall p, normalizeKeyToken "__proto__" p = VInherited "__proto__").
  { intros p. unfold normalizeKeyToken. destruct (String.eqb p "darwin"); reflexivity. }
  repeat split; try reflexivity; try assumption.
  intros p s. rewrite Hc. discriminate.
Qed.

(** A token whose lower-case form is neither ["constructor"] nor
    ["__proto__"] is normalised to a string. *)
Theorem normalizeKeyToken_returns_string :
  forall token platform : string,
    toLowerCase token <> "constructor" ->
    toLowerCase token <> "__proto__" ->
    exists s, normalizeKeyToken token platform = VString s.
Proof.
  intros token platform Hc Hp. apply normalizeKeyToken_string.
  destruct (inherited (toLowerCase token)) eqn:E; [|reflexivity].
  destruct (inherited_lowercase token E); contradiction.
Qed.

Lemma normalizeKeyToken_returns_string_witness :
  exists s, normalizeKeyToken "PageDown" "darwin" = VString s.
Proof.
  refine (normalizeKeyToken_returns_string "PageDown" "darwin" _ _);
    intros H; discriminate H.
Defined.

End FormatFacts.

(* ================================================================== *)
(** * Properties: label resolution *)
(* ================================================================== *)

Module ResolveFacts.
Import JsString JsObject Js Keybindings Resolve VscodeConfig Labels Spec.

(** [Array.prototype.find] with a predicate that never throws on the
    elements of the array is the plain search for the first match. *)
Lemma find_total {A} (p : A -> result bool) (q : A -> bool) (l : list A) :
  (forall x, In x l -> p x = Ok (q x)) ->
  Js.find p l = Ok (List.find q l).
Proof.
  induction l as [|x l IH]; intros H; cbn; [reflexivity|].
  rewrite (H x (or_introl eq_refl)).
  destruct (q x); [reflexivity|].
  apply IH. intros y Hy. apply H. now right.
Qed.

Lemma userRuleMatches_entry (commandId : string) (e : json) :
  isEntry e = true -> userRuleMatches commandId e = Ok (overrides commandId e).
Proof.
  destruct e as [| | | | |fs]; try discriminate.
  unfold isEntry, userRuleMatches, overrides, entryCommand, entryKey. cbn.
  destruct (own fs "command") as [[| | |c| |]|]; cbn;
    destruct (own fs "key") as [[| | |k| |]|]; cbn;
    try discriminate; intros _; try reflexivity;
    try (destruct (String.eqb c commandId); reflexivity).
  destruct (String.eqb c commandId); cbn; [|reflexivity].
  destruct k as [|a k]; cbn; [reflexivity|].
  reflexivity.
Qed.

Lemma defaultRuleMatches_entry (commandId : string) (e : json) :
  isEntry e = true -> defaultRuleMatches commandId e = Ok (declares commandId e).
Proof.
  destruct e as [| | | | |fs]; try discriminate.
  unfold isEntry, defaultRuleMatches, declares, entryCommand. cbn.
  destruct (own fs "command") as [[| | |c| |]|]; cbn; try discriminate; reflexivity.
Qed.

Lemma forallb_In {A} (f : A -> bool) (l : list A) :
  forallb f l = true -> forall x, In x l -> f x = true.
Proof. intros H. now apply forallb_forall. Qed.

Lemma overrides_key (commandId : string) (e : json) :
  overrides commandId e = true ->
  exists k, entryKey e = Some k /\ nonempty (trim k) = true.
Proof.
  unfold overrides. destruct (entryCommand e); [|discriminate].
  destruct (entryKey e) as [k|]; [|discriminate].
  intros H. apply andb_true_iff in H. exists k. tauto.
Qed.

(** The label of a found user rule is made of that rule's key, whatever
    the default is. *)
Lemma labelOf_user (commandId platform : string) (e : json) (d : option json) :
  overrides commandId e = true ->
  labelOf (Some e) d platform = Ok (labelOfKey platform e).
Proof.
  intros H. destruct (overrides_key _ _ H) as (k & Hk & Hne).
  unfold labelOf, labelOfKey. rewrite Hk, Hne.
  unfold entryKey in Hk. cbn [opt_get].
  destruct e as [| | | | |fs]; try discriminate.
  destruct (field (JObject fs) "key") as [[| | |k'| |]|]; try discriminate.
  injection Hk as ->. cbn. now rewrite Hne.
Qed.

Lemma labelOf_default (platform : string) (d : json) :
  isEntry d = true ->
  labelOf None (Some d) platform = Ok (labelOfKey platform d).
Proof.
  destruct d as [| | | | |fs]; try discriminate.
  unfold isEntry, labelOf, labelOfKey, entryKey. cbn.
  destruct (own fs "key") as [[| | |k| |]|]; cbn; try discriminate; intros _;
    [|reflexivity].
  destruct (nonempty (trim k)); reflexivity.
Qed.

(** Resolution against well-typed rule sets: the first overriding user
    rule, else the first default declaring the command. *)
Lemma resolveWith_entries (rules defaults : list json) (commandId platform : string) :
  forallb isEntry rules = true ->
  forallb isEntry defaults = true ->
  resolveWith rules (JArray defaults) commandId platform =
  Ok match List.find (overrides commandId) rules with
     | Some e => labelOfKey platform e
     | None =>
         match List.find (declares commandId) defaults with
         | Some d => labelOfKey platform d
         | None => None
         end
     end.
Proof.
  intros Hr Hd. unfold resolveWith, findFirstBindingForCommand, findDefault.
  rewrite (find_total _ (overrides commandId)) by
    (intros x Hx; apply userRuleMatches_entry; now apply (forallb_In _ _ Hr)).
  rewrite (find_total _ (declares commandId)) by
    (intros x Hx; apply defaultRuleMatches_entry; now apply (forallb_In _ _ Hd)).
  cbn [rbind].
  destruct (List.find (overrides commandId) rules) as [e|] eqn:Hu.
  - apply find_some in Hu. now apply (labelOf_user commandId).
  - destruct (List.find (declares commandId) defaults) as [d|] eqn:Hdf.
    + apply find_some in Hdf. apply labelOf_default.
      now apply (forallb_In _ _ Hd).
    + reflexivity.
Qed.

Lemma getCurrentKeybindingLabel_entries (w : World) (commandId : string)
    (context : ExtensionContext) (n n' : nat) (rules defaults : list json) :
  readUserKeybindings w n = (Ok rules, n') ->
  forallb isEntry rules = true ->
  getDefaultKeybindings context = JArray defaults ->
  forallb isEntry defaults = true ->
  getCurrentKeybindingLabel w commandId context n =
    (match List.find (overrides commandId) rules with
     | Some e => labelOfKey (platform w) e
     | None =>
         match List.find (declares commandId) defaults with
         | Some d => labelOfKey (platform w) d
         | None => None
         end
     end, [], n').
Proof.
  intros Hread Hr Hctx Hd.
  unfold getCurrentKeybindingLabel, resolveLabel, bind, lift.
  rewrite Hread, Hctx, (resolveWith_entries _ _ _ _ Hr Hd). reflexivity.
Qed.

(** What [getDefaultKeybindings] makes of the manifest: the declared
    array, or the empty array when the manifest holds nothing there. *)
Lemma getDefaultKeybindings_declared (context : ExtensionContext) (defaults : list json) :
  declaresDefaults context defaults ->
  getDefaultKeybindings context = JArray defaults.
Proof.
  unfold declaresDefaults, manifestKeybindings, getDefaultKeybindings.
  intros [H|[H ->]].
  - now rewrite H.
  - destruct (opt_get (opt_get (packageJSON context) "contributes") "keybindings")
      as [j|]; [|reflexivity].
    now rewrite H.
Qed.

(** C5 as stated fails: the code checks nothing about the rules it has
    read. With [null] before the override in the user's file, there is a
    first user rule whose command is the id and whose key is not empty,
    yet the label is not made of it: reading [command] of [null] throws,
    and the resolver answers [undefined] after a warning. *)
Lemma C5_counterexample :
  let rules := [JNull; Samples.rule "cmd+shift+i" Samples.commandX] in
  readUserKeybindings (Samples.desktop (JArray rules)) 0%nat = (Ok rules, 6%nat) /\
  List.find (overrides Samples.commandX) rules
    = Some (Samples.rule "cmd+shift+i" Samples.commandX) /\
  getCurrentKeybindingLabel (Samples.desktop (JArray rules)) Samples.commandX
    Samples.context 0%nat
    = (None,
       [Warn "Failed to get keybinding for command kilo-code.ghost.promptCodeSuggestion:"
             (TypeError "Cannot read properties of null (reading 'command')")],
       6%nat).
Proof. repeat split; reflexivity. Qed.

(** C5, amended. Let the user's rules have been read, and let every user
    rule and every default entry the manifest declares at
    [contributes.keybindings] (none when it holds nothing there) be an
    object whose [key] and [command], when present, are strings. Then the
    label is made of the key of the first user rule whose command is the
    id and whose key is not empty once trimmed; only when there is no
    such rule is it made of the first default entry with that command. So
    a user override, when there is one, decides the label, not the
    default. *)
Theorem C5_user_override_before_default :
  forall (w : World) (commandId : string) (context : ExtensionContext) (n n' : nat)
         (rules defaults : list json),
    readUserKeybindings w n = (Ok rules, n') ->
    forallb isEntry rules = true ->
    declaresDefaults context defaults ->
    forallb isEntry defaults = true ->
    getCurrentKeybindingLabel w commandId context n =
      (match List.find (overrides commandId) rules with
       | Some e => labelOfKey (platform w) e
       | None =>
           match List.find (declares commandId) defaults with
           | Some d => labelOfKey (platform w) d
           | None => None
           end
       end, [], n')
    /\
    (forall e, List.find (overrides commandId) rules = Some e ->
       exists k, entryKey e = Some k /\
         getCurrentKeybindingLabel w commandId context n =
           (Some (prettyPrintKey (trim k) (platform w)), [], n')).
Proof.
  intros w commandId context n n' rules defaults Hread Hr Hctx Hd.
  pose proof (getCurrentKeybindingLabel_entries w commandId context n n' rules defaults
                Hread Hr (getDefaultKeybindings_declared context defaults Hctx) Hd) as E.
  split; [exact E|].
  intros e He. rewrite E, He.
  apply find_some in He. destruct He as [_ He].
  destruct (overrides_key _ _ He) as (k & Hk & Hne).
  exists k. split; [exact Hk|].
  unfold labelOfKey. now rewrite Hk, Hne.
Qed.

(** C5, at the override and the default of the specification's example:
    the label comes from the user's ["cmd+shift+i"], not from the
    default ["cmd+i"]. *)
Lemma C5_user_override_before_default_witness :
  getCurrentKeybindingLabel
    (Samples.desktop (JArray [Samples.rule "cmd+shift+i" Samples.commandX]))
    Samples.commandX Samples.context 0%nat
  = (Some "Ctrl+Shift+I", [], 6%nat).
Proof.
  exact (proj1 (C5_user_override_before_default
    (Samples.desktop (JArray [Samples.rule "cmd+shift+i" Samples.commandX]))
    Samples.commandX Samples.context 0%nat 6%nat
    [Samples.rule "cmd+shift+i" Samples.commandX]
    [Samples.rule "cmd+i" Samples.commandX;
     Samples.rule "ctrl+shift+g" "kilo-code.ghost.generateSuggestions"]
    eq_refl eq_refl (or_introl eq_refl) eq_refl)).
Defined.




(** Every exception of the [try] block ends the same way, also one raised
    after the file has been read (an entry that is [null], a key that is
    not a string). *)
Lemma getCurrentKeybindingLabel_catches (w : World) (commandId : string)
    (context : ExtensionContext) (n n' : nat) (e : exn) :
  resolveLabel w commandId context n = (Throw e, n') ->
  getCurrentKeybindingLabel w commandId context n =
    (None, [Warn ("Failed to get keybinding for command " ++ commandId ++ ":") e], n').
Proof. intros H. unfold getCurrentKeybindingLabel. now rewrite H. Qed.

(** A command that no user rule overrides and no default declares has no
    label. *)
Lemma unknown_command_undefined (w : World) (commandId : string)
    (context : ExtensionContext) (n n' : nat) (rules defaults : list json) :
  readUserKeybindings w n = (Ok rules, n') ->
  forallb isEntry rules = true ->
  getDefaultKeybindings context = JArray defaults ->
  forallb isEntry defaults = true ->
  List.find (overrides commandId) rules = None ->
  List.find (declares commandId) defaults = None ->
  getCurrentKeybindingLabel w commandId context n = (None, [], n').
Proof.
  intros Hread Hr Hctx Hd Hu Hdf.
  rewrite (getCurrentKeybindingLabel_entries w commandId context n n' rules defaults
             Hread Hr Hctx Hd).
  now rewrite Hu, Hdf.
Qed.

(** C6. The batch resolver stores each label with [result[commandId] = ...]
    on an object created by [{}]. For the command id ["__proto__"] that
    assignment stores nothing, so the id is missing from the keys of the
    returned mapping: alone, it gives an empty mapping on every host;
    among others, only the others are kept. *)
Theorem C6_proto_key_is_lost :
  (forall (w : World) (context : ExtensionContext) (n : nat),
     fst (fst (getKeybindingLabels w ["__proto__"] context n)) = []) /\
  JsObject.keys
    (fst (fst (getKeybindingLabels (Samples.desktop (JArray []))
                 [Samples.commandX; "__proto__"; "unknown.command"]
                 Samples.context 0%nat)))
    = [Samples.commandX; "unknown.command"] /\
  fst (fst (getKeybindingLabels (Samples.desktop (JArray []))
              [Samples.commandX; "__proto__"; "unknown.command"]
              Samples.context 0%nat))
    = [(Samples.commandX, Some "Ctrl+I"); ("unknown.command", None)].
Proof.
  repeat split; try reflexivity.
  intros w context n. unfold getKeybindingLabels. cbn [labelsLoop].
  destruct (getCurrentKeybindingLabel w "__proto__" context n) as [[label log] n'].
  reflexivity.
Qed.

(** Apart from ["__proto__"], the keys of the returned mapping are the
    requested ids. *)
Lemma keys_overwrite (r : LabelRecord) (k : string) (v : option string) :
  JsObject.keys (overwrite r k v) = JsObject.keys r.
Proof.
  unfold JsObject.keys. induction r as [|[k' v'] r IH]; cbn; [reflexivity|].
  destruct (String.eqb k k'); cbn; [reflexivity|]. now rewrite IH.
Qed.

Lemma has_own_In (r : LabelRecord) (k : string) :
  JsObject.has_own r k = true -> In k (JsObject.keys r).
Proof.
  unfold JsObject.has_own, JsObject.keys.
  induction r as [|[k' v'] r IH]; cbn; [discriminate|].
  destruct (String.eqb k k') eqn:E.
  - apply String.eqb_eq in E. intros _. now left.
  - intros H. right. now apply IH.
Qed.

Lemma keys_assign (r : LabelRecord) (k : string) (v : option string) (x : string) :
  k <> "__proto__" ->
  In x (JsObject.keys (assign r k v)) <-> In x (JsObject.keys r) \/ x = k.
Proof.
  intros Hk. unfold assign.
  destruct (String.eqb k "__proto__") eqn:E; [apply String.eqb_eq in E; contradiction|].
  destruct (JsObject.has_own r k) eqn:Ho.
  - rewrite keys_overwrite. split; [tauto|].
    intros [H| ->]; [exact H|]. now apply has_own_In.
  - unfold JsObject.keys. rewrite map_app, in_app_iff. cbn. intuition congruence.
Qed.

Lemma keys_labelsLoop (w : World) (context : ExtensionContext) (commandIds : list string) :
  ~ In "__proto__" commandIds ->
  forall (r : LabelRecord) (n : nat) (x : string),
    In x (JsObject.keys (fst (fst (labelsLoop w commandIds context r n)))) <->
    In x (JsObject.keys r) \/ In x commandIds.
Proof.
  induction commandIds as [|c cs IH]; intros Hno r n x; cbn.
  - tauto.
  - destruct (getCurrentKeybindingLabel w c context n) as [[label log] n1].
    specialize (IH (fun H => Hno (or_intror H)) (assign r c label) n1 x).
    destruct (labelsLoop w cs context (assign r c label) n1) as [[r' log'] n2].
    cbn in *. rewrite IH, keys_assign by (intros ->; apply Hno; now left).
    intuition congruence.
Qed.

Lemma getKeybindingLabels_keys (w : World) (context : ExtensionContext)
    (commandIds : list string) (n : nat) (x : string) :
  ~ In "__proto__" commandIds ->
  (In x (JsObject.keys (fst (fst (getKeybindingLabels w commandIds context n)))) <->
   In x commandIds).
Proof.
  intros Hno. unfold getKeybindingLabels.
  rewrite (keys_labelsLoop w context commandIds Hno [] n x). cbn. tauto.
Qed.

(** A command that no user rule overrides and no default declares
    resolves to [undefined], without a warning. *)
Theorem unknown_command_resolves_to_undefined :
  forall (w : World) (commandId : string) (context : ExtensionContext) (n n' : nat)
         (rules defaults : list json),
    readUserKeybindings w n = (Ok rules, n') ->
    forallb isEntry rules = true ->
    getDefaultKeybindings context = JArray defaults ->
    forallb isEntry defaults = true ->
    List.find (overrides commandId) rules = None ->
    List.find (declares commandId) defaults = None ->
    getCurrentKeybindingLabel w commandId context n = (None, [], n').
Proof. intros. now apply (unknown_command_undefined w commandId context n n' rules defaults). Qed.

Lemma unknown_command_resolves_to_undefined_witness :
  getCurrentKeybindingLabel (Samples.desktop (JArray [])) "unknown.command"
    Samples.context 0%nat = (None, [], 6%nat).
Proof.
  exact (unknown_command_resolves_to_undefined (Samples.desktop (JArray []))
           "unknown.command" Samples.context 0%nat 6%nat []
           [Samples.rule "cmd+i" Samples.commandX;
            Samples.rule "ctrl+shift+g" "kilo-code.ghost.generateSuggestions"]
           eq_refl eq_refl eq_refl eq_refl eq_refl eq_refl).
Defined.

(** When ["__proto__"] is not among the requested ids, the keys of the
    mapping returned by the batch resolver are exactly the requested
    ids. *)
Theorem batch_keys_are_the_requested_ids :
  forall (w : World) (context : ExtensionContext) (commandIds : list string) (n : nat),
    ~ In "__proto__" commandIds ->
    forall x,
      In x (JsObject.keys (fst (fst (getKeybindingLabels w commandIds context n)))) <->
      In x commandIds.
Proof. intros w context commandIds n H x. now apply getKeybindingLabels_keys. Qed.

Lemma batch_keys_are_the_requested_ids_witness :
  In "unknown.command"
     (JsObject.keys (fst (fst (getKeybindingLabels (Samples.desktop (JArray []))
                                 [Samples.commandX; "unknown.command"]
                                 Samples.context 0%nat)))).
Proof.
  refine (proj2 (batch_keys_are_the_requested_ids (Samples.desktop (JArray []))
                   Samples.context [Samples.commandX; "unknown.command"] 0%nat _
                   "unknown.command") _).
  - intros [H|[H|[]]]; discriminate H.
  - right. left. reflexivity.
Defined.

End ResolveFacts.

(* ================================================================== *)
(** * Properties: reading the user's keybindings *)
(* ================================================================== *)

Module ConfigFacts.
Import JsString Js VscodeConfig Spec.

Section WithWorld.
Variable w : World.

(** Reading and parsing one file cannot throw: [null] stands for every
    failure. *)
Lemma readJSON5File_eq (filePath : string) (n : nat) :
  readJSON5File w filePath n =
  (Ok match rbind (readFile w n filePath) (JSON5_parse w) with
      | Ok j => j
      | Throw _ => JNull
      end, S n).
Proof.
  unfold readJSON5File, try_catch, bind, await, lift, ret, rbind.
  destruct (readFile w n filePath) as [text|e]; [|reflexivity].
  destruct (JSON5_parse w text); reflexivity.
Qed.

(** The loop over the candidates: a candidate that parses to an array
    ends it, any other outcome moves on, and the end of the list gives
    the empty rule set. *)
Lemma firstRuleSet_array (filePath : string) (rest : list string) (n : nat)
    (items : list json) :
  fst (readJSON5File w filePath n) = Ok (JArray items) ->
  firstRuleSet w (filePath :: rest) n = (Ok items, S n).
Proof.
  rewrite readJSON5File_eq. cbn [fst firstRuleSet]. unfold bind at 1.
  rewrite readJSON5File_eq. intros H. injection H as ->. reflexivity.
Qed.

Lemma firstRuleSet_skip (filePath : string) (rest : list string) (n : nat) :
  (forall items, fst (readJSON5File w filePath n) <> Ok (JArray items)) ->
  firstRuleSet w (filePath :: rest) n = firstRuleSet w rest (S n).
Proof.
  rewrite readJSON5File_eq. cbn [fst firstRuleSet]. unfold bind at 1.
  rewrite readJSON5File_eq. intros H.
  destruct (match rbind (readFile w n filePath) (JSON5_parse w) with
            | Ok j => j | Throw _ => JNull end) as [| | | |items|]; try reflexivity.
  now specialize (H items).
Qed.

Lemma firstRuleSet_total (candidates : list string) (n : nat) :
  exists rules n', firstRuleSet w candidates n = (Ok rules, n').
Proof.
  revert n. induction candidates as [|p rest IH]; intros n.
  - now exists [], n.
  - cbn [firstRuleSet]. unfold bind at 1. rewrite readJSON5File_eq.
    destruct (match rbind (readFile w n p) (JSON5_parse w) with
              | Ok j => j | Throw _ => JNull end) as [| | | |items|];
      try apply IH.
    now exists items, (S n).
Qed.

(** The first pass keeps only paths some [stat] call answered for. *)
Lemma filterExisting_total (candidates : list string) (n : nat) :
  exists existing n',
    filterExisting w candidates n = (Ok existing, n') /\
    forall p, In p existing -> exists m st, stat w m p = Ok st.
Proof.
  revert n. induction candidates as [|p rest IH]; intros n.
  - exists [], n. split; [reflexivity|]. intros p [].
  - cbn [filterExisting]. unfold bind at 1, try_catch, await, bind, ret.
    destruct (IH (S n)) as (ex & n' & Hex & Hall).
    destruct (stat w n p) as [st|e] eqn:Hst.
    + unfold bind. rewrite Hex.
      destruct (isFile st).
      * exists (p :: ex), n'. split; [reflexivity|].
        intros q [<-|Hq]; [now exists n, st|now apply Hall].
      * now exists ex, n'.
    + unfold bind. rewrite Hex. now exists ex, n'.
Qed.

Lemma statEach_clock (paths : list string) (n : nat) :
  snd (statEach w paths n) = (n + List.length paths)%nat.
Proof.
  revert n. induction paths as [|p rest IH]; intros n; cbn.
  - now rewrite Nat.add_0_r.
  - specialize (IH (S n)). destruct (statEach w rest (S n)). cbn in *. lia.
Qed.

(** On a world whose [stat] answers do not change, the second pass
    succeeds on everything the first pass kept. *)
Lemma statAll_stable (paths : list string) (n : nat) :
  stableStat w ->
  (forall p, In p paths -> exists m st, stat w m p = Ok st) ->
  exists stats n', statAll w paths n = (Ok stats, n').
Proof.
  intros Hstable. unfold statAll. revert n.
  induction paths as [|p rest IH]; intros n Hall.
  - now exists [], n.
  - cbn [statEach].
    destruct (Hall p (or_introl eq_refl)) as (m & st & Hst).
    rewrite (Hstable n m p), Hst.
    destruct (IH (S n) (fun q Hq => Hall q (or_intror Hq))) as (stats & n' & E).
    destruct (statEach w rest (S n)) as [rs n1].
    injection E as E1 E2. cbn [allOf]. rewrite E1. cbn.
    now exists ((p, st) :: stats), n1.
Qed.

Lemma enumerateProfileKeybindings_stable (userDir : string) (n : nat) :
  stableStat w ->
  exists paths n', enumerateProfileKeybindings w userDir n = (Ok paths, n').
Proof.
  intros Hstable. unfold enumerateProfileKeybindings.
  unfold bind at 1.
  set (first := path_join w [userDir; "keybindings.json"]).
  set (profilesDir := path_join w [userDir; "profiles"]).
  assert (Hc : exists cs n1,
    try_catch
      (bind (await (fun n0 => readdir w n0 profilesDir))
         (fun entries => ret (first :: map (fun e => path_join w [profilesDir; name e; "keybindings.json"])
                                    (filter isDirectory entries))))
      (fun _ => ret [first]) n = (Ok cs, n1)).
  { unfold try_catch, bind, await, ret.
    destruct (readdir w n profilesDir); eexists; eexists; reflexivity. }
  destruct Hc as (cs & n1 & ->).
  unfold bind at 1.
  destruct (filterExisting_total cs n1) as (ex & n2 & -> & Hall).
  destruct (1 <? List.length ex)%nat.
  - unfold bind.
    destruct (statAll_stable ex n2 Hstable Hall) as (stats & n3 & ->).
    unfold ret. eexists; eexists; reflexivity.
  - now exists ex, n2.
Qed.

(** On a world whose [stat] answers do not change, reading the user's
    keybindings returns a rule set. *)
Lemma readUserKeybindings_stable (n : nat) :
  stableStat w ->
  exists rules n', readUserKeybindings w n = (Ok rules, n').
Proof.
  intros Hstable. unfold readUserKeybindings.
  destruct (negb (canReadLocalKeybindings w)); [now exists [], n|].
  unfold bind.
  assert (Hc : exists cs n1, getKeybindingsCandidates w n = (Ok cs, n1)).
  { unfold getKeybindingsCandidates.
    destruct (isCodeServer w); now apply enumerateProfileKeybindings_stable. }
  destruct Hc as (cs & n1 & ->). apply firstRuleSet_total.
Qed.


End WithWorld.

(** C7. [readUserKeybindings] can reject. The candidates are found by a
    first pass of [stat] calls, each guarded by [try]/[catch]; when more
    than one file exists, a second, unguarded pass asks [stat] again for
    the modification times. On a host where the two files seen by the
    first pass are gone at the second, the rejection of [stat] leaves
    [readUserKeybindings] as an exception. *)
Theorem C7_second_stat_rejects :
  fst (filterExisting Samples.vanishing
         ["/home/user/.config/Code/User/keybindings.json";
          "/home/user/.config/Code/User/profiles/profile1/keybindings.json"] 1%nat)
    = Ok ["/home/user/.config/Code/User/keybindings.json";
          "/home/user/.config/Code/User/profiles/profile1/keybindings.json"] /\
  readUserKeybindings Samples.vanishing 0%nat
    = (Throw (Error "ENOENT: no such file or directory"), 5%nat).
Proof. split; reflexivity. Qed.

(** On a host whose [stat] answers do not change during the call,
    [readUserKeybindings] returns a rule set: it does not throw. *)
Theorem readUserKeybindings_total_on_stable_host :
  forall (w : World) (n : nat),
    stableStat w ->
    exists rules n', readUserKeybindings w n = (Ok rules, n').
Proof. intros w n H. now apply readUserKeybindings_stable. Qed.

Lemma readUserKeybindings_total_on_stable_host_witness :
  exists rules n',
    readUserKeybindings (Samples.desktop (JArray [Samples.rule "cmd+k" "x"])) 0%nat
    = (Ok rules, n').
Proof.
  exact (readUserKeybindings_total_on_stable_host
           (Samples.desktop (JArray [Samples.rule "cmd+k" "x"])) 0%nat
           (fun _ _ _ => eq_refl)).
Defined.



End ConfigFacts.

(* ================================================================== *)
(** * Properties: the stream adapter *)
(* ================================================================== *)

Module StreamFacts.
Import JsString JsObject Js ClaudeCode Spec.

Section WithHost.
Variable host : Host.

(** Consuming a stream in two parts: the second part starts from the
    locals the first part left, unless the first part threw. *)
Lemma loop_app (a b : list ClaudeCodeMessage) (st : LoopState) :
  loop host st (a ++ b) =
  match completion (loop host st a) with
  | Done =>
      {| yielded := yielded (loop host st a) ++ yielded (loop host (final (loop host st a)) b);
         logged := logged (loop host st a) ++ logged (loop host (final (loop host st a)) b);
         final := final (loop host (final (loop host st a)) b);
         completion := completion (loop host (final (loop host st a)) b) |}
  | Rejected _ => loop host st a
  end.
Proof.
  revert st. induction a as [|c a IH]; intros st.
  - cbn. now destruct (ClaudeCode.loop host st b).
  - cbn [app ClaudeCode.loop]. destruct (ClaudeCode.step host st c) as [[[ys ls] st']|e].
    + rewrite IH. cbn [completion yielded logged final].
      destruct (completion (ClaudeCode.loop host st' a)) eqn:E.
      * cbn. now rewrite <- !app_assoc.
      * cbn. now rewrite E.
    + reflexivity.
Qed.

(** The counters and the paid flag after one message. *)
Lemma step_usage (st st' : LoopState) (c : ClaudeCodeMessage)
    (ys : list ApiStreamChunk) (ls : list string) (f : MessageUsage -> Z)
    (g : ApiStreamUsageChunk -> Z) :
  (forall u m, g (addUsage u m) = (g u + f m)%Z) ->
  (forall u q, g (setTotalCost u q) = g u) ->
  step host st c = Ok (ys, ls, st') ->
  g (usageSoFar st') = (g (usageSoFar st) + sumOver f [c])%Z.
Proof.
  intros Hadd Hset H. destruct c as [text|src|m|[r|] cost|]; cbn in H |- *.
  - injection H as _ _ <-. lia.
  - injection H as _ _ <-. cbn. lia.
  - destruct (apiError host m); [discriminate|].
    destruct (translateBlocks (content m)). injection H as _ _ <-.
    cbn. rewrite Hadd. lia.
  - injection H as _ _ <-. cbn. rewrite Hset. lia.
  - injection H as _ _ <-. lia.
  - injection H as _ _ <-. lia.
Qed.

Lemma sumOver_cons (f : MessageUsage -> Z) (c : ClaudeCodeMessage)
    (s : list ClaudeCodeMessage) :
  sumOver f (c :: s) = (sumOver f [c] + sumOver f s)%Z.
Proof. destruct c; cbn; lia. Qed.

Lemma sumOver_app (f : MessageUsage -> Z) (a b : list ClaudeCodeMessage) :
  sumOver f (a ++ b) = (sumOver f a + sumOver f b)%Z.
Proof.
  induction a as [|c a IH]; [reflexivity|].
  cbn [app]. rewrite (sumOver_cons f c (a ++ b)), (sumOver_cons f c a), IH. lia.
Qed.

Lemma loop_usage (s : list ClaudeCodeMessage) (st : LoopState)
    (f : MessageUsage -> Z) (g : ApiStreamUsageChunk -> Z) :
  (forall u m, g (addUsage u m) = (g u + f m)%Z) ->
  (forall u q, g (setTotalCost u q) = g u) ->
  completion (loop host st s) = Done ->
  g (usageSoFar (final (loop host st s))) = (g (usageSoFar st) + sumOver f s)%Z.
Proof.
  intros Hadd Hset. revert st. induction s as [|c s IH]; intros st.
  - cbn. lia.
  - cbn [ClaudeCode.loop]. destruct (step host st c) as [[[ys ls] st']|e] eqn:Hs;
      [|discriminate].
    cbn [completion final]. intros Hdone.
    rewrite (IH st' Hdone), (step_usage st st' c ys ls f g Hadd Hset Hs).
    rewrite (sumOver_cons f c s). lia.
Qed.

(** Only an init message changes the paid flag. *)
Lemma loop_paid (s : list ClaudeCodeMessage) (st : LoopState) :
  forallb (fun c => negb (isSystemInit c)) s = true ->
  isPaidUsage (final (loop host st s)) = isPaidUsage st.
Proof.
  revert st. induction s as [|c s IH]; intros st H; [reflexivity|].
  cbn in H. apply andb_true_iff in H. destruct H as [Hc Hs].
  cbn [ClaudeCode.loop]. destruct (step host st c) as [[[ys ls] st']|e] eqn:E; [|reflexivity].
  cbn [final]. rewrite (IH st' Hs).
  destruct c as [text|src|m|[r|] cost|]; cbn in E; try discriminate Hc.
  - now injection E as _ _ <-.
  - destruct (apiError host m); [discriminate|].
    destruct (translateBlocks (content m)). now injection E as _ _ <-.
  - now injection E as _ _ <-.
  - now injection E as _ _ <-.
  - now injection E as _ _ <-.
Qed.

(** A usage chunk is yielded for a result chunk and for nothing else. *)
Lemma translateBlocks_no_usage (blocks : list ContentBlock) :
  forallb (fun c => negb (isUsageChunk c)) (fst (translateBlocks blocks)) = true.
Proof.
  induction blocks as [|b bs IH]; [reflexivity|].
  cbn [translateBlocks]. destruct (translateBlock b) as [ys ls] eqn:Hb.
  destruct (translateBlocks bs) as [ys' ls']. cbn [fst] in *.
  rewrite forallb_app, IH, andb_true_r.
  destruct b; cbn in Hb; injection Hb as <- _; reflexivity.
Qed.

Lemma no_result_no_usage (s : list ClaudeCodeMessage) (st : LoopState) :
  forallb (fun c => negb (isTerminalResult c)) s = true ->
  forallb (fun c => negb (isUsageChunk c)) (yielded (loop host st s)) = true.
Proof.
  revert st. induction s as [|c s IH]; intros st H; [reflexivity|].
  cbn in H. apply andb_true_iff in H. destruct H as [Hc Hs].
  cbn [ClaudeCode.loop]. destruct (step host st c) as [[[ys ls] st']|e] eqn:E; [|reflexivity].
  cbn [yielded]. rewrite forallb_app, (IH st' Hs), andb_true_r.
  destruct c as [text|src|m|[r|] cost|]; cbn in E; try discriminate Hc.
  - now injection E as <- _ _.
  - now injection E as <- _ _.
  - destruct (apiError host m); [discriminate|].
    pose proof (translateBlocks_no_usage (content m)) as Hb.
    destruct (translateBlocks (content m)). now injection E as <- _ _.
  - now injection E as <- _ _.
  - now injection E as <- _ _.
Qed.

Lemma loop_done_prefix (a b : list ClaudeCodeMessage) (st : LoopState) :
  completion (loop host st (a ++ b)) = Done -> completion (loop host st a) = Done.
Proof.
  rewrite loop_app. destruct (completion (loop host st a)) eqn:E; [reflexivity|].
  now rewrite E.
Qed.

Lemma loop_app_done (a b : list ClaudeCodeMessage) (st : LoopState) :
  completion (loop host st a) = Done ->
  yielded (loop host st (a ++ b)) =
    (yielded (loop host st a) ++ yielded (loop host (final (loop host st a)) b))%list /\
  final (loop host st (a ++ b)) = final (loop host (final (loop host st a)) b) /\
  completion (loop host st (a ++ b)) = completion (loop host (final (loop host st a)) b).
Proof. intros H. rewrite loop_app, H. cbn. auto. Qed.

(** When the stream has not thrown, the paid flag after an init message
    is the test of its marker against ["none"], until the next init. *)
Lemma paid_after_init (pre mid : list ClaudeCodeMessage) (src : string) (st : LoopState) :
  completion (loop host st (pre ++ SystemInit src :: mid)) = Done ->
  forallb (fun c => negb (isSystemInit c)) mid = true ->
  isPaidUsage (final (loop host st (pre ++ SystemInit src :: mid)))
    = negb (String.eqb src "none").
Proof.
  intros Hdone Hmid.
  pose proof (loop_done_prefix _ _ _ Hdone) as Hpre.
  destruct (loop_app_done pre (SystemInit src :: mid) st Hpre) as (_ & -> & _).
  cbn [loop step final]. now rewrite loop_paid.
Qed.

Lemma usage_ext (u v : ApiStreamUsageChunk) :
  inputTokens u = inputTokens v -> outputTokens u = outputTokens v ->
  cacheReadTokens u = cacheReadTokens v -> cacheWriteTokens u = cacheWriteTokens v ->
  totalCost u = totalCost v -> u = v.
Proof. destruct u, v; cbn; intros; subst; reflexivity. Qed.

(** C1. The stream of the test named "should calculate cost even when
    result chunk is missing" (an init message of a paid key, one assistant
    message with usage, no result chunk) is translated into the text
    chunk alone: the generator returns without a usage chunk, and the
    counters it gathered (10, 20, 5, 3) are dropped with a cost never
    computed. A stream that holds only the init message yields nothing,
    and no stream without a result chunk makes the generator yield a
    usage chunk. *)
Theorem C1_no_usage_chunk_without_result :
  yielded (createMessage host Samples.streamWithoutResult) = [TextChunk "Hello there!"] /\
  completion (createMessage host Samples.streamWithoutResult) = Done /\
  usageSoFar (final (createMessage host Samples.streamWithoutResult)) =
    {| inputTokens := 10; outputTokens := 20; cacheReadTokens := 5;
       cacheWriteTokens := 3; totalCost := None |} /\
  yielded (createMessage host [SystemInit "/login managed key"]) = [] /\
  completion (createMessage host [SystemInit "/login managed key"]) = Done /\
  (forall stream,
     forallb (fun c => negb (isTerminalResult c)) stream = true ->
     forallb (fun c => negb (isUsageChunk c)) (yielded (createMessage host stream)) = true).
Proof.
  repeat split; try reflexivity.
  intros stream H. now apply no_result_no_usage.
Qed.

(** C2. Take a stream that has not thrown, an init message in it and no
    other init message after that one. A result chunk arriving next makes
    the generator yield the usage object as its last chunk, with the
    counters summed over all the assistant messages before it and a total
    cost of 0 when the init message's [apiKeySource] is ["none"], whatever
    cost the result chunk reports, and of the reported cost otherwise. *)
Theorem C2_cost_follows_apiKeySource :
  forall (pre mid : list ClaudeCodeMessage) (apiKeySource result : string) (cost : Q),
    completion (createMessage host (pre ++ SystemInit apiKeySource :: mid)) = Done ->
    forallb (fun c => negb (isSystemInit c)) mid = true ->
    let before := createMessage host (pre ++ SystemInit apiKeySource :: mid) in
    let run := createMessage host
                 ((pre ++ SystemInit apiKeySource :: mid)
                  ++ [ResultMessage (Some result) cost]) in
    let u := usageAtResult (pre ++ mid) apiKeySource cost in
    completion run = Done /\
    yielded run = (yielded before ++ [UsageChunk u])%list /\
    collected run =
      (map (fun c => match c with UsageChunk _ => UsageChunk u | other => other end)
           (yielded before) ++ [UsageChunk u])%list.
Proof.
  intros pre mid src result cost Hdone Hmid. cbv zeta.
  unfold createMessage in *.
  set (s0 := (pre ++ SystemInit src :: mid)%list) in *.
  destruct (loop_app_done s0 [ResultMessage (Some result) cost] _ Hdone) as (Hy & Hf & Hc).
  pose proof (paid_after_init pre mid src initialState Hdone Hmid) as Hpaid.
  fold s0 in Hpaid.
  assert (Hsum : forall f, sumOver f s0 = sumOver f (pre ++ mid)).
  { intros f. subst s0. rewrite !sumOver_app. reflexivity. }
  rewrite Hy, Hc. unfold collected. rewrite Hf, Hy.
  cbn [loop step yielded final completion usageSoFar app].
  rewrite Hpaid.
  match goal with
  | |- context [UsageChunk (setTotalCost ?a ?b)] =>
      assert (Hu : setTotalCost a b = usageAtResult (pre ++ mid) src cost)
  end.
  { apply usage_ext;
      cbn [inputTokens outputTokens cacheReadTokens cacheWriteTokens totalCost
           setTotalCost usageAtResult].
    - rewrite (loop_usage s0 _ input_tokens inputTokens) by (auto; reflexivity).
      now rewrite Hsum.
    - rewrite (loop_usage s0 _ output_tokens outputTokens) by (auto; reflexivity).
      now rewrite Hsum.
    - rewrite (loop_usage s0 _ (fun m => orZero (cache_read_input_tokens m))
                 cacheReadTokens) by (auto; reflexivity).
      now rewrite Hsum.
    - rewrite (loop_usage s0 _ (fun m => orZero (cache_creation_input_tokens m))
                 cacheWriteTokens) by (auto; reflexivity).
      now rewrite Hsum.
    - destruct (String.eqb src "none"); reflexivity. }
  rewrite Hu.
  split; [reflexivity|]. split; [reflexivity|].
  rewrite map_app. reflexivity.
Qed.

(** An assistant message that carries an API error throws, whatever the
    parse of its payload gives. *)
Lemma apiError_some (m : AssistantMessage) (sr text : string) (rest : list ContentBlock) :
  stop_reason m = Some sr ->
  content m = TextBlock text :: rest ->
  startsWith "API Error" text = true ->
  exists e, apiError host m = Some e.
Proof.
  intros Hs Hc Hp. unfold apiError. rewrite Hs, Hc, Hp.
  destruct (negb (truthy (Some (attemptParse host (slice (indexOf "{" text) text)))));
    [eexists; reflexivity|].
  destruct (mentionsInvalidModel _) as [[|]|e]; eexists; reflexivity.
Qed.

Lemma loop_throws (pre post : list ClaudeCodeMessage) (m : AssistantMessage) (e : exn)
    (st : LoopState) :
  completion (loop host st pre) = Done ->
  apiError host m = Some e ->
  completion (loop host st (pre ++ Assistant m :: post)) = Rejected e /\
  yielded (loop host st (pre ++ Assistant m :: post)) = yielded (loop host st pre).
Proof.
  intros Hdone He.
  destruct (loop_app_done pre (Assistant m :: post) st Hdone) as (Hy & _ & Hc).
  rewrite Hy, Hc. cbn [loop step]. rewrite He. cbn. now rewrite app_nil_r.
Qed.

(** C9, amended. Let the messages before it translate without error, and
    let an assistant message have a [stop_reason] that is not [null] and a
    first content block that is text beginning with ["API Error"]. Then
    the pull that reaches the message rejects: the consumer has received
    the chunks of the earlier messages and receives nothing of this one or
    of any later one. When the text from its first ["{"] on parses to an
    object whose [error.message] is a string that contains
    ["Invalid model name"], the error's message is the original text, a
    blank line and the localized hint; when that text does not parse, it
    is the original text. *)
Theorem C9_api_error_rejects :
  forall (pre post : list ClaudeCodeMessage) (m : AssistantMessage)
         (sr text : string) (rest : list ContentBlock),
    completion (createMessage host pre) = Done ->
    stop_reason m = Some sr ->
    content m = TextBlock text :: rest ->
    startsWith "API Error" text = true ->
    let run := createMessage host (pre ++ Assistant m :: post) in
    let payload := slice (indexOf "{"%char text) text in
    (exists e, completion run = Rejected e) /\
    yielded run = yielded (createMessage host pre) /\
    (forall fields efields message,
       JSON_parse host payload = Ok (JObject fields) ->
       own fields "error" = Some (JObject efields) ->
       own efields "message" = Some (JString message) ->
       includes "Invalid model name" message = true ->
       completion run = Rejected (Error (text ++ newline ++ newline ++ t host hintKey))) /\
    (forall e, JSON_parse host payload = Throw e ->
       completion run = Rejected (Error text)).
Proof.
  intros pre post m sr text rest Hdone Hs Hc Hp. cbv zeta. unfold createMessage in *.
  split; [|split; [|split]].
  - destruct (apiError_some m sr text rest Hs Hc Hp) as (e & He).
    exists e. now apply loop_throws.
  - destruct (apiError_some m sr text rest Hs Hc Hp) as (e & He).
    now apply (loop_throws pre post m e).
  - intros fields efields message Hparse Herr Hmsg Hinc.
    apply loop_throws; [exact Hdone|].
    unfold apiError, attemptParse. rewrite Hs, Hc, Hp, Hparse.
    cbn [truthy negb]. unfold mentionsInvalidModel. cbn [field].
    rewrite Herr. cbn [get rbind field]. rewrite Hmsg.
    cbn [nullish call_includes]. now rewrite Hinc.
  - intros e Hparse.
    apply loop_throws; [exact Hdone|].
    unfold apiError, attemptParse. now rewrite Hs, Hc, Hp, Hparse.
Qed.

(** The counters of the usage object are the sums over every assistant
    message of the stream, as long as no message threw and the counts
    stay among the integers that JavaScript numbers add exactly (the
    code adds doubles, which round beyond 2^53). *)
Theorem tokens_accumulate_over_all_assistant_messages :
  forall stream : list ClaudeCodeMessage,
    completion (createMessage host stream) = Done ->
    countersAreExact stream ->
    let u := usageSoFar (final (createMessage host stream)) in
    inputTokens u = sumOver input_tokens stream /\
    outputTokens u = sumOver output_tokens stream /\
    cacheReadTokens u = sumOver (fun m => orZero (cache_read_input_tokens m)) stream /\
    cacheWriteTokens u = sumOver (fun m => orZero (cache_creation_input_tokens m)) stream.
Proof.
  intros stream Hdone _. cbv zeta. unfold createMessage in *.
  rewrite (loop_usage stream _ input_tokens inputTokens) by (auto; reflexivity).
  rewrite (loop_usage stream _ output_tokens outputTokens) by (auto; reflexivity).
  rewrite (loop_usage stream _ (fun m => orZero (cache_read_input_tokens m))
             cacheReadTokens) by (auto; reflexivity).
  rewrite (loop_usage stream _ (fun m => orZero (cache_creation_input_tokens m))
             cacheWriteTokens) by (auto; reflexivity).
  repeat split; reflexivity.
Qed.

End WithHost.

Lemma tokens_accumulate_over_all_assistant_messages_witness :
  let stream :=
    [ Assistant (Samples.textMessage "a" None (Samples.usage4 10 20 5 3));
      RawText "b";
      Assistant (Samples.textMessage "c" None (Samples.usage2 1 2)) ] in
  let u := usageSoFar (final (createMessage (Samples.hostWith Samples.noEnvSettings) stream)) in
  inputTokens u = 11%Z /\ outputTokens u = 22%Z /\
  cacheReadTokens u = 5%Z /\ cacheWriteTokens u = 3%Z.
Proof.
  refine (tokens_accumulate_over_all_assistant_messages
            (Samples.hostWith Samples.noEnvSettings)
            [ Assistant (Samples.textMessage "a" None (Samples.usage4 10 20 5 3));
              RawText "b";
              Assistant (Samples.textMessage "c" None (Samples.usage2 1 2)) ]
            eq_refl _).
  repeat split; unfold withinSafeIntegers; cbn; lia.
Defined.

(** C2, on the stream of the subscription test: the result chunk reports
    0.05 and the usage chunk carries a cost of 0. *)
Lemma C2_cost_follows_apiKeySource_witness :
  let stream :=
    [ SystemInit "none";
      Assistant (Samples.textMessage "Hello there!" None (Samples.usage2 10 20));
      ResultMessage (Some "success") (5 # 100) ] in
  let u := {| inputTokens := 10; outputTokens := 20; cacheReadTokens := 0;
              cacheWriteTokens := 0; totalCost := Some 0%Q |} in
  completion (createMessage (Samples.hostWith Samples.noEnvSettings) stream) = Done /\
  yielded (createMessage (Samples.hostWith Samples.noEnvSettings) stream)
    = [TextChunk "Hello there!"; UsageChunk u] /\
  collected (createMessage (Samples.hostWith Samples.noEnvSettings) stream)
    = [TextChunk "Hello there!"; UsageChunk u].
Proof.
  exact (C2_cost_follows_apiKeySource (Samples.hostWith Samples.noEnvSettings)
           [] [Assistant (Samples.textMessage "Hello there!" None (Samples.usage2 10 20))]
           "none" "success" (5 # 100) eq_refl eq_refl).
Defined.

(** C9 as stated fails twice. An assistant message whose text begins with
    ["API Error"] but whose [stop_reason] is [null] is translated like any
    other: its text is yielded and the generator returns. And a message
    that does throw, and whose text contains ["Invalid model name"]
    outside a payload that parses, throws the text alone, without the
    hint. *)
Lemma C9_counterexample :
  startsWith "API Error" Samples.apiErrorText = true /\
  includes "Invalid model name" Samples.apiErrorText = true /\
  createMessage (Samples.hostWith Samples.noEnvSettings)
    [Assistant (Samples.textMessage Samples.apiErrorText None (Samples.usage2 10 20))]
  = {| yielded := [TextChunk Samples.apiErrorText]; logged := [];
       final := {| usageSoFar := {| inputTokens := 10; outputTokens := 20;
                                    cacheReadTokens := 0; cacheWriteTokens := 0;
                                    totalCost := None |};
                   isPaidUsage := true |};
       completion := Done |} /\
  completion (createMessage (Samples.hostWith Samples.noEnvSettings)
    [Assistant (Samples.textMessage "API Error: Invalid model name" (Some "end_turn")
                  (Samples.usage2 10 20))])
  = Rejected (Error "API Error: Invalid model name") /\
  includes (t (Samples.hostWith Samples.noEnvSettings) hintKey)
           "API Error: Invalid model name" = false.
Proof. repeat split; reflexivity. Qed.

(** C9, on the message of the handler's API-error test. *)
Lemma C9_api_error_rejects_witness :
  completion (createMessage (Samples.hostWith Samples.noEnvSettings)
    [Assistant (Samples.textMessage Samples.apiErrorText (Some "stop_sequence")
                  (Samples.usage2 10 20))])
  = Rejected (Error (Samples.apiErrorText ++ newline ++ newline
                     ++ "Check that the model matches your plan.")).
Proof.
  exact (proj1 (proj2 (proj2 (C9_api_error_rejects (Samples.hostWith Samples.noEnvSettings)
    [] [] (Samples.textMessage Samples.apiErrorText (Some "stop_sequence")
             (Samples.usage2 10 20))
    "stop_sequence" Samples.apiErrorText [] eq_refl eq_refl eq_refl eq_refl)))
    [("error", JObject [("message", JString "Invalid model name")])]
    [("message", JString "Invalid model name")]
    "Invalid model name" eq_refl eq_refl eq_refl eq_refl).
Defined.

End StreamFacts.

(* ================================================================== *)
(** * Properties: provider detection and model selection *)
(* ================================================================== *)

Module DetectionFacts.
Import JsString JsObject Js ClaudeCode Spec.





Section WithTables.
Variable T : ModelTables.
Variable host : Host.





Lemma selectClaudeModel_id (o : ApiHandlerOptions) :
  fst (selectClaudeModel T o) =
  Some (JString match apiModelId o with
                | Some s => if nonempty s && js_in s (claudeCodeModels T) then s
                            else claudeCodeDefaultModelId T
                | None => claudeCodeDefaultModelId T
                end).
Proof.
  unfold selectClaudeModel.
  destruct (apiModelId o) as [s|].
  - destruct (nonempty s); cbn [andb].
    + destruct (js_in s (claudeCodeModels T)); reflexivity.
    + destruct (js_in (claudeCodeDefaultModelId T) (claudeCodeModels T)); reflexivity.
  - destruct (js_in (claudeCodeDefaultModelId T) (claudeCodeModels T)); reflexivity.
Qed.


End WithTables.



End DetectionFacts.

(* ================================================================== *)
(** * Further properties: key formatting *)
(* ================================================================== *)

Module FormatMore.
Import JsString JsObject Keybindings Spec.

Lemma lower_upper_char (c : ascii) : lower_char (upper_char c) = lower_char c.
Proof. destruct c as [[] [] [] [] [] [] [] []]; reflexivity. Qed.

Lemma toLowerCase_toUpperCase (s : string) : toLowerCase (toUpperCase s) = toLowerCase s.
Proof.
  unfold toLowerCase, toUpperCase. induction s as [|c s IH]; cbn; [reflexivity|].
  now rewrite lower_upper_char, IH.
Qed.

Lemma upper_char_space (c : ascii) : Ascii.eqb (upper_char c) " " = Ascii.eqb c " ".
Proof. destruct c as [[] [] [] [] [] [] [] []]; reflexivity. Qed.

Lemma upper_char_plus (c : ascii) : Ascii.eqb (upper_char c) "+" = Ascii.eqb c "+".
Proof. destruct c as [[] [] [] [] [] [] [] []]; reflexivity. Qed.

Lemma lower_char_space (c : ascii) : Ascii.eqb (lower_char c) " " = Ascii.eqb c " ".
Proof. destruct c as [[] [] [] [] [] [] [] []]; reflexivity. Qed.

Lemma lower_char_plus (c : ascii) : Ascii.eqb (lower_char c) "+" = Ascii.eqb c "+".
Proof. destruct c as [[] [] [] [] [] [] [] []]; reflexivity. Qed.

(** Splitting commutes with a character map that leaves the separator
    alone. *)
Lemma split_map_chars (f : ascii -> ascii) (sep : ascii) (s : string) :
  (forall c, Ascii.eqb (f c) sep = Ascii.eqb c sep) ->
  split sep (map_chars f s) = map (map_chars f) (split sep s).
Proof.
  intros Hf. induction s as [|c s IH]; [reflexivity|].
  cbn [map_chars split]. rewrite Hf, IH.
  destruct (Ascii.eqb c sep); [reflexivity|].
  destruct (split sep s); reflexivity.
Qed.

Lemma nonempty_map_chars (f : ascii -> ascii) (s : string) :
  nonempty (map_chars f s) = nonempty s.
Proof. destruct s; reflexivity. Qed.

Lemma filter_nonempty_map_chars (f : ascii -> ascii) (l : list string) :
  filter nonempty (map (map_chars f) l) = map (map_chars f) (filter nonempty l).
Proof.
  induction l as [|x l IH]; [reflexivity|].
  cbn [map filter]. rewrite nonempty_map_chars, IH.
  destruct (nonempty x); reflexivity.
Qed.

Lemma normalizeKeyToken_cased (f : ascii -> ascii) (token platform : string) :
  toLowerCase (map_chars f token) = toLowerCase token ->
  normalizeKeyToken (map_chars f token) platform = normalizeKeyToken token platform.
Proof. intros H. unfold normalizeKeyToken. now rewrite H. Qed.

Lemma prettyPrintKey_cased (f : ascii -> ascii) (rawKey platform : string) :
  (forall c, Ascii.eqb (f c) " " = Ascii.eqb c " ") ->
  (forall c, Ascii.eqb (f c) "+" = Ascii.eqb c "+") ->
  (forall s, toLowerCase (map_chars f s) = toLowerCase s) ->
  prettyPrintKey (map_chars f rawKey) platform = prettyPrintKey rawKey platform.
Proof.
  intros Hsp Hpl Hlow. rewrite !FormatFacts.prettyPrintKey_join.
  rewrite (split_map_chars f " " rawKey Hsp), filter_nonempty_map_chars, map_map.
  f_equal. apply map_ext. intros chord. unfold formatChord.
  rewrite (split_map_chars f "+" chord Hpl), map_map.
  f_equal. apply map_ext. intros part. f_equal.
  now apply normalizeKeyToken_cased.
Qed.

(** The label of an ASCII key string does not depend on the case in which
    the string is written. *)
Theorem prettyPrintKey_ignores_case :
  forall rawKey platform : string,
    isAscii rawKey = true ->
    prettyPrintKey (toUpperCase rawKey) platform = prettyPrintKey rawKey platform /\
    prettyPrintKey (toLowerCase rawKey) platform = prettyPrintKey rawKey platform.
Proof.
  intros rawKey platform _. split.
  - apply prettyPrintKey_cased;
      [exact upper_char_space | exact upper_char_plus | exact toLowerCase_toUpperCase].
  - apply prettyPrintKey_cased;
      [exact lower_char_space | exact lower_char_plus | exact FormatFacts.toLowerCase_idem].
Qed.

Lemma prettyPrintKey_ignores_case_witness :
  prettyPrintKey "CTRL+K CTRL+S" "linux" = prettyPrintKey "Ctrl+k ctrl+S" "linux" /\
  prettyPrintKey "ctrl+k ctrl+s" "linux" = prettyPrintKey "Ctrl+k ctrl+S" "linux".
Proof.
  exact (prettyPrintKey_ignores_case "Ctrl+k ctrl+S" "linux" eq_refl).
Defined.

Lemma split_not_nil (sep : ascii) (s : string) : split sep s <> [].
Proof.
  destruct s as [|c s]; cbn; [discriminate|].
  destruct (Ascii.eqb c sep); [discriminate|].
  destruct (split sep s); discriminate.
Qed.

(** A string without the separator is its own single piece. *)
Lemma split_single (sep : ascii) (s x : string) : split sep s = [x] -> x = s.
Proof.
  revert x. induction s as [|c s IH]; intros x; cbn.
  - intros H. now injection H as <-.
  - destruct (Ascii.eqb c sep).
    + intros H. injection H as _ H. now apply split_not_nil in H.
    + destruct (split sep s) as [|h r] eqn:E; [now apply split_not_nil in E|].
      intros H. injection H as <- ->. now rewrite (IH h eq_refl).
Qed.

Lemma nonempty_append_l (a b : string) : nonempty a = true -> nonempty (a ++ b) = true.
Proof. destruct a; [discriminate|reflexivity]. Qed.

Lemma nonempty_append_r (a b : string) : nonempty b = true -> nonempty (a ++ b) = true.
Proof. destruct a; [now cbn|reflexivity]. Qed.

Lemma concat_head_nonempty (sep x : string) (l : list string) :
  nonempty x = true -> nonempty (String.concat sep (x :: l)) = true.
Proof.
  intros H. destruct l; cbn [String.concat]; [exact H|now apply nonempty_append_l].
Qed.

Lemma concat_two_nonempty (sep a b : string) (l : list string) :
  nonempty sep = true -> nonempty (String.concat sep (a :: b :: l)) = true.
Proof.
  intros H. cbn [String.concat]. apply nonempty_append_r. now apply nonempty_append_l.
Qed.

Lemma own_value_nonempty (t : list (string * string)) (k v : string) :
  forallb (fun e => nonempty (snd e)) t = true ->
  own t k = Some v -> nonempty v = true.
Proof.
  induction t as [|[k' v'] t IH]; cbn; [discriminate|].
  intros H. apply andb_true_iff in H. destruct H as [Hv Ht].
  destruct (String.eqb k k'); [|now apply IH].
  intros E. now injection E as <-.
Qed.

Lemma table_get_nonempty (t : list (string * string)) (k : string) :
  forallb (fun e => nonempty (snd e)) t = true ->
  js_in k t = true ->
  nonempty (toString (table_get t k)) = true.
Proof.
  intros Ht Hin. unfold table_get, js_in, has_own in *.
  destruct (own t k) as [v|] eqn:E.
  - now apply (own_value_nonempty t k v).
  - rewrite orb_false_l in Hin. rewrite Hin. cbn [toString].
    destruct (String.eqb k "__proto__"); reflexivity.
Qed.

Lemma toUpperCase_nonempty (s : string) : nonempty (toUpperCase s) = nonempty s.
Proof. apply nonempty_map_chars. Qed.

Lemma toLowerCase_nonempty (s : string) : nonempty (toLowerCase s) = nonempty s.
Proof. apply nonempty_map_chars. Qed.

(** A token that is not empty is never rendered as nothing. *)
Lemma token_label_nonempty (token platform : string) :
  nonempty token = true ->
  nonempty (toString (normalizeKeyToken token platform)) = true.
Proof.
  intros H. unfold normalizeKeyToken.
  assert (Hn : nonempty (toLowerCase token) = true) by now rewrite toLowerCase_nonempty.
  set (normalized := toLowerCase token) in *.
  set (m := if String.eqb platform "darwin" then macModifiers else winLinuxModifiers).
  assert (Hm : forallb (fun e => nonempty (snd e)) m = true)
    by (subst m; destruct (String.eqb platform "darwin"); reflexivity).
  destruct (js_in normalized m) eqn:E1; [now apply table_get_nonempty|].
  destruct (js_in normalized specialKeys) eqn:E2;
    [now apply table_get_nonempty|].
  destruct (is_function_key normalized); [cbn; now rewrite toUpperCase_nonempty|].
  destruct (String.length normalized =? 1)%nat; [cbn; now rewrite toUpperCase_nonempty|].
  cbn [toString]. apply nonempty_append_l. rewrite toUpperCase_nonempty.
  destruct normalized; [discriminate|reflexivity].
Qed.

Lemma formatChord_nonempty (platform chord : string) :
  nonempty chord = true -> nonempty (formatChord platform chord) = true.
Proof.
  intros H. unfold formatChord, join.
  destruct (split "+" chord) as [|x [|y r]] eqn:E.
  - now apply split_not_nil in E.
  - apply split_single in E. subst x. cbn. now apply token_label_nonempty.
  - cbn [map]. now apply concat_two_nonempty.
Qed.

(** A key string has no chord exactly when it is made of spaces. *)
Lemma chords_nil_iff (rawKey : string) :
  filter nonempty (split " " rawKey) = [] <-> onlySpaces rawKey = true.
Proof.
  induction rawKey as [|c s IH]; cbn [split onlySpaces].
  - cbn. tauto.
  - destruct (Ascii.eqb c " "); cbn [filter nonempty andb].
    + exact IH.
    + destruct (split " " s) as [|h r]; cbn; split; discriminate.
Qed.

Lemma filter_nonempty_head (l : list string) (x : string) (r : list string) :
  filter nonempty l = x :: r -> nonempty x = true.
Proof.
  intros H. assert (Hin : In x (filter nonempty l)) by (rewrite H; now left).
  now apply filter_In in Hin.
Qed.

Lemma label_empty_iff (rawKey platform : string) :
  prettyPrintKey rawKey platform = "" <-> onlySpaces rawKey = true.
Proof.
  rewrite FormatFacts.prettyPrintKey_join, <- chords_nil_iff.
  destruct (filter nonempty (split " " rawKey)) as [|c cs] eqn:E.
  - cbn. tauto.
  - split; [|discriminate].
    intros H. exfalso.
    pose proof (formatChord_nonempty platform c (filter_nonempty_head _ _ _ E)) as Hc.
    pose proof (concat_head_nonempty ", " _ (map (formatChord platform) cs) Hc) as Hj.
    unfold join in H. cbn [map] in H. rewrite H in Hj. discriminate.
Qed.

(** The label is empty exactly when the key string holds no chord, that
    is, when it is empty or made of spaces. *)
Theorem prettyPrintKey_empty_iff_blank :
  forall rawKey platform : string,
    prettyPrintKey rawKey platform = "" <-> onlySpaces rawKey = true.
Proof. exact label_empty_iff. Qed.

Lemma trimStart_head (s : string) :
  match trimStart s with
  | EmptyString => True
  | String c _ => is_space c = false
  end.
Proof.
  induction s as [|c s IH]; cbn; [exact I|].
  destruct (is_space c) eqn:E; [exact IH|exact E].
Qed.

Lemma trimEnd_head (c : ascii) (s : string) :
  trimEnd (String c s) = "" \/ exists s', trimEnd (String c s) = String c s'.
Proof.
  cbn. destruct (trimEnd s).
  - destruct (is_space c); [now left|right; now eexists].
  - right. now eexists.
Qed.

(** A key that is not empty once trimmed holds a chord. *)
Lemma trim_not_blank (s : string) :
  nonempty (trim s) = true -> onlySpaces (trim s) = false.
Proof.
  unfold trim. pose proof (trimStart_head s) as Hh.
  destruct (trimStart s) as [|c r]; [discriminate|].
  destruct (trimEnd_head c r) as [->|(s' & ->)]; [discriminate|].
  intros _. cbn. destruct c as [[] [] [] [] [] [] [] []]; try reflexivity; discriminate.
Qed.

End FormatMore.

(* ================================================================== *)
(** * Further properties: label resolution *)
(* ================================================================== *)

Module ResolveMore.
Import JsString JsObject Js Keybindings Resolve VscodeConfig Labels Spec.

(** A label is always made of a key that is not empty once trimmed. *)
Lemma labelOf_some (u d : option json) (platform label : string) :
  labelOf u d platform = Ok (Some label) ->
  exists s, nonempty (trim s) = true /\ label = prettyPrintKey (trim s) platform.
Proof.
  unfold labelOf.
  destruct (if nullish (opt_get u "key") then opt_get d "key" else opt_get u "key")
    as [[| | |s| |]|]; cbn; try discriminate.
  destruct (nonempty (trim s)) eqn:E; [|discriminate].
  intros H. injection H as <-. now exists s.
Qed.

Lemma resolveWith_some (rules : list json) (contributed : json)
    (commandId platform label : string) :
  resolveWith rules contributed commandId platform = Ok (Some label) ->
  exists s, nonempty (trim s) = true /\ label = prettyPrintKey (trim s) platform.
Proof.
  unfold resolveWith.
  destruct (findFirstBindingForCommand rules commandId) as [u|]; [|discriminate].
  cbn [rbind]. destruct (findDefault contributed commandId) as [d|]; [|discriminate].
  cbn [rbind]. apply labelOf_some.
Qed.

(** Whatever the host, the rules and the defaults are, a label returned
    by [getCurrentKeybindingLabel] is not the empty string, and it never
    comes with a warning. *)
Theorem resolved_label_is_not_empty :
  forall (w : World) (commandId : string) (context : ExtensionContext) (n n' : nat)
         (label : string) (log : list Diagnostic),
    getCurrentKeybindingLabel w commandId context n = (Some label, log, n') ->
    label <> "" /\ log = [].
Proof.
  intros w commandId context n n' label log.
  unfold getCurrentKeybindingLabel, resolveLabel, bind, lift.
  destruct (readUserKeybindings w n) as [[rules|e] n1]; [|discriminate].
  destruct (resolveWith rules (getDefaultKeybindings context) commandId (platform w))
    as [[l|]|e] eqn:E; try discriminate.
  intros H. injection H as <- <- _. split; [|reflexivity].
  destruct (resolveWith_some _ _ _ _ _ E) as (s & Hs & ->).
  intros Hempty. apply FormatMore.label_empty_iff in Hempty.
  now rewrite (FormatMore.trim_not_blank s Hs) in Hempty.
Qed.

Lemma resolved_label_is_not_empty_witness :
  "Ctrl+Shift+I" <> "" /\ @nil Diagnostic = [].
Proof.
  exact (resolved_label_is_not_empty
           (Samples.desktop (JArray [Samples.rule "  cmd+shift+i " Samples.commandX]))
           Samples.commandX Samples.context 0%nat 6%nat "Ctrl+Shift+I" [] eq_refl).
Defined.

(** The search stops at the first matching rule: what follows it is not
    looked at. *)
Lemma find_first {A} (p : A -> result bool) (pre post : list A) (e : A) :
  (forall x, In x pre -> p x = Ok false) ->
  p e = Ok true ->
  Js.find p (pre ++ e :: post) = Ok (Some e).
Proof.
  intros Hpre He. induction pre as [|x pre IH]; cbn.
  - now rewrite He.
  - rewrite (Hpre x (or_introl eq_refl)). apply IH.
    intros y Hy. apply Hpre. now right.
Qed.

Lemma findFirst_stops (pre post : list json) (e : json) (commandId : string) :
  forallb isEntry pre = true ->
  forallb (fun x => negb (overrides commandId x)) pre = true ->
  isEntry e = true ->
  overrides commandId e = true ->
  findFirstBindingForCommand (pre ++ e :: post) commandId = Ok (Some e).
Proof.
  intros Hty Hno He Hov. unfold findFirstBindingForCommand. apply find_first.
  - intros x Hx.
    rewrite (ResolveFacts.userRuleMatches_entry commandId x)
      by now apply (ResolveFacts.forallb_In _ _ Hty).
    f_equal. apply negb_true_iff. now apply (ResolveFacts.forallb_In _ _ Hno).
  - rewrite (ResolveFacts.userRuleMatches_entry commandId e He). now rewrite Hov.
Qed.

(** Once a well-typed user rule overrides the command, the rules declared
    after it have no effect on the outcome, whatever they are (a second
    override, an entry that is not even an object). *)
Theorem later_user_rules_are_ignored :
  forall (pre post post' : list json) (e contributed : json)
         (commandId platform : string),
    forallb isEntry pre = true ->
    forallb (fun x => negb (overrides commandId x)) pre = true ->
    isEntry e = true ->
    overrides commandId e = true ->
    resolveWith (pre ++ e :: post) contributed commandId platform =
    resolveWith (pre ++ e :: post') contributed commandId platform.
Proof.
  intros pre post post' e contributed commandId platform Hty Hno He Hov.
  unfold resolveWith.
  now rewrite !(findFirst_stops pre _ e commandId Hty Hno He Hov).
Qed.

Lemma later_user_rules_are_ignored_witness :
  resolveWith [Samples.rule "f1" "other.command";
               Samples.rule "cmd+shift+i" Samples.commandX;
               JNull; Samples.rule "cmd+k" Samples.commandX]
              (getDefaultKeybindings Samples.context) Samples.commandX "darwin"
  = resolveWith [Samples.rule "f1" "other.command";
                 Samples.rule "cmd+shift+i" Samples.commandX]
                (getDefaultKeybindings Samples.context) Samples.commandX "darwin".
Proof.
  exact (later_user_rules_are_ignored
           [Samples.rule "f1" "other.command"]
           [JNull; Samples.rule "cmd+k" Samples.commandX] []
           (Samples.rule "cmd+shift+i" Samples.commandX)
           (getDefaultKeybindings Samples.context) Samples.commandX "darwin"
           eq_refl eq_refl eq_refl eq_refl).
Defined.

End ResolveMore.

(* ================================================================== *)
(** * Further properties: a host that does not change *)
(* ================================================================== *)

Module QuietHost.
Import JsString JsObject Js Keybindings Resolve VscodeConfig Labels Spec.

Lemma clockFree_ret {A} (a : A) : clockFree (ret a).
Proof. intros n m. reflexivity. Qed.

Lemma clockFree_lift {A} (r : result A) : clockFree (lift r).
Proof. intros n m. reflexivity. Qed.

Lemma clockFree_await {A} (call : nat -> result A) :
  (forall n m, call n = call m) -> clockFree (await call).
Proof. intros H n m. cbn. apply H. Qed.

Lemma clockFree_bind {A B} (c : IO A) (k : A -> IO B) :
  clockFree c -> (forall a, clockFree (k a)) -> clockFree (bind c k).
Proof.
  intros Hc Hk n m. unfold bind. specialize (Hc n m).
  destruct (c n) as [[a|e] n1], (c m) as [[a'|e'] m1]; cbn in Hc;
    try discriminate Hc.
  - injection Hc as <-. apply Hk.
  - injection Hc as <-. reflexivity.
Qed.

Lemma clockFree_try_catch {A} (c : IO A) (handler : exn -> IO A) :
  clockFree c -> (forall e, clockFree (handler e)) -> clockFree (try_catch c handler).
Proof.
  intros Hc Hh n m. unfold try_catch. specialize (Hc n m).
  destruct (c n) as [[a|e] n1], (c m) as [[a'|e'] m1]; cbn in Hc;
    try discriminate Hc.
  - exact Hc.
  - injection Hc as <-. apply Hh.
Qed.

Section Quiet.
Variable w : World.
Hypothesis Hquiet : quiet w.

Lemma quiet_readdir (p : string) n m : readdir w n p = readdir w m p.
Proof. apply (Hquiet n m p). Qed.

Lemma quiet_stat (p : string) n m : stat w n p = stat w m p.
Proof. apply (Hquiet n m p). Qed.

Lemma quiet_readFile (p : string) n m : readFile w n p = readFile w m p.
Proof. apply (Hquiet n m p). Qed.

Lemma clockFree_filterExisting (candidates : list string) :
  clockFree (filterExisting w candidates).
Proof.
  induction candidates as [|p rest IH]; cbn [filterExisting].
  - apply clockFree_ret.
  - apply clockFree_bind.
    + apply clockFree_try_catch.
      * apply clockFree_bind; [apply clockFree_await; apply quiet_stat|].
        intros st. apply clockFree_ret.
      * intros e. apply clockFree_ret.
    + intros keep. apply clockFree_bind; [exact IH|]. intros ex. apply clockFree_ret.
Qed.

Lemma statEach_quiet (paths : list string) (n m : nat) :
  fst (statEach w paths n) = fst (statEach w paths m).
Proof.
  revert n m. induction paths as [|p rest IH]; intros n m; [reflexivity|].
  cbn [statEach]. specialize (IH (S n) (S m)).
  destruct (statEach w rest (S n)), (statEach w rest (S m)). cbn [fst] in *.
  now rewrite (quiet_stat p n m), IH.
Qed.

Lemma clockFree_statAll (paths : list string) : clockFree (statAll w paths).
Proof.
  intros n m. unfold statAll. pose proof (statEach_quiet paths n m) as H.
  destruct (statEach w paths n), (statEach w paths m). cbn [fst] in *. now rewrite H.
Qed.

Lemma clockFree_enumerate (userDir : string) :
  clockFree (enumerateProfileKeybindings w userDir).
Proof.
  unfold enumerateProfileKeybindings. apply clockFree_bind.
  - apply clockFree_try_catch.
    + apply clockFree_bind; [apply clockFree_await; apply quiet_readdir|].
      intros entries. apply clockFree_ret.
    + intros e. apply clockFree_ret.
  - intros candidates. apply clockFree_bind; [apply clockFree_filterExisting|].
    intros existing. destruct (1 <? List.length existing)%nat.
    + apply clockFree_bind; [apply clockFree_statAll|]. intros stats. apply clockFree_ret.
    + apply clockFree_ret.
Qed.

Lemma clockFree_readJSON5File (filePath : string) : clockFree (readJSON5File w filePath).
Proof.
  unfold readJSON5File. apply clockFree_try_catch.
  - apply clockFree_bind; [apply clockFree_await; apply quiet_readFile|].
    intros text. apply clockFree_lift.
  - intros e. apply clockFree_ret.
Qed.

Lemma clockFree_firstRuleSet (candidates : list string) :
  clockFree (firstRuleSet w candidates).
Proof.
  induction candidates as [|p rest IH]; cbn [firstRuleSet].
  - apply clockFree_ret.
  - apply clockFree_bind; [apply clockFree_readJSON5File|].
    intros rules. destruct rules; try exact IH. apply clockFree_ret.
Qed.

Lemma clockFree_readUserKeybindings : clockFree (readUserKeybindings w).
Proof.
  unfold readUserKeybindings. destruct (negb (canReadLocalKeybindings w)).
  - apply clockFree_ret.
  - apply clockFree_bind.
    + unfold getKeybindingsCandidates. destruct (isCodeServer w); apply clockFree_enumerate.
    + intros candidates. apply clockFree_firstRuleSet.
Qed.

(** On a quiet host a command resolves to the same label and the same
    warning whenever it is asked for. *)
Lemma label_any_time (commandId : string) (context : ExtensionContext) (n m : nat) :
  fst (getCurrentKeybindingLabel w commandId context n) =
  fst (getCurrentKeybindingLabel w commandId context m).
Proof.
  unfold getCurrentKeybindingLabel.
  assert (H : clockFree (resolveLabel w commandId context)).
  { unfold resolveLabel. apply clockFree_bind; [apply clockFree_readUserKeybindings|].
    intros rules. apply clockFree_lift. }
  specialize (H n m).
  destruct (resolveLabel w commandId context n) as [[l|e] n1],
           (resolveLabel w commandId context m) as [[l'|e'] m1]; cbn in H;
    try discriminate H; now injection H as <-.
Qed.

End Quiet.

Lemma own_overwrite (r : LabelRecord) (k id : string) (v : option string) :
  has_own r k = true ->
  own (overwrite r k v) id = if String.eqb id k then Some v else own r id.
Proof.
  unfold has_own. induction r as [|[k' v'] r IH]; cbn; [discriminate|].
  destruct (String.eqb k k') eqn:E.
  - apply String.eqb_eq in E. subst k'. intros _. cbn.
    destruct (String.eqb id k); reflexivity.
  - intros H. cbn. destruct (String.eqb id k') eqn:E'.
    + apply String.eqb_eq in E'. subst k'.
      destruct (String.eqb id k) eqn:E''; [|reflexivity].
      apply String.eqb_eq in E''. subst k. now rewrite String.eqb_refl in E.
    + now apply IH.
Qed.

Lemma own_append (r : LabelRecord) (k id : string) (v : option string) :
  has_own r k = false ->
  own (r ++ [(k, v)]) id = if String.eqb id k then Some v else own r id.
Proof.
  unfold has_own. induction r as [|[k' v'] r IH]; cbn.
  - intros _. destruct (String.eqb id k); reflexivity.
  - destruct (String.eqb k k') eqn:E; [discriminate|].
    intros H. destruct (String.eqb id k') eqn:E'.
    + apply String.eqb_eq in E'. subst k'.
      destruct (String.eqb id k) eqn:E''; [|reflexivity].
      apply String.eqb_eq in E''. subst k. now rewrite String.eqb_refl in E.
    + now apply IH.
Qed.

(** Reading back what [result[k] = v] stored. *)
Lemma own_assign (r : LabelRecord) (k id : string) (v : option string) :
  k <> "__proto__" ->
  own (assign r k v) id = if String.eqb id k then Some v else own r id.
Proof.
  intros Hk. unfold assign.
  destruct (String.eqb k "__proto__") eqn:E; [apply String.eqb_eq in E; contradiction|].
  destruct (has_own r k) eqn:Ho; [now apply own_overwrite|now apply own_append].
Qed.

Lemma own_labelsLoop (w : World) (context : ExtensionContext) (id : string) :
  quiet w ->
  id <> "__proto__" ->
  forall (commandIds : list string) (r : LabelRecord) (n : nat),
    own (fst (fst (labelsLoop w commandIds context r n))) id =
    if existsb (String.eqb id) commandIds
    then Some (fst (fst (getCurrentKeybindingLabel w id context 0%nat)))
    else own r id.
Proof.
  intros Hq Hid. induction commandIds as [|c cs IH]; intros r n; [reflexivity|].
  cbn [labelsLoop existsb].
  pose proof (label_any_time w Hq c context n 0%nat) as Hl.
  destruct (getCurrentKeybindingLabel w c context n) as [[label log] n1].
  specialize (IH (assign r c label) n1).
  destruct (labelsLoop w cs context (assign r c label) n1) as [[r' log'] n2].
  cbn [fst] in *. rewrite IH.
  destruct (existsb (String.eqb id) cs); [now rewrite orb_true_r|].
  rewrite orb_false_r.
  destruct (String.eqb c "__proto__") eqn:Ec.
  - apply String.eqb_eq in Ec. subst c. unfold assign. cbn.
    destruct (String.eqb id "__proto__") eqn:E; [|reflexivity].
    apply String.eqb_eq in E. contradiction.
  - rewrite own_assign by (intros ->; discriminate Ec).
    destruct (String.eqb id c) eqn:E; [|reflexivity].
    apply String.eqb_eq in E. subst c. now rewrite <- Hl.
Qed.

(** On a quiet host the batch resolver maps every requested id other than
    ["__proto__"] to the label the single resolver gives for it, also
    when the id is requested more than once. *)
Theorem batch_maps_each_id_to_its_label :
  forall (w : World) (context : ExtensionContext) (commandIds : list string)
         (n m : nat) (id : string),
    quiet w ->
    In id commandIds ->
    id <> "__proto__" ->
    own (fst (fst (getKeybindingLabels w commandIds context n))) id =
    Some (fst (fst (getCurrentKeybindingLabel w id context m))).
Proof.
  intros w context commandIds n m id Hq Hin Hid. unfold getKeybindingLabels.
  rewrite (own_labelsLoop w context id Hq Hid commandIds [] n).
  assert (E : existsb (String.eqb id) commandIds = true).
  { apply existsb_exists. exists id. split; [exact Hin|apply String.eqb_refl]. }
  rewrite E. now rewrite (label_any_time w Hq id context m 0%nat).
Qed.

Lemma batch_maps_each_id_to_its_label_witness :
  own (fst (fst (getKeybindingLabels (Samples.desktop (JArray []))
                   [Samples.commandX; "unknown.command"; Samples.commandX]
                   Samples.context 0%nat))) Samples.commandX
  = Some (Some "Ctrl+I").
Proof.
  refine (batch_maps_each_id_to_its_label (Samples.desktop (JArray [])) Samples.context
            [Samples.commandX; "unknown.command"; Samples.commandX] 0%nat 3%nat
            Samples.commandX _ _ _).
  - intros n m p. repeat split; reflexivity.
  - left. reflexivity.
  - intros H. discriminate H.
Defined.

End QuietHost.

(* ================================================================== *)
(** * Further properties: the candidate files *)
(* ================================================================== *)

Module ConfigMore.
Import JsString Js VscodeConfig Spec.

(** ** The sort by modification time *)

Lemma insertByMtime_perm (x : string * Stats) (l : list (string * Stats)) :
  Permutation (insertByMtime x l) (x :: l).
Proof.
  induction l as [|y l IH]; cbn; [apply Permutation_refl|].
  destruct (Qle_bool (mtimeMs (snd y)) (mtimeMs (snd x))); [apply Permutation_refl|].
  eapply Permutation_trans; [apply perm_skip, IH|apply perm_swap].
Qed.

Lemma sortByMtime_perm (l : list (string * Stats)) : Permutation (sortByMtime l) l.
Proof.
  induction l as [|x l IH]; cbn; [apply Permutation_refl|].
  eapply Permutation_trans; [apply insertByMtime_perm|now apply perm_skip].
Qed.

Lemma newerFirst_trans (a b c : string * Stats) :
  newerFirst a b -> newerFirst b c -> newerFirst a c.
Proof. unfold newerFirst. intros H1 H2. eapply Qle_trans; eassumption. Qed.

Lemma insertByMtime_sorted (x : string * Stats) (l : list (string * Stats)) :
  StronglySorted newerFirst l -> StronglySorted newerFirst (insertByMtime x l).
Proof.
  induction l as [|y l IH]; intros Hs; cbn.
  - constructor; constructor.
  - inversion Hs as [|? ? Hl Hy]; subst.
    destruct (Qle_bool (mtimeMs (snd y)) (mtimeMs (snd x))) eqn:E.
    + apply Qle_bool_iff in E. constructor; [exact Hs|].
      constructor; [exact E|].
      eapply Forall_impl; [|exact Hy]. intros z Hz.
      now apply (newerFirst_trans x y z).
    + assert (Hxy : newerFirst y x).
      { unfold newerFirst. apply Qlt_le_weak, Qnot_le_lt.
        intros H. apply Qle_bool_iff in H. rewrite H in E. discriminate. }
      constructor; [now apply IH|].
      eapply Permutation_Forall; [apply Permutation_sym, insertByMtime_perm|].
      now constructor.
Qed.

Lemma sortByMtime_sorted (l : list (string * Stats)) :
  StronglySorted newerFirst (sortByMtime l).
Proof.
  induction l as [|x l IH]; cbn; [constructor|now apply insertByMtime_sorted].
Qed.

(** ** What the enumeration returns *)

Section WithWorld.
Variable w : World.

Lemma filterExisting_files (candidates : list string) (n : nat) :
  exists existing n',
    filterExisting w candidates n = (Ok existing, n') /\
    forall p, In p existing -> seenAsFile w p /\ In p candidates.
Proof.
  revert n. induction candidates as [|p rest IH]; intros n.
  - exists [], n. split; [reflexivity|]. intros p [].
  - cbn [filterExisting]. unfold bind at 1, try_catch, await, bind, ret.
    destruct (IH (S n)) as (ex & n' & Hex & Hall).
    destruct (stat w n p) as [st|e] eqn:Hst.
    + unfold bind. rewrite Hex. destruct (isFile st) eqn:Hf.
      * exists (p :: ex), n'. split; [reflexivity|].
        intros q [<-|Hq].
        -- split; [now exists n, st|now left].
        -- destruct (Hall q Hq). split; [assumption|now right].
      * exists ex, n'. split; [reflexivity|].
        intros q Hq. destruct (Hall q Hq). split; [assumption|now right].
    + unfold bind. rewrite Hex. exists ex, n'. split; [reflexivity|].
      intros q Hq. destruct (Hall q Hq). split; [assumption|now right].
Qed.

(** The second pass pairs every path with what [stat] answered for it. *)
Lemma statEach_pairs (paths : list string) (n : nat) (stats : list (string * Stats)) :
  allOf (fst (statEach w paths n)) = Ok stats ->
  map fst stats = paths /\
  Forall (fun x => exists m, stat w m (fst x) = Ok (snd x)) stats.
Proof.
  revert n stats. induction paths as [|p rest IH]; intros n stats; cbn [statEach].
  - cbn. intros H. injection H as <-. split; [reflexivity|constructor].
  - specialize (IH (S n)). destruct (statEach w rest (S n)) as [rs n1]. cbn [fst] in *.
    destruct (stat w n p) as [st|e] eqn:Hst; cbn [allOf]; [|discriminate].
    destruct (allOf rs) as [l|e]; cbn [rbind]; [|discriminate].
    intros H. injection H as <-. destruct (IH l eq_refl) as [Hm Hf].
    split; [cbn; now rewrite Hm|].
    constructor; [now exists n|exact Hf].
Qed.

Lemma statAll_pairs (paths : list string) (n n' : nat) (stats : list (string * Stats)) :
  statAll w paths n = (Ok stats, n') ->
  map fst stats = paths /\
  Forall (fun x => exists m, stat w m (fst x) = Ok (snd x)) stats.
Proof.
  unfold statAll. pose proof (statEach_pairs paths n stats) as H.
  destruct (statEach w paths n) as [rs n1]. cbn [fst] in H.
  intros E. injection E as E _. now apply H.
Qed.

(** The two shapes a candidate path can have. *)
Lemma candidates_shape (userDir : string) (n n1 : nat) (candidates : list string) :
  try_catch
    (bind (await (fun n0 => readdir w n0 (path_join w [userDir; "profiles"])))
       (fun entries =>
          ret (path_join w [userDir; "keybindings.json"]
               :: map (fun e => path_join w [path_join w [userDir; "profiles"]; name e;
                                             "keybindings.json"])
                      (filter isDirectory entries))))
    (fun _ => ret [path_join w [userDir; "keybindings.json"]]) n = (Ok candidates, n1) ->
  forall p, In p candidates ->
    p = path_join w [userDir; "keybindings.json"] \/
    exists profile,
      p = path_join w [path_join w [userDir; "profiles"]; profile; "keybindings.json"].
Proof.
  unfold try_catch, bind, await, ret.
  destruct (readdir w n (path_join w [userDir; "profiles"])) as [entries|e];
    intros H; injection H as <- _; intros p [<-|Hin]; try (now left); try contradiction.
  right. apply in_map_iff in Hin. destruct Hin as (e & <- & _). now exists (name e).
Qed.

Lemma enumerate_cases (userDir : string) (n n' : nat) (paths : list string) :
  enumerateProfileKeybindings w userDir n = (Ok paths, n') ->
  exists candidates existing stats,
    (forall p, In p candidates ->
       p = path_join w [userDir; "keybindings.json"] \/
       exists profile,
         p = path_join w [path_join w [userDir; "profiles"]; profile; "keybindings.json"]) /\
    (forall p, In p existing -> seenAsFile w p /\ In p candidates) /\
    ((paths = existing /\ (List.length existing <= 1)%nat) \/
     (paths = map fst (sortByMtime stats) /\ map fst stats = existing /\
      Forall (fun x => exists m, stat w m (fst x) = Ok (snd x)) stats)).
Proof.
  unfold enumerateProfileKeybindings. unfold bind at 1.
  match goal with
  | |- context [try_catch ?b ?h n] =>
      destruct (try_catch b h n) as [[candidates|e] n1] eqn:Ec; [|discriminate]
  end.
  pose proof (candidates_shape userDir n n1 candidates Ec) as Hshape.
  unfold bind at 1.
  destruct (filterExisting_files candidates n1) as (existing & n2 & -> & Hex).
  destruct (1 <? List.length existing)%nat eqn:Hlen.
  - unfold bind, ret.
    destruct (statAll w existing n2) as [[stats|e] n3] eqn:Hs; [|discriminate].
    intros H. injection H as <- _.
    destruct (statAll_pairs existing n2 n3 stats Hs) as [Hm Hf].
    exists candidates, existing, stats. repeat split; try assumption.
    + now apply Hex.
    + now apply Hex.
    + right. repeat split; assumption.
  - unfold ret. intros H. injection H as <- _.
    exists candidates, existing, []. repeat split; try assumption.
    + now apply Hex.
    + now apply Hex.
    + left. split; [reflexivity|]. apply Nat.ltb_ge in Hlen. exact Hlen.
Qed.

(** Sorting does not invent or lose a path. *)
Lemma sorted_paths_In (stats : list (string * Stats)) (p : string) :
  In p (map fst (sortByMtime stats)) <-> In p (map fst stats).
Proof.
  split; apply Permutation_in, Permutation_map;
    [apply sortByMtime_perm|apply Permutation_sym, sortByMtime_perm].
Qed.

Lemma enumerate_files (userDir : string) (n n' : nat) (paths : list string) :
  enumerateProfileKeybindings w userDir n = (Ok paths, n') ->
  forall p, In p paths ->
    seenAsFile w p /\
    (p = path_join w [userDir; "keybindings.json"] \/
     exists profile,
       p = path_join w [path_join w [userDir; "profiles"]; profile; "keybindings.json"]).
Proof.
  intros H p Hin.
  destruct (enumerate_cases userDir n n' paths H)
    as (cands & ex & stats & Hshape & Hex & [[-> _]|(-> & Hm & _)]).
  - destruct (Hex p Hin). split; [assumption|now apply Hshape].
  - apply (proj1 (sorted_paths_In stats p)) in Hin. rewrite Hm in Hin.
    destruct (Hex p Hin). split; [assumption|now apply Hshape].
Qed.

(** A candidate is the top-level file or the file of a listed profile
    directory. *)
Lemma candidates_listed (userDir : string) (n n1 : nat) (candidates : list string) :
  try_catch
    (bind (await (fun n0 => readdir w n0 (path_join w [userDir; "profiles"])))
       (fun entries =>
          ret (path_join w [userDir; "keybindings.json"]
               :: map (fun e => path_join w [path_join w [userDir; "profiles"]; name e;
                                             "keybindings.json"])
                      (filter isDirectory entries))))
    (fun _ => ret [path_join w [userDir; "keybindings.json"]]) n = (Ok candidates, n1) ->
  forall p, In p candidates -> keybindingsFileOf w userDir p.
Proof.
  unfold try_catch, bind, await, ret.
  destruct (readdir w n (path_join w [userDir; "profiles"])) as [entries|e] eqn:Hr;
    intros H; injection H as <- _; intros p [<-|Hin]; try (now left); try contradiction.
  right. apply in_map_iff in Hin. destruct Hin as (e & <- & He).
  apply filter_In in He. destruct He as [He Hd].
  exists n, entries, e. repeat split; assumption.
Qed.

Lemma enumerate_listed (userDir : string) (n n' : nat) (paths : list string) :
  enumerateProfileKeybindings w userDir n = (Ok paths, n') ->
  forall p, In p paths -> seenAsFile w p /\ keybindingsFileOf w userDir p.
Proof.
  unfold enumerateProfileKeybindings. unfold bind at 1.
  match goal with
  | |- context [try_catch ?b ?h n] =>
      destruct (try_catch b h n) as [[candidates|e] n1] eqn:Ec; [|discriminate]
  end.
  pose proof (candidates_listed userDir n n1 candidates Ec) as Hshape.
  unfold bind at 1.
  destruct (filterExisting_files candidates n1) as (existing & n2 & -> & Hex).
  destruct (1 <? List.length existing)%nat eqn:Hlen.
  - unfold bind, ret.
    destruct (statAll w existing n2) as [[stats|e] n3] eqn:Hs; [|discriminate].
    intros H. injection H as <- _.
    destruct (statAll_pairs existing n2 n3 stats Hs) as [Hm _].
    intros p Hin. apply (proj1 (sorted_paths_In stats p)) in Hin. rewrite Hm in Hin.
    destruct (Hex p Hin). split; [assumption|now apply Hshape].
  - unfold ret. intros H. injection H as <- _. intros p Hin.
    destruct (Hex p Hin). split; [assumption|now apply Hshape].
Qed.

Lemma short_list_sorted {A} (R : A -> A -> Prop) (l : list A) :
  (List.length l <= 1)%nat -> StronglySorted R l.
Proof.
  destruct l as [|a [|b l]]; cbn; intros H; try lia.
  - constructor.
  - constructor; constructor.
Qed.

Lemma sorted_paths (l : list (string * Stats)) :
  Forall (fun x => mtimeOf w (fst x) = mtimeMs (snd x)) l ->
  StronglySorted newerFirst l ->
  StronglySorted (newerPathFirst w) (map fst l).
Proof.
  induction l as [|x l IH]; intros Hl Hs; cbn; [constructor|].
  inversion Hl as [|? ? Hx Hl']; subst. inversion Hs as [|? ? Hs' Hall]; subst.
  constructor; [now apply IH|].
  apply Forall_map. rewrite Forall_forall in *. intros y Hy.
  unfold newerPathFirst. rewrite Hx, (Hl' y Hy). now apply Hall.
Qed.

Lemma enumerate_sorted (userDir : string) (n n' : nat) (paths : list string) :
  stableStat w ->
  enumerateProfileKeybindings w userDir n = (Ok paths, n') ->
  StronglySorted (newerPathFirst w) paths.
Proof.
  intros Hstable H.
  destruct (enumerate_cases userDir n n' paths H)
    as (cands & ex & stats & _ & _ & [[-> Hlen]|(-> & _ & Hf)]).
  - now apply short_list_sorted.
  - apply sorted_paths; [|apply sortByMtime_sorted].
    eapply Permutation_Forall; [apply Permutation_sym, sortByMtime_perm|].
    eapply Forall_impl; [|exact Hf]. intros [p st] (m & Hm). cbn in *.
    unfold mtimeOf. now rewrite (Hstable 0%nat m p), Hm.
Qed.

End WithWorld.

(** Every path the enumeration returns was reported by [stat] as a
    regular file, and is either the top-level [keybindings.json] of the
    user directory or the [keybindings.json] of one profile directory. *)
Theorem enumeration_returns_existing_keybinding_files :
  forall (w : World) (userDir : string) (n n' : nat) (paths : list string),
    enumerateProfileKeybindings w userDir n = (Ok paths, n') ->
    forall p, In p paths ->
      seenAsFile w p /\
      (p = path_join w [userDir; "keybindings.json"] \/
       exists profile,
         p = path_join w [path_join w [userDir; "profiles"]; profile; "keybindings.json"]).
Proof. exact enumerate_files. Qed.

(** On a host whose [stat] answers do not change, the enumeration returns
    the files from the most to the least recently modified. *)
Theorem enumeration_is_sorted_by_modification_time :
  forall (w : World) (userDir : string) (n n' : nat) (paths : list string),
    stableStat w ->
    enumerateProfileKeybindings w userDir n = (Ok paths, n') ->
    StronglySorted (newerPathFirst w) paths.
Proof. exact enumerate_sorted. Qed.

Lemma enumeration_returns_existing_keybinding_files_witness :
  seenAsFile (Samples.profiles []) Samples.p2File /\
  (Samples.p2File = path_join (Samples.profiles []) [Samples.userDir; "keybindings.json"] \/
   exists profile,
     Samples.p2File =
     path_join (Samples.profiles [])
       [path_join (Samples.profiles []) [Samples.userDir; "profiles"]; profile;
        "keybindings.json"]).
Proof.
  refine (enumeration_returns_existing_keybinding_files (Samples.profiles [])
            Samples.userDir 0%nat 7%nat
            [Samples.p1File; Samples.p2File; Samples.mainFile] eq_refl Samples.p2File _).
  right. left. reflexivity.
Defined.

Lemma enumeration_is_sorted_by_modification_time_witness :
  fst (enumerateProfileKeybindings (Samples.profiles []) Samples.userDir 0%nat)
    = Ok [Samples.p1File; Samples.p2File; Samples.mainFile] /\
  StronglySorted (newerPathFirst (Samples.profiles []))
    [Samples.p1File; Samples.p2File; Samples.mainFile].
Proof.
  exact (conj eq_refl
    (enumeration_is_sorted_by_modification_time (Samples.profiles [])
       Samples.userDir 0%nat 7%nat
       [Samples.p1File; Samples.p2File; Samples.mainFile]
       (fun _ _ _ => eq_refl) eq_refl)).
Defined.

(** ** Where the rules come from *)

Lemma firstRuleSet_source (w : World) (candidates : list string) (n n' : nat)
    (rules : list json) :
  firstRuleSet w candidates n = (Ok rules, n') ->
  rules = [] \/
  exists p m text,
    In p candidates /\ readFile w m p = Ok text /\ JSON5_parse w text = Ok (JArray rules).
Proof.
  revert n. induction candidates as [|p rest IH]; intros n; cbn [firstRuleSet].
  - unfold ret. intros H. injection H as <- _. now left.
  - unfold bind at 1. rewrite ConfigFacts.readJSON5File_eq.
    destruct (readFile w n p) as [text|e] eqn:Hr; cbn [rbind].
    + destruct (JSON5_parse w text) as [[| | | |items|]|e] eqn:Hp; cbn [rbind];
        try (intros H; destruct (IH _ H) as [->|(file & m & t & Hfile & Hx)];
             [now left|right; exists file, m, t; split; [now right|exact Hx]]).
      unfold ret. intros H. injection H as <- _.
      right. exists p, n, text. repeat split; [now left|assumption|assumption].
    + intros H. destruct (IH _ H) as [->|(file & m & t & Hfile & Hx)];
        [now left|right; exists file, m, t; split; [now right|exact Hx]].
Qed.

Lemma readUserKeybindings_source (w : World) (n n' : nat) (rules : list json) :
  readUserKeybindings w n = (Ok rules, n') ->
  rules = [] \/
  (canReadLocalKeybindings w = true /\
   exists p m text,
     keybindingsFileOf w (searchedUserDir w) p /\ seenAsFile w p /\
     readFile w m p = Ok text /\ JSON5_parse w text = Ok (JArray rules)).
Proof.
  unfold readUserKeybindings.
  destruct (canReadLocalKeybindings w) eqn:Hc; cbn [negb].
  - unfold bind.
    destruct (getKeybindingsCandidates w n) as [[cands|e] n1] eqn:Hg; [|discriminate].
    intros H. destruct (firstRuleSet_source w cands n1 n' rules H)
      as [->|(p & m & text & Hin & Hr & Hp)]; [now left|].
    right. split; [reflexivity|]. exists p, m, text.
    unfold getKeybindingsCandidates in Hg. unfold searchedUserDir.
    destruct (isCodeServer w);
      destruct (enumerate_listed w _ _ _ _ Hg p Hin) as [Hfile Hshape];
      repeat split; assumption.
  - unfold ret. intros H. injection H as <- _. now left.
Qed.

(** The rule set [readUserKeybindings] returns is either empty or the
    array that a keybindings file parsed to: the [keybindings.json] of
    the searched [User] directory or of a profile directory listed under
    its [profiles], a file that [stat] reported as a regular file, on a
    host that can read local keybindings. *)
Theorem user_rules_come_from_a_keybindings_file :
  forall (w : World) (n n' : nat) (rules : list json),
    readUserKeybindings w n = (Ok rules, n') ->
    rules = [] \/
    (canReadLocalKeybindings w = true /\
     exists p m text,
       keybindingsFileOf w (searchedUserDir w) p /\ seenAsFile w p /\
       readFile w m p = Ok text /\ JSON5_parse w text = Ok (JArray rules)).
Proof. exact readUserKeybindings_source. Qed.

(** On the host with two profiles, whose rules are those of profile
    [p2]. *)
Lemma user_rules_come_from_a_keybindings_file_witness :
  canReadLocalKeybindings (Samples.profiles [Samples.rule "cmd+k" "x"]) = true /\
  exists p m text,
    keybindingsFileOf (Samples.profiles [Samples.rule "cmd+k" "x"])
      (searchedUserDir (Samples.profiles [Samples.rule "cmd+k" "x"])) p /\
    seenAsFile (Samples.profiles [Samples.rule "cmd+k" "x"]) p /\
    readFile (Samples.profiles [Samples.rule "cmd+k" "x"]) m p = Ok text /\
    JSON5_parse (Samples.profiles [Samples.rule "cmd+k" "x"]) text
      = Ok (JArray [Samples.rule "cmd+k" "x"]).
Proof.
  destruct (user_rules_come_from_a_keybindings_file
              (Samples.profiles [Samples.rule "cmd+k" "x"]) 0%nat 9%nat
              [Samples.rule "cmd+k" "x"] eq_refl) as [H|H].
  - discriminate H.
  - exact H.
Defined.

End ConfigMore.

(* ================================================================== *)
(** * Further properties: settings, providers and models *)
(* ================================================================== *)

Module HandlerMore.
Import JsString JsObject Js ClaudeCode Spec.

Section WithTables.
Variable T : ModelTables.
Variable host : Host.

(** ** Reading the settings *)

(** The loop over the paths: either every attempt failed, or all attempts
    before some position failed and the one at that position gave the
    configuration, which is then cached. *)
Lemma firstConfig_spec (paths : list string) (h : Handler) (n : nat)
    (config : json) (h' : Handler) (n' : nat) :
  firstConfig host paths h n = (config, h', n') ->
  ((forall i, (i < List.length paths)%nat ->
      succeeded (loadAt host (n + i) (nth i paths "")) = false) /\
   config = JNull /\ h' = h /\ n' = (n + List.length paths)%nat)
  \/
  (exists i, (i < List.length paths)%nat /\
     (forall j, (j < i)%nat ->
        succeeded (loadAt host (n + j) (nth j paths "")) = false) /\
     loadAt host (n + i) (nth i paths "") = Ok config /\
     h' = setCachedConfig h config /\ n' = (n + i + 1)%nat).
Proof.
  revert n. induction paths as [|p rest IH]; intros n; cbn [firstConfig].
  - intros H. injection H as <- <- <-. left.
    repeat split; try (cbn; lia).
  - fold (loadAt host n p). destruct (loadAt host n p) as [c|e] eqn:E.
    + intros H. injection H as <- <- <-. right. exists 0%nat.
      rewrite Nat.add_0_r. cbn [nth List.length].
      repeat split; try lia; try exact E.
    + intros H. destruct (IH (S n) H) as [(Hall & -> & -> & ->)|(i & Hi & Hbefore & Hload & -> & ->)].
      * left. repeat split; try (cbn; lia).
        intros [|i] Hi; [rewrite Nat.add_0_r; cbn; now rewrite E|].
        cbn [nth]. replace (n + S i)%nat with (S n + i)%nat by lia.
        apply Hall. cbn in Hi. lia.
      * right. exists (S i). cbn [nth List.length].
        replace (n + S i)%nat with (S n + i)%nat by lia.
        repeat split; try lia; try exact Hload.
        intros [|j] Hj; [rewrite Nat.add_0_r; cbn; now rewrite E|].
        cbn [nth]. replace (n + S j)%nat with (S n + j)%nat by lia.
        apply Hbefore. lia.
Qed.

Lemma readClaudeCodeConfig_frame (h : Handler) (n : nat) :
  options (snd (fst (readClaudeCodeConfig host h n))) = options h /\
  cachedModelInfo (snd (fst (readClaudeCodeConfig host h n))) = cachedModelInfo h.
Proof.
  unfold readClaudeCodeConfig. destruct (truthy (Some (cachedConfig h))); [now split|].
  destruct (firstConfig host (possibleConfigPaths host) h n) as [[config h'] n'] eqn:E.
  destruct (firstConfig_spec _ _ _ _ _ _ E) as [(_ & _ & -> & _)|(i & _ & _ & _ & -> & _)];
    now split.
Qed.

Lemma readClaudeCodeConfig_cached (h : Handler) (n : nat) (config : json)
    (h' : Handler) (n' : nat) :
  readClaudeCodeConfig host h n = (config, h', n') ->
  truthy (Some config) = true ->
  cachedConfig h' = config.
Proof.
  unfold readClaudeCodeConfig. destruct (truthy (Some (cachedConfig h))) eqn:Hc.
  - intros H. now injection H as <- <- _.
  - intros E Ht.
    destruct (firstConfig_spec _ _ _ _ _ _ E) as [(_ & -> & _)|(i & _ & _ & _ & -> & _)];
      [discriminate Ht|reflexivity].
Qed.

(** Once settings that are not falsy have been obtained, every later
    call returns them from the cache, at once and without a read; reading
    the settings never touches the options or the cached model. *)
Theorem settings_are_cached_after_first_read :
  forall (h : Handler) (n : nat) (config : json) (h' : Handler) (n' : nat),
    readClaudeCodeConfig host h n = (config, h', n') ->
    truthy (Some config) = true ->
    (forall m, readClaudeCodeConfig host h' m = (config, h', m)) /\
    options h' = options h /\ cachedModelInfo h' = cachedModelInfo h.
Proof.
  intros h n config h' n' E Ht. split.
  - intros m. pose proof (readClaudeCodeConfig_cached h n config h' n' E Ht) as Hc.
    unfold readClaudeCodeConfig. now rewrite Hc, Ht.
  - pose proof (readClaudeCodeConfig_frame h n) as Hf. now rewrite E in Hf.
Qed.

(** With an empty cache, the settings are those of the first of the five
    paths, in the order of the list, whose file reads and parses when its
    turn comes; they are [null], after five attempts, when none does. *)
Theorem settings_come_from_the_first_readable_path :
  forall (h : Handler) (n : nat) (config : json) (h' : Handler) (n' : nat),
    truthy (Some (cachedConfig h)) = false ->
    readClaudeCodeConfig host h n = (config, h', n') ->
    List.length (possibleConfigPaths host) = 5%nat /\
    (((forall i, (i < 5)%nat ->
         succeeded (loadAt host (n + i) (nth i (possibleConfigPaths host) "")) = false) /\
      config = JNull /\ h' = h /\ n' = (n + 5)%nat)
     \/
     (exists i, (i < 5)%nat /\
        (forall j, (j < i)%nat ->
           succeeded (loadAt host (n + j) (nth j (possibleConfigPaths host) "")) = false) /\
        loadAt host (n + i) (nth i (possibleConfigPaths host) "") = Ok config /\
        cachedConfig h' = config /\ n' = (n + i + 1)%nat)).
Proof.
  intros h n config h' n' Hc. unfold readClaudeCodeConfig. rewrite Hc. intros E.
  split; [reflexivity|].
  destruct (firstConfig_spec _ _ _ _ _ _ E) as [H|(i & Hi & Hb & Hl & -> & Hn)].
  - left. exact H.
  - right. exists i. repeat split; assumption.
Qed.

End WithTables.

Lemma settings_are_cached_after_first_read_witness :
  readClaudeCodeConfig (Samples.hostWith Samples.noEnvSettings)
    (setCachedConfig (newHandler {| apiModelId := None; claudeCodePath := None;
                                    claudeCodeMaxOutputTokens := None |})
                     Samples.noEnvSettings) 42%nat
  = (Samples.noEnvSettings,
     setCachedConfig (newHandler {| apiModelId := None; claudeCodePath := None;
                                    claudeCodeMaxOutputTokens := None |})
                     Samples.noEnvSettings, 42%nat).
Proof.
  exact (proj1 (settings_are_cached_after_first_read
           (Samples.hostWith Samples.noEnvSettings)
           (newHandler {| apiModelId := None; claudeCodePath := None;
                          claudeCodeMaxOutputTokens := None |})
           0%nat Samples.noEnvSettings _ 1%nat eq_refl eq_refl) 42%nat).
Defined.

(** ** Providers and models *)

Lemma own_filter_key {V : Type} (x : string) (t : list (string * V)) (k : string) :
  own (filter (fun e => negb (String.eqb (fst e) x)) t) k =
  if String.eqb k x then None else own t k.
Proof.
  induction t as [|[k' v] t IH]; cbn [filter own fst].
  - now destruct (String.eqb k x).
  - destruct (String.eqb k' x) eqn:Ex; cbn [negb].
    + rewrite IH. destruct (String.eqb k x) eqn:Ek; [reflexivity|].
      destruct (String.eqb k k') eqn:Ekk; [|reflexivity].
      apply String.eqb_eq in Ekk, Ex. subst. rewrite String.eqb_refl in Ek. discriminate.
    + cbn [own]. destruct (String.eqb k k') eqn:Ekk.
      * apply String.eqb_eq in Ekk. subst. now rewrite Ex.
      * exact IH.
Qed.

Lemma firstKey_own {V : Type} (t : list (string * V)) :
  t <> [] -> exists k, keys t = k :: tl (keys t) /\ has_own t k = true.
Proof.
  destruct t as [|[k v] t]; [congruence|]. intros _. exists k. split; [reflexivity|].
  unfold has_own. cbn [own]. now rewrite String.eqb_refl.
Qed.

Section Models.
Variable T : ModelTables.
Variable host : Host.

(** What a successful detection can return. *)
Lemma detectProviderIn_cases (config : json) (provider : string) (models : ModelTable) :
  detectProviderIn T config = Ok (Some (provider, models)) ->
  truthy (Some config) = true /\
  ((provider, models) = ("zai", filteredModels T) \/
   (provider, models) = ("qwen-code", qwenCodeModels T) \/
   (provider, models) = ("deepseek", deepSeekModels T)).
Proof.
  unfold detectProviderIn.
  destruct (truthy (Some config)); cbn [negb]; [|discriminate].
  destruct (negb (truthy (field config "env"))); [discriminate|].
  destruct (opt_get (field config "env") "ANTHROPIC_BASE_URL") as [url|]; [|discriminate].
  destruct (negb (truthy (Some url))); [discriminate|].
  unfold orElse.
  repeat (match goal with
          | |- context [call_includes ?u ?s] => destruct (call_includes u s) as [[|]|]
          end; cbn [rbind]);
    intros H; try discriminate H; injection H as <- <-; split; auto.
Qed.

(** The test of [createMessage] and the detection of the initialisation
    look at the same settings in the same way. *)
Lemma isAlternativeProvider_detected (config : json) :
  isAlternativeProvider (opt_get (opt_get (Some config) "env") "ANTHROPIC_BASE_URL")
  = detected (detectProviderIn T config).
Proof.
  unfold detectProviderIn, detected.
  destruct config as [|b|q|s|items|fs]; cbn [opt_get field];
    try (destruct (negb (truthy (Some _))); reflexivity);
    try (destruct (negb (truthy _)); reflexivity).
  cbn [truthy negb].
  destruct (own fs "env") as [e|]; [|reflexivity].
  destruct (truthy (Some e)) eqn:He; cbn [negb].
  - assert (Hget : opt_get (Some e) "ANTHROPIC_BASE_URL" = field e "ANTHROPIC_BASE_URL").
    { destruct e; reflexivity. }
    rewrite Hget. destruct (field e "ANTHROPIC_BASE_URL") as [url|]; [|reflexivity].
    unfold isAlternativeProvider.
    destruct (truthy (Some url)); cbn [negb]; [|reflexivity].
    unfold orElse.
    destruct url as [|b|q|s|items|fs']; cbn [call_includes rbind]; try reflexivity.
    + generalize (includes "z.ai" s) (includes "dashscope.aliyuncs.com" s)
                 (includes "aliyuncs.com" s) (includes "deepseek.com" s)
                 (includes "api.deepseek.com" s).
      intros [] [] [] [] []; reflexivity.
    + generalize (existsb (fun x => strict_eq_string (Some x) "z.ai") items)
                 (existsb (fun x => strict_eq_string (Some x) "dashscope.aliyuncs.com") items)
                 (existsb (fun x => strict_eq_string (Some x) "aliyuncs.com") items)
                 (existsb (fun x => strict_eq_string (Some x) "deepseek.com") items)
                 (existsb (fun x => strict_eq_string (Some x) "api.deepseek.com") items).
      intros [] [] [] [] []; reflexivity.
  - assert (Hget : opt_get (Some e) "ANTHROPIC_BASE_URL" = None).
    { destruct e as [|b|q|s|items|fs']; try reflexivity; discriminate He. }
    now rewrite Hget.
Qed.

(** The handler's test for an alternative provider in [createMessage]
    answers exactly as the detection of the initialisation does on the
    same settings: true when a provider is detected, false when none is,
    and the same exception when the base URL has no [includes]. *)
Theorem alternative_provider_check_agrees_with_detection :
  forall config : json,
    isAlternativeProvider (opt_get (opt_get (Some config) "env") "ANTHROPIC_BASE_URL")
    = detected (detectProviderIn T config).
Proof. exact isAlternativeProvider_detected. Qed.

(** The initialisation, once the settings [config] have been read and a
    provider detected in them: the second read is served by the cache. *)
Lemma initializeModelDetection_detected (h : Handler) (n : nat) (config : json)
    (h1 : Handler) (n1 : nat) (provider : string) (models : ModelTable) :
  readClaudeCodeConfig host h n = (config, h1, n1) ->
  detectProviderIn T config = Ok (Some (provider, models)) ->
  initializeModelDetection T host h n =
    (setCachedModelInfo h1 (selectProviderModel host (options h) config models), n1).
Proof.
  intros E D. destruct (detectProviderIn_cases _ _ _ D) as [Ht _].
  pose proof (readClaudeCodeConfig_cached host h n config h1 n1 E Ht) as Hc.
  pose proof (readClaudeCodeConfig_frame host h n) as [Ho _]. rewrite E in Ho. cbn [fst snd] in Ho.
  unfold initializeModelDetection, detectProviderFromConfig. rewrite E, D.
  unfold readClaudeCodeConfig at 1. rewrite Hc, Ht. now rewrite Ho.
Qed.

Lemma initializeModelDetection_none (h : Handler) (n : nat) (config : json)
    (h1 : Handler) (n1 : nat) :
  readClaudeCodeConfig host h n = (config, h1, n1) ->
  detectProviderIn T config = Ok None ->
  initializeModelDetection T host h n =
    (setCachedModelInfo h1 (selectClaudeModel T (options h)), n1).
Proof.
  intros E D.
  pose proof (readClaudeCodeConfig_frame host h n) as [Ho _]. rewrite E in Ho. cbn [fst snd] in Ho.
  unfold initializeModelDetection, detectProviderFromConfig. rewrite E, D. now rewrite Ho.
Qed.

Lemma selectProviderModel_valid (o : ApiHandlerOptions) (config : json) (models : ModelTable) :
  models <> [] ->
  js_in (propertyKey host (fst (selectProviderModel host o config models))) models = true.
Proof.
  intros Hne. unfold selectProviderModel. cbn [fst].
  match goal with |- context [if js_in ?k models then ?a else ?b] =>
    destruct (js_in k models) eqn:Hin; [exact Hin|] end.
  destruct (firstKey_own models Hne) as (k & Hk & Hown).
  unfold firstKey. rewrite Hk. cbn [propertyKey]. unfold js_in. now rewrite Hown.
Qed.

(** When a provider is detected in the settings and its table is not
    empty, the id [getModel] reports after the initialisation is a key of
    that table, with the table's entry as its information, or else a name
    inherited from [Object.prototype] (such as ["constructor"]) that the
    caller or the settings asked for, with the empty object as its
    information; the configured output limit is applied in both cases,
    and the settings are not read a second time. *)
Theorem detected_provider_model_is_own_or_inherited :
  forall (h : Handler) (n : nat) (config : json) (h1 : Handler) (n1 : nat)
         (provider : string) (models : ModelTable),
    readClaudeCodeConfig host h n = (config, h1, n1) ->
    detectProviderIn T config = Ok (Some (provider, models)) ->
    models <> [] ->
    let h' := fst (initializeModelDetection T host h n) in
    let id := fst (getModel T h') in
    match own models (propertyKey host id) with
    | Some info => snd (getModel T h') = withMaxTokens (options h) info
    | None =>
        inherited (propertyKey host id) = true /\
        id = apiModelIdOr (options h)
               (opt_get (opt_get (Some config) "env") "ANTHROPIC_MODEL") /\
        snd (getModel T h') = withMaxTokens (options h) emptyInfo
    end /\
    snd (initializeModelDetection T host h n) = n1.
Proof.
  intros h n config h1 n1 provider models E D Hne. cbv zeta.
  rewrite (initializeModelDetection_detected h n config h1 n1 provider models E D).
  cbn [fst snd]. unfold getModel. cbn [cachedModelInfo setCachedModelInfo].
  split; [|reflexivity].
  pose proof (selectProviderModel_valid (options h) config models Hne) as Hin.
  unfold selectProviderModel in *. cbn [fst snd] in *.
  set (configured := opt_get (opt_get (Some config) "env") "ANTHROPIC_MODEL") in *.
  destruct (firstKey_own models Hne) as (k & Hk & Hown).
  assert (Hfirst : firstKey models = Some (JString k)) by (unfold firstKey; now rewrite Hk).
  rewrite Hfirst in *.
  match goal with
  | |- context [if js_in ?key models then ?a else ?b] =>
      destruct (js_in key models) eqn:Hj
  end.
  - unfold spread.
    match goal with |- context [own models ?key] => destruct (own models key) eqn:Ho end;
      [reflexivity|].
    unfold js_in, has_own in Hj. rewrite Ho in Hj. cbn [orb] in Hj.
    split; [exact Hj|]. split; [|reflexivity].
    destruct (truthy configured) eqn:Ht; [reflexivity|].
    unfold apiModelIdOr in *.
    destruct (apiModelId (options h)) as [s|]; [destruct (nonempty s); [reflexivity|]|];
      cbn [propertyKey] in Ho; unfold has_own in Hown; rewrite Ho in Hown; discriminate.
  - cbn [propertyKey]. unfold spread, has_own in *.
    destruct (own models k); [reflexivity|discriminate].
Qed.

(** With Z.ai detected, the table offered is the international Z.ai
    table without ["glm-4.5-flash"], every other entry unchanged, and the
    initialisation never selects ["glm-4.5-flash"], whatever model the
    caller or the settings ask for. *)
Theorem zai_never_selects_glm_flash :
  forall (h : Handler) (n : nat) (config : json) (h1 : Handler) (n1 : nat)
         (models : ModelTable),
    readClaudeCodeConfig host h n = (config, h1, n1) ->
    detectProviderIn T config = Ok (Some ("zai", models)) ->
    (forall k, own models k =
       if String.eqb k "glm-4.5-flash" then None else own (internationalZAiModels T) k) /\
    strict_eq_string (fst (getModel T (fst (initializeModelDetection T host h n))))
                     "glm-4.5-flash" = false.
Proof.
  intros h n config h1 n1 models E D.
  assert (Hm : models = filteredModels T).
  { destruct (detectProviderIn_cases _ _ _ D) as [_ [H|[H|H]]]; now injection H. }
  assert (Hown : forall k, own models k =
            if String.eqb k "glm-4.5-flash" then None else own (internationalZAiModels T) k).
  { intros k. rewrite Hm. apply own_filter_key. }
  split; [exact Hown|].
  rewrite (initializeModelDetection_detected h n config h1 n1 "zai" models E D).
  cbn [fst]. unfold getModel. cbn [cachedModelInfo setCachedModelInfo].
  unfold selectProviderModel. cbn [fst].
  assert (Hnot : js_in "glm-4.5-flash" models = false).
  { unfold js_in, has_own. now rewrite Hown. }
  assert (Hfirst : strict_eq_string (firstKey models) "glm-4.5-flash" = false).
  { unfold firstKey. destruct models as [|[k v] rest]; [reflexivity|]. cbn [keys map fst].
    cbn [strict_eq_string]. destruct (String.eqb k "glm-4.5-flash") eqn:Ek; [|reflexivity].
    apply String.eqb_eq in Ek. subst k. specialize (Hown "glm-4.5-flash").
    cbn in Hown. discriminate Hown. }
  match goal with |- context [if js_in ?k models then ?a else ?b] =>
    destruct (js_in k models) eqn:Hin; [|exact Hfirst]; revert Hin;
    generalize a end.
  intros id Hin. destruct id as [[| | |s| |]|]; try reflexivity.
  cbn [propertyKey] in Hin. cbn [strict_eq_string].
  destruct (String.eqb s "glm-4.5-flash") eqn:Es; [|reflexivity].
  apply String.eqb_eq in Es. subst s. rewrite Hnot in Hin. discriminate Hin.
Qed.

(** An output limit given in the options replaces the table's limit in
    every model [getModel] reports: before the initialisation has
    completed, and after it whichever branch it took (a detected
    provider, the standard models, or the fall-back after an error). *)
Theorem configured_output_limit_always_applies :
  forall (h : Handler) (n : nat) (limit : Z),
    cachedModelInfo h = None ->
    claudeCodeMaxOutputTokens (options h) = Some limit ->
    maxTokens (snd (getModel T h)) = Some limit /\
    maxTokens (snd (getModel T (fst (initializeModelDetection T host h n)))) = Some limit.
Proof.
  intros h n limit Hnone Hlimit.
  assert (Hw : forall i, maxTokens (withMaxTokens (options h) i) = Some limit).
  { intros i. unfold withMaxTokens. now rewrite Hlimit. }
  split.
  - unfold getModel. rewrite Hnone. unfold defaultModel. cbn [snd]. apply Hw.
  - destruct (readClaudeCodeConfig host h n) as [[config h1] n1] eqn:E.
    destruct (detectProviderIn T config) as [[[provider models]|]|e] eqn:D.
    + rewrite (initializeModelDetection_detected h n config h1 n1 provider models E D).
      cbn [fst]. unfold getModel. cbn [cachedModelInfo setCachedModelInfo].
      unfold selectProviderModel. cbn [snd]. apply Hw.
    + rewrite (initializeModelDetection_none h n config h1 n1 E D).
      cbn [fst]. unfold getModel. cbn [cachedModelInfo setCachedModelInfo].
      unfold selectClaudeModel, defaultModel.
      match goal with |- context [if ?c then _ else _] => destruct c end; cbn [snd]; apply Hw.
    + pose proof (readClaudeCodeConfig_frame host h n) as [Ho _].
      rewrite E in Ho. cbn [fst snd] in Ho.
      unfold initializeModelDetection, detectProviderFromConfig. rewrite E, D.
      cbn [fst]. unfold getModel. cbn [cachedModelInfo setCachedModelInfo].
      rewrite Ho. unfold defaultModel. cbn [snd]. apply Hw.
Qed.

End Models.

(** ** What [createMessage] hands to the CLI *)

Section Process.
Variable T : ModelTables.
Variable host : Host.

(** The second validation of [createMessage] repeats the first. *)
Lemma orDefaultId_idem (id : value) :
  orDefaultId T host (orDefaultId T host id) = orDefaultId T host id.
Proof.
  unfold orDefaultId at 2 3. destruct (js_in (propertyKey host id) (claudeCodeModels T)) eqn:E.
  - unfold orDefaultId. now rewrite E.
  - unfold orDefaultId. cbn [propertyKey].
    now destruct (js_in (claudeCodeDefaultModelId T) (claudeCodeModels T)).
Qed.

Lemma orDefaultId_selectClaudeModel (o : ApiHandlerOptions) :
  orDefaultId T host (fst (selectClaudeModel T o)) = fst (selectClaudeModel T o).
Proof.
  unfold selectClaudeModel.
  match goal with |- context [if js_in ?k ?t then _ else _] => destruct (js_in k t) eqn:E end.
  - cbn [fst]. unfold orDefaultId. cbn [propertyKey]. now rewrite E.
  - unfold defaultModel. cbn [fst]. unfold orDefaultId. cbn [propertyKey].
    now destruct (js_in (claudeCodeDefaultModelId T) (claudeCodeModels T)).
Qed.

Lemma claudeProcess_standard (M : Type) (I : Integrations M) (h : Handler) (n : nat)
    (config : json) (h1 : Handler) (n1 m : nat) (prompt : string) (chat : list M) :
  readClaudeCodeConfig host h n = (config, h1, n1) ->
  truthy (Some config) = true ->
  detectProviderIn T config = Ok None ->
  let h' := fst (initializeModelDetection T host h n) in
  exists opts : RunOptions M,
    claudeProcess T host I h' m prompt chat = (Ok (runClaudeCode M I opts), h', m) /\
    modelId M opts =
      getClaudeCodeModelId M I (fst (getModel T h')) (vertexRequested host) /\
    path M opts = claudeCodePath (options h) /\
    maxOutputTokens M opts = claudeCodeMaxOutputTokens (options h).
Proof.
  intros E Ht D. cbv zeta.
  rewrite (initializeModelDetection_none T host h n config h1 n1 E D). cbn [fst].
  pose proof (readClaudeCodeConfig_cached host h n config h1 n1 E Ht) as Hc.
  pose proof (readClaudeCodeConfig_frame host h n) as [Ho _]. rewrite E in Ho. cbn [fst snd] in Ho.
  set (h' := setCachedModelInfo h1 (selectClaudeModel T (options h))).
  assert (Hread : readClaudeCodeConfig host h' m = (config, h', m)).
  { unfold readClaudeCodeConfig. subst h'. cbn [cachedConfig setCachedModelInfo].
    now rewrite Hc, Ht. }
  unfold claudeProcess. rewrite Hread.
  rewrite (isAlternativeProvider_detected T config), D. cbn [detected rbind].
  eexists. split; [reflexivity|]. cbn [modelId path maxOutputTokens].
  subst h'. unfold getModel. cbn [cachedModelInfo setCachedModelInfo options].
  rewrite !orDefaultId_selectClaudeModel. rewrite Ho. repeat split; reflexivity.
Qed.

(** After an initialisation that found settings without an alternative
    provider, [createMessage] starts the CLI with the model [getModel]
    reports (given to [getClaudeCodeModelId] with the Vertex flag): its
    two validations against the standard table change nothing. The
    settings come from the cache: no file is read and the handler is left
    as it was. *)
Theorem standard_model_is_sent_as_reported :
  forall (M : Type) (I : Integrations M) (h : Handler) (n : nat)
         (config : json) (h1 : Handler) (n1 m : nat) (prompt : string) (chat : list M),
    readClaudeCodeConfig host h n = (config, h1, n1) ->
    truthy (Some config) = true ->
    detectProviderIn T config = Ok None ->
    let h' := fst (initializeModelDetection T host h n) in
    exists opts : RunOptions M,
      claudeProcess T host I h' m prompt chat = (Ok (runClaudeCode M I opts), h', m) /\
      modelId M opts =
        getClaudeCodeModelId M I (fst (getModel T h')) (vertexRequested host) /\
      path M opts = claudeCodePath (options h) /\
      maxOutputTokens M opts = claudeCodeMaxOutputTokens (options h).
Proof. exact claudeProcess_standard. Qed.


End Process.

(** On a host where only the project's settings file exists, the third
    path is the one that answers, after two failed attempts. *)
Lemma settings_come_from_the_first_readable_path_witness :
  let host := Samples.projectHost Samples.noEnvSettings in
  let h := newHandler (Samples.optionsFor "claude-3-5-sonnet-20241022" None) in
  List.length (possibleConfigPaths host) = 5%nat /\
  (((forall i, (i < 5)%nat ->
       succeeded (loadAt host (0 + i) (nth i (possibleConfigPaths host) "")) = false) /\
    Samples.noEnvSettings = JNull /\ setCachedConfig h Samples.noEnvSettings = h /\
    3%nat = (0 + 5)%nat)
   \/
   (exists i, (i < 5)%nat /\
      (forall j, (j < i)%nat ->
         succeeded (loadAt host (0 + j) (nth j (possibleConfigPaths host) "")) = false) /\
      loadAt host (0 + i) (nth i (possibleConfigPaths host) "") = Ok Samples.noEnvSettings /\
      cachedConfig (setCachedConfig h Samples.noEnvSettings) = Samples.noEnvSettings /\
      3%nat = (0 + i + 1)%nat)).
Proof.
  exact (settings_come_from_the_first_readable_path
           (Samples.projectHost Samples.noEnvSettings)
           (newHandler (Samples.optionsFor "claude-3-5-sonnet-20241022" None))
           0%nat Samples.noEnvSettings _ 3%nat eq_refl eq_refl).
Defined.

(** Z.ai settings and a caller who asks for ["glm-4.5-flash"]. *)
Lemma zai_never_selects_glm_flash_witness :
  let host := Samples.hostWith Samples.zaiSettings in
  let h := newHandler (Samples.optionsFor "glm-4.5-flash" None) in
  (forall k, own (filteredModels Samples.tables) k =
     if String.eqb k "glm-4.5-flash" then None
     else own (internationalZAiModels Samples.tables) k) /\
  strict_eq_string
    (fst (getModel Samples.tables (fst (initializeModelDetection Samples.tables host h 0%nat))))
    "glm-4.5-flash" = false.
Proof.
  exact (zai_never_selects_glm_flash Samples.tables (Samples.hostWith Samples.zaiSettings)
           (newHandler (Samples.optionsFor "glm-4.5-flash" None)) 0%nat
           Samples.zaiSettings _ 1%nat (filteredModels Samples.tables) eq_refl eq_refl).
Defined.

(** Z.ai settings: a caller who asks for ["glm-4.5-flash"] gets the first
    key of the table with its entry; a caller who asks for
    ["constructor"] gets that id with the empty object. *)
Lemma detected_provider_model_is_own_or_inherited_witness :
  let host := Samples.hostWith Samples.zaiSettings in
  let asked := newHandler (Samples.optionsFor "glm-4.5-flash" (Some 8192%Z)) in
  let odd := newHandler (Samples.optionsFor "constructor" (Some 8192%Z)) in
  (getModel Samples.tables (fst (initializeModelDetection Samples.tables host asked 0%nat))
     = (Some (JString "glm-4.5"), setMaxTokens Samples.glm45 8192%Z) /\
   snd (initializeModelDetection Samples.tables host asked 0%nat) = 1%nat) /\
  ((inherited "constructor" = true /\
    Some (JString "constructor") = Some (JString "constructor") /\
    snd (getModel Samples.tables (fst (initializeModelDetection Samples.tables host odd 0%nat)))
      = setMaxTokens emptyInfo 8192%Z) /\
   snd (initializeModelDetection Samples.tables host odd 0%nat) = 1%nat).
Proof.
  split.
  - split; [reflexivity|].
    refine (proj2 (detected_provider_model_is_own_or_inherited Samples.tables
              (Samples.hostWith Samples.zaiSettings)
              (newHandler (Samples.optionsFor "glm-4.5-flash" (Some 8192%Z))) 0%nat
              Samples.zaiSettings _ 1%nat "zai" (filteredModels Samples.tables)
              eq_refl eq_refl _)).
    discriminate.
  - refine (detected_provider_model_is_own_or_inherited Samples.tables
              (Samples.hostWith Samples.zaiSettings)
              (newHandler (Samples.optionsFor "constructor" (Some 8192%Z))) 0%nat
              Samples.zaiSettings _ 1%nat "zai" (filteredModels Samples.tables)
              eq_refl eq_refl _).
    discriminate.
Defined.

Lemma configured_output_limit_always_applies_witness :
  let host := Samples.hostWith Samples.noEnvSettings in
  let h := newHandler (Samples.optionsFor "claude-3-5-sonnet-20241022" (Some 8192%Z)) in
  maxTokens (snd (getModel Samples.tables h)) = Some 8192%Z /\
  maxTokens (snd (getModel Samples.tables
                    (fst (initializeModelDetection Samples.tables host h 0%nat))))
    = Some 8192%Z.
Proof.
  exact (configured_output_limit_always_applies Samples.tables
           (Samples.hostWith Samples.noEnvSettings)
           (newHandler (Samples.optionsFor "claude-3-5-sonnet-20241022" (Some 8192%Z)))
           0%nat 8192%Z eq_refl eq_refl).
Defined.


Lemma standard_model_is_sent_as_reported_witness :
  let host := Samples.hostWith Samples.noEnvSettings in
  let h := newHandler (Samples.optionsFor "claude-3-5-sonnet-20241022" None) in
  let h' := fst (initializeModelDetection Samples.tables host h 0%nat) in
  exists opts : RunOptions string,
    claudeProcess Samples.tables host Samples.cli h' 7%nat "prompt" ["hello"]
      = (Ok (runClaudeCode string Samples.cli opts), h', 7%nat) /\
    modelId string opts =
      getClaudeCodeModelId string Samples.cli (fst (getModel Samples.tables h'))
        (vertexRequested host) /\
    path string opts = claudeCodePath (options h) /\
    maxOutputTokens string opts = claudeCodeMaxOutputTokens (options h).
Proof.
  exact (standard_model_is_sent_as_reported Samples.tables
           (Samples.hostWith Samples.noEnvSettings) string Samples.cli
           (newHandler (Samples.optionsFor "claude-3-5-sonnet-20241022" None)) 0%nat
           Samples.noEnvSettings _ 1%nat 7%nat "prompt" ["hello"]
           eq_refl eq_refl eq_refl).
Defined.

End HandlerMore.

(* ================================================================== *)
(** * Further properties: the translated stream *)
(* ================================================================== *)

Module StreamMore.
Import JsString JsObject Js ClaudeCode Spec.

Lemma filter_none {A : Type} (p : A -> bool) (l : list A) :
  forallb (fun x => negb (p x)) l = true -> filter p l = [].
Proof.
  induction l as [|x l IH]; [reflexivity|]. cbn. intros H.
  apply andb_true_iff in H. destruct H as [Hx Hl].
  destruct (p x); [discriminate|]. now apply IH.
Qed.

Lemma filter_all {A : Type} (p : A -> bool) (l : list A) :
  forallb p l = true -> filter p l = l.
Proof.
  induction l as [|x l IH]; [reflexivity|]. cbn. intros H.
  apply andb_true_iff in H. destruct H as [Hx Hl]. rewrite Hx. now rewrite IH.
Qed.

Section WithHost.
Variable host : Host.





(** ** Usage chunks *)

Lemma step_usage_chunks (st st' : LoopState) (c : ClaudeCodeMessage)
    (ys : list ApiStreamChunk) (ls : list string) :
  step host st c = Ok (ys, ls, st') ->
  List.length (filter isUsageChunk ys) = List.length (filter isTerminalResult [c]) /\
  (forall u, In (UsageChunk u) ys -> exists cost, totalCost u = Some cost).
Proof.
  destruct c as [text|src|m|[r|] cost|]; cbn [step]; intros H.
  - injection H as <- _ _. split; [reflexivity|]. intros u [Hu|[]]. discriminate.
  - injection H as <- _ _. split; [reflexivity|]. intros u [].
  - destruct (apiError host m); [discriminate|].
    pose proof (StreamFacts.translateBlocks_no_usage (content m)) as Hb.
    destruct (translateBlocks (content m)) as [ys' ls']. injection H as <- _ _.
    cbn [fst] in Hb. split.
    + now rewrite (filter_none _ _ Hb).
    + intros u Hu. rewrite forallb_forall in Hb. specialize (Hb _ Hu). discriminate.
  - injection H as <- _ _. split; [reflexivity|].
    intros u [Hu|[]]. injection Hu as <-. cbn. eauto.
  - injection H as <- _ _. split; [reflexivity|]. intros u [].
  - injection H as <- _ _. split; [reflexivity|]. intros u [].
Qed.

Lemma loop_usage_chunks (s : list ClaudeCodeMessage) (st : LoopState) :
  completion (loop host st s) = Done ->
  List.length (filter isUsageChunk (yielded (loop host st s)))
    = List.length (filter isTerminalResult s).
Proof.
  revert st. induction s as [|c s IH]; intros st; [reflexivity|].
  cbn [loop]. destruct (step host st c) as [[[ys ls] st']|e] eqn:E; [|discriminate].
  cbn [completion yielded]. intros Hdone.
  destruct (step_usage_chunks st st' c ys ls E) as [Hn _].
  rewrite filter_app, length_app, (IH st' Hdone), Hn.
  cbn [filter]. now destruct (isTerminalResult c).
Qed.

Lemma loop_usage_has_cost (s : list ClaudeCodeMessage) (st : LoopState)
    (u : ApiStreamUsageChunk) :
  In (UsageChunk u) (yielded (loop host st s)) -> exists cost, totalCost u = Some cost.
Proof.
  revert st. induction s as [|c s IH]; intros st; [intros []|].
  cbn [loop]. destruct (step host st c) as [[[ys ls] st']|e] eqn:E; [|intros []].
  cbn [yielded]. intros Hin. apply in_app_or in Hin. destruct Hin as [Hin|Hin].
  - destruct (step_usage_chunks st st' c ys ls E) as [_ Hc]. now apply Hc.
  - now apply (IH st').
Qed.

(** When the generator returns, it has yielded one usage chunk for every
    result chunk that has a [result] property, no more and no fewer; and
    every usage chunk it yields, also before a rejection, carries a total
    cost. *)
Theorem one_usage_chunk_per_result_message :
  forall stream : list ClaudeCodeMessage,
    (completion (createMessage host stream) = Done ->
     List.length (filter isUsageChunk (yielded (createMessage host stream)))
       = List.length (filter isTerminalResult stream)) /\
    (forall u, In (UsageChunk u) (yielded (createMessage host stream)) ->
       exists cost, totalCost u = Some cost).
Proof.
  intros stream. split.
  - apply loop_usage_chunks.
  - intros u. apply loop_usage_has_cost.
Qed.

(** A stream without an init message is charged: the usage chunk yielded
    for a result chunk carries the cost that chunk reports, with the
    counters summed over the assistant messages before it. *)
Theorem stream_without_init_is_charged :
  forall (pre : list ClaudeCodeMessage) (result : string) (cost : Q),
    forallb (fun c => negb (isSystemInit c)) pre = true ->
    completion (createMessage host pre) = Done ->
    yielded (createMessage host (pre ++ [ResultMessage (Some result) cost]))
      = (yielded (createMessage host pre) ++ [UsageChunk (usageWithCost pre cost)])%list /\
    completion (createMessage host (pre ++ [ResultMessage (Some result) cost])) = Done.
Proof.
  intros pre result cost Hpre Hdone. unfold createMessage in *.
  destruct (StreamFacts.loop_app_done host pre [ResultMessage (Some result) cost] _ Hdone)
    as (Hy & _ & Hc).
  rewrite Hy, Hc. cbn [loop step yielded completion app].
  rewrite (StreamFacts.loop_paid host pre initialState Hpre). cbn [isPaidUsage initialState].
  split; [|reflexivity]. f_equal. f_equal. f_equal.
  apply StreamFacts.usage_ext;
    cbn [inputTokens outputTokens cacheReadTokens cacheWriteTokens totalCost
         setTotalCost usageWithCost]; try reflexivity.
  - now rewrite (StreamFacts.loop_usage host pre _ input_tokens inputTokens)
      by (auto; reflexivity).
  - now rewrite (StreamFacts.loop_usage host pre _ output_tokens outputTokens)
      by (auto; reflexivity).
  - now rewrite (StreamFacts.loop_usage host pre _
                   (fun m => orZero (cache_read_input_tokens m)) cacheReadTokens)
      by (auto; reflexivity).
  - now rewrite (StreamFacts.loop_usage host pre _
                   (fun m => orZero (cache_creation_input_tokens m)) cacheWriteTokens)
      by (auto; reflexivity).
Qed.

(** ** Content blocks *)

Lemma translateBlocks_counts (blocks : list ContentBlock) :
  List.length (fst (translateBlocks blocks)) = List.length (filter isTranslated blocks) /\
  snd (translateBlocks blocks)
    = map (append "tool_use is not supported yet. Received: ") (toolUses blocks).
Proof.
  induction blocks as [|b bs [IHy IHl]]; [split; reflexivity|].
  cbn [translateBlocks]. destruct (translateBlocks bs) as [ys' ls']. cbn [fst snd] in *.
  destruct b; cbn [translateBlock fst snd filter isTranslated toolUses app List.length map];
    rewrite ?IHy, ?IHl; split; reflexivity.
Qed.

Lemma toolUses_app (a b : list ContentBlock) :
  toolUses (a ++ b) = (toolUses a ++ toolUses b)%list.
Proof.
  induction a as [|x a IH]; [reflexivity|]. destruct x; cbn; now rewrite ?IH.
Qed.

Lemma loop_blocks (s : list ClaudeCodeMessage) (st : LoopState) :
  completion (loop host st s) = Done ->
  logged (loop host st s)
    = map (append "tool_use is not supported yet. Received: ") (toolUses (blocksOf s)) /\
  List.length (filter (fun c => negb (isUsageChunk c)) (yielded (loop host st s)))
    = (List.length (filter isRawText s)
       + List.length (filter isTranslated (blocksOf s)))%nat.
Proof.
  revert st. induction s as [|c s IH]; intros st; [split; reflexivity|].
  cbn [loop]. destruct (step host st c) as [[[ys ls] st']|e] eqn:E; [|discriminate].
  cbn [completion yielded logged]. intros Hdone.
  destruct (IH st' Hdone) as [IHl IHy]. rewrite IHl, filter_app, length_app, IHy.
  destruct c as [text|src|m|[r|] cost|]; cbn [step] in E.
  - injection E as <- <- _. split; reflexivity.
  - injection E as <- <- _. split; reflexivity.
  - destruct (apiError host m); [discriminate|].
    pose proof (translateBlocks_counts (content m)) as [Hy Hl].
    pose proof (StreamFacts.translateBlocks_no_usage (content m)) as Hb.
    destruct (translateBlocks (content m)) as [ys' ls']. injection E as <- <- _.
    cbn [fst snd] in *. cbn [blocksOf filter isRawText].
    rewrite toolUses_app, map_app, Hl, filter_app, length_app.
    rewrite (filter_all _ _ Hb), Hy. split; [reflexivity|lia].
  - injection E as <- <- _. split; reflexivity.
  - injection E as <- <- _. split; reflexivity.
  - injection E as <- <- _. split; reflexivity.
Qed.

(** When the generator returns, the lines sent to [console.error] are one
    per [tool_use] block, in order and with the block's rendering, and
    nothing else; and the chunks yielded besides the usage chunks are one
    per string chunk and one per text, thinking or redacted-thinking
    block: a [tool_use] block, like a block of an unknown type, yields
    nothing. *)
Theorem tool_use_blocks_are_logged_not_yielded :
  forall stream : list ClaudeCodeMessage,
    completion (createMessage host stream) = Done ->
    logged (createMessage host stream)
      = map (append "tool_use is not supported yet. Received: ")
            (toolUses (blocksOf stream)) /\
    List.length (filter (fun c => negb (isUsageChunk c)) (yielded (createMessage host stream)))
      = (List.length (filter isRawText stream)
         + List.length (filter isTranslated (blocksOf stream)))%nat.
Proof. intros stream. apply loop_blocks. Qed.

End WithHost.

Lemma stream_without_init_is_charged_witness :
  let host := Samples.hostWith Samples.noEnvSettings in
  let pre := [Assistant (Samples.textMessage "Hello" None (Samples.usage4 10 20 5 3))] in
  yielded (createMessage host (pre ++ [ResultMessage (Some "success") (5 # 100)]))
    = (yielded (createMessage host pre)
       ++ [UsageChunk (usageWithCost pre (5 # 100))])%list /\
  completion (createMessage host (pre ++ [ResultMessage (Some "success") (5 # 100)])) = Done.
Proof.
  exact (stream_without_init_is_charged (Samples.hostWith Samples.noEnvSettings)
           [Assistant (Samples.textMessage "Hello" None (Samples.usage4 10 20 5 3))]
           "success" (5 # 100) eq_refl eq_refl).
Defined.

Lemma tool_use_blocks_are_logged_not_yielded_witness :
  let host := Samples.hostWith Samples.noEnvSettings in
  let stream :=
    [ RawText "raw";
      Assistant {| stop_reason := None;
                   content := [TextBlock "a"; ToolUseBlock "{}"; ThinkingBlock None];
                   usage := Samples.usage2 1 2 |};
      ResultMessage (Some "success") (1 # 100) ] in
  logged (createMessage host stream)
    = map (append "tool_use is not supported yet. Received: ")
          (toolUses (blocksOf stream)) /\
  List.length (filter (fun c => negb (isUsageChunk c)) (yielded (createMessage host stream)))
    = (List.length (filter isRawText stream)
       + List.length (filter isTranslated (blocksOf stream)))%nat.
Proof.
  exact (tool_use_blocks_are_logged_not_yielded (Samples.hostWith Samples.noEnvSettings)
           [ RawText "raw";
             Assistant {| stop_reason := None;
                          content := [TextBlock "a"; ToolUseBlock "{}"; ThinkingBlock None];
                          usage := Samples.usage2 1 2 |};
             ResultMessage (Some "success") (1 # 100) ]
           eq_refl).
Defined.

(** ** The generator as a whole *)

Section Generator.
Variable T : ModelTables.
Variable host : Host.




End Generator.


End StreamMore.
